(** * SpeakPro: retry orchestrator, audio codec bridge and lesson history

    A shallow embedding of the non-UI logic of the SpeakPro tutor:

    - [callWithRetry], as written in [src/services/geminiService.ts] and as
      revised in the later copy of the same service ([src/unnamed/part_000]);
    - [encode], [decode] and [decodeAudioData] (identical in both copies);
    - the lesson history of [src/services/historyService.ts].

    Conventions.  JavaScript strings are modelled by [string] (sequences of
    8-bit code units; non-ASCII text is carried as its UTF-8 bytes, which
    preserves every ASCII substring test the code performs).  Integers are
    [Z]; the few floating-point quantities the code computes (the backoff
    delay, the frame count, the normalised samples, ages in days) are exact
    rationals in the ranges involved and are modelled by [Q].  Host objects
    (the operation given to [callWithRetry], [localStorage], [JSON], [Date],
    the [AudioContext]) are explicit state or explicit parameters. *)

From Stdlib Require Import ZArith QArith Qround String Ascii List Lia Bool.
From Stdlib Require Import ZifyNat ZifyN Qpower Lqa.
From Stdlib Require Import Strings.Byte.
From Stdlib Require DecimalString DecimalPos DecimalZ.
From stdpp Require Import gmap strings list.

Local Open Scope string_scope.
Local Open Scope list_scope.
Local Open Scope Z_scope.

(** ** JavaScript string primitives *)

Module Js.

(** [isPrefix p s]: [s.startsWith(p)]. *)
Fixpoint isPrefix (p s : string) : bool :=
  match p, s with
  | EmptyString, _ => true
  | String a p', String b s' => if Ascii.eqb a b then isPrefix p' s' else false
  | String _ _, EmptyString => false
  end.

(** [includes s needle]: [s.includes(needle)]. *)
Fixpoint includes (s needle : string) : bool :=
  if isPrefix needle s then true
  else match s with
       | EmptyString => false
       | String _ s' => includes s' needle
       end.

Definition lowerChar (c : ascii) : ascii :=
  let n := N_of_ascii c in
  if ((65 <=? n) && (n <=? 90))%N then ascii_of_N (n + 32) else c.

(** [toLowerCase s]: [s.toLowerCase()] on the ASCII letters; the markers
    searched for afterwards are ASCII. *)
Fixpoint toLowerCase (s : string) : string :=
  match s with
  | EmptyString => EmptyString
  | String c s' => String (lowerChar c) (toLowerCase s')
  end.

(** What the code can observe of a caught value [err]: [err?.status],
    [err?.message] and [JSON.stringify(err)].  [json = None] stands for a
    value that [JSON.stringify] does not turn into a string ([undefined],
    or a cyclic object), on which [.toLowerCase()] raises. *)
Record Error := mkError {
  status : option Z;
  message : option string;
  json : option string
}.

(** [x || dflt] on an optional string: [undefined] and [''] are falsy. *)
Definition orElse (x : option string) (dflt : string) : string :=
  match x with
  | Some (String c s) => String c s
  | _ => dflt
  end.

(** Values raised by [callWithRetry]. *)
Inductive Thrown :=
| Rethrown (err : Error)          (* throw err *)
| NewError (msg : string)         (* throw new Error(msg) *)
| HostTypeError.                  (* raised by the host inside the catch block *)

Definition thrownMessage (t : Thrown) : option string :=
  match t with
  | Rethrown err => message err
  | NewError msg => Some msg
  | HostTypeError => None
  end.

(** A settled promise. *)
Inductive Settled (T E : Type) :=
| Fulfilled (v : T)
| Rejected (e : E).
Arguments Fulfilled {T E} v.
Arguments Rejected {T E} e.

(** What an orchestrated call does, in order. *)
Inductive Event :=
| Attempt                 (* await fn() *)
| Wait (delay : Q).       (* await new Promise(r => setTimeout(r, delay)) *)

Definition isAttempt (ev : Event) : bool :=
  match ev with Attempt => true | Wait _ => false end.

(** Number of calls of the operation in a trace. *)
Fixpoint attempts (tr : list Event) : nat :=
  match tr with
  | [] => O
  | ev :: tr' => if isAttempt ev then S (attempts tr') else attempts tr'
  end.

Fixpoint waits (tr : list Event) : list Q :=
  match tr with
  | [] => []
  | Attempt :: tr' => waits tr'
  | Wait d :: tr' => d :: waits tr'
  end.

(** The tag the catch block computes for a caught error. *)
Inductive Classification :=
| TransientRateLimited
| Permanent.

End Js.

Import Js.

(** ** The retry orchestrator *)

(** The result of running [callWithRetry]: how the promise settles, the
    attempts and waits performed, and the state the operation left behind. *)
Record Run (T W : Type) := mkRun {
  settled : Settled T Thrown;
  trace : list Event;
  world : W
}.
Arguments mkRun {T W} _ _ _.
Arguments settled {T W} _.
Arguments trace {T W} _.
Arguments world {T W} _.

Definition emit {T W} (evs : list Event) (r : Run T W) : Run T W :=
  mkRun (settled r) (evs ++ trace r) (world r).

(** First delay, [let delay = 1500], and the factor of [delay *= 2.5]. *)
Definition INITIAL_DELAY : Q := 1500.
Definition nextDelay (delay : Q) : Q := Qred (delay * (5 # 2)).

Definition statusIs429 (err : Error) : bool :=
  match status err with Some s => s =? 429 | None => false end.

Module GeminiService.

Definition SERVER_BUSY : string :=
  "MÁY CHỦ BẬN: Bé vui lòng chờ 30 giây rồi nhấn 'Thử lại' nhé!".

(** The disjunction computed in the catch block, given the already
    lower-cased serialisation [errorStr]. *)
Definition isQuotaError (err : Error) (errorStr : string) : bool :=
  statusIs429 err
  || match message err with Some m => includes m "429" | None => false end
  || includes errorStr "quota"
  || includes errorStr "resource_exhausted"
  || includes errorStr "rate_limit".

(** The classification of [err], when the catch block gets as far as
    computing it. *)
Definition classify (err : Error) : option Classification :=
  match json err with
  | None => None
  | Some s =>
      Some (if isQuotaError err (toLowerCase s)
            then TransientRateLimited else Permanent)
  end.

Section CallWithRetry.
Context {T W : Type}.
Variable fn : W -> Settled T Error * W.
Variable maxRetries : Z.

(** The [for] loop from the test [i < maxRetries] on; [fuel] is the
    number of iterations still allowed by that test. *)
Fixpoint retryLoop (fuel : nat) (i : Z) (delay : Q) (w : W) : Run T W :=
  match fuel with
  | O => mkRun (Rejected (NewError SERVER_BUSY)) [] w
  | S fuel' =>
      match fn w with
      | (Fulfilled v, w') => mkRun (Fulfilled v) [Attempt] w'
      | (Rejected err, w') =>
          match json err with
          | None => mkRun (Rejected HostTypeError) [Attempt] w'
          | Some s =>
              let errorStr := toLowerCase s in
              if isQuotaError err errorStr && (i <? maxRetries - 1)
              then emit [Attempt; Wait delay]
                     (retryLoop fuel' (i + 1) (nextDelay delay) w')
              else mkRun (Rejected (Rethrown err)) [Attempt] w'
          end
      end
  end.

Definition callWithRetry (w : W) : Run T W :=
  retryLoop (Z.to_nat maxRetries) 0 INITIAL_DELAY w.
End CallWithRetry.

End GeminiService.

(** The revised orchestrator of the later copy of the service. *)
Module Part000.

Definition SERVER_BUSY : string :=
  "MÁY CHỦ BẬN: Ms Ly AI đang phục vụ quá nhiều bạn nhỏ. Bé chờ 30 giây rồi nhấn 'Thử lại' nhé!".

Definition isQuotaError (err : Error) (errorStr : string) : bool :=
  let errorMessage := orElse (option_map toLowerCase (message err)) "" in
  statusIs429 err
  || includes errorMessage "429"
  || includes errorStr "quota"
  || includes errorStr "resource_exhausted"
  || includes errorStr "rate_limit".

Definition classify (err : Error) : option Classification :=
  match json err with
  | None => None
  | Some s =>
      Some (if isQuotaError err (toLowerCase s)
            then TransientRateLimited else Permanent)
  end.

(** The statements after the loop. *)
Definition exhausted (lastError : option Error) : Thrown :=
  let actualMessage :=
    orElse (match lastError with Some e => message e | None => None end)
           "Unknown error" in
  if includes actualMessage "quota" || includes actualMessage "429"
  then NewError SERVER_BUSY
  else NewError ("Lỗi: " +:+ actualMessage).

Section CallWithRetry.
Context {T W : Type}.
Variable fn : W -> Settled T Error * W.
Variable maxRetries : Z.

Fixpoint retryLoop (fuel : nat) (i : Z) (delay : Q)
    (lastError : option Error) (w : W) : Run T W :=
  match fuel with
  | O => mkRun (Rejected (exhausted lastError)) [] w
  | S fuel' =>
      match fn w with
      | (Fulfilled v, w') => mkRun (Fulfilled v) [Attempt] w'
      | (Rejected err, w') =>
          match json err with
          | None => mkRun (Rejected HostTypeError) [Attempt] w'
          | Some s =>
              let errorStr := toLowerCase s in
              if isQuotaError err errorStr && (i <? maxRetries - 1)
              then emit [Attempt; Wait delay]
                     (retryLoop fuel' (i + 1) (nextDelay delay) (Some err) w')
              else if negb (isQuotaError err errorStr)
              then mkRun (Rejected (NewError
                            (orElse (message err) ("Lỗi API: " +:+ s))))
                         [Attempt] w'
              else emit [Attempt]
                     (retryLoop fuel' (i + 1) delay (Some err) w')
          end
      end
  end.

Definition callWithRetry (w : W) : Run T W :=
  retryLoop (Z.to_nat maxRetries) 0 INITIAL_DELAY None w.
End CallWithRetry.

End Part000.

(** ** Host functions of the audio codec bridge *)

Inductive HostError :=
| InvalidCharacterError     (* atob on text that is not base64 *)
| RangeError                (* new Int16Array(buffer) on an odd byte length *)
| IndexSizeError            (* getChannelData on a missing channel *)
| NotSupportedError.        (* createBuffer on arguments the host rejects *)

Definition Result (A : Type) : Type := HostError + A.
Definition Ok {A} (a : A) : Result A := inr a.
Definition Err {A} (e : HostError) : Result A := inl e.

(** [btoa] and [atob] of the browser: base64 as in RFC 4648 section 4, the
    decoder being the forgiving one of the HTML standard. *)
Module Base64.

Definition alphabet : list ascii :=
  list_ascii_of_string
    "ABCDEFGHIJKLMNOPQRSTUVWXYZabcdefghijklmnopqrstuvwxyz0123456789+/".

Definition pad : ascii := "="%char.

Definition sextetChar (n : N) : ascii := nth (N.to_nat n) alphabet pad.

Fixpoint position (c : ascii) (l : list ascii) (n : N) : option N :=
  match l with
  | [] => None
  | x :: l' => if Ascii.eqb c x then Some n else position c l' (N.succ n)
  end.

Definition charSextet (c : ascii) : option N := position c alphabet 0%N.

(** Three bytes become four sextets; one or two trailing bytes become two
    or three sextets, the unused low bits being zero. *)
Fixpoint toSextets (l : list N) : list N :=
  match l with
  | a :: b :: c :: rest =>
      (a / 4) :: ((a mod 4) * 16 + b / 16) :: ((b mod 16) * 4 + c / 64)
        :: (c mod 64) :: toSextets rest
  | [a; b] => [a / 4; (a mod 4) * 16 + b / 16; (b mod 16) * 4]
  | [a] => [a / 4; (a mod 4) * 16]
  | [] => []
  end%N.

Definition padding (n : nat) : list ascii :=
  match (n mod 3)%nat with
  | 1%nat => [pad; pad]
  | 2%nat => [pad]
  | _ => []
  end.

Definition btoa (s : string) : string :=
  let codes := map N_of_ascii (list_ascii_of_string s) in
  string_of_list_ascii
    (map sextetChar (toSextets codes) ++ padding (length codes)).

Definition isAsciiWhitespace (c : ascii) : bool :=
  let n := N_of_ascii c in
  ((n =? 9) || (n =? 10) || (n =? 12) || (n =? 13) || (n =? 32))%N.

(** Step 2 of the forgiving decoder: when the length is a multiple of four,
    one or two trailing [=] are dropped. *)
Definition stripPadding (l : list ascii) : list ascii :=
  if (length l mod 4 =? 0)%nat then
    match rev l with
    | p1 :: p2 :: r =>
        if Ascii.eqb p1 pad then
          if Ascii.eqb p2 pad then rev r else rev (p2 :: r)
        else l
    | _ => l
    end
  else l.

Fixpoint sextets (l : list ascii) : option (list N) :=
  match l with
  | [] => Some []
  | c :: l' =>
      match charSextet c, sextets l' with
      | Some n, Some ns => Some (n :: ns)
      | _, _ => None
      end
  end.

(** Steps 7 to 10: four sextets give three bytes; a remainder of two or
    three sextets gives one or two bytes, the low bits being discarded. *)
Fixpoint fromSextets (l : list N) : list N :=
  match l with
  | s1 :: s2 :: s3 :: s4 :: rest =>
      let n := ((s1 * 64 + s2) * 64 + s3) * 64 + s4 in
      (n / 65536) :: ((n / 256) mod 256) :: (n mod 256) :: fromSextets rest
  | [s1; s2; s3] =>
      let n := ((s1 * 64 + s2) * 64 + s3) / 4 in
      [n / 256; n mod 256]
  | [s1; s2] => [(s1 * 64 + s2) / 16]
  | _ => []
  end%N.

Definition atob (s : string) : option string :=
  let data := List.filter (fun c => negb (isAsciiWhitespace c)) (list_ascii_of_string s) in
  let data := stripPadding data in
  if (length data mod 4 =? 1)%nat then None
  else match sextets data with
       | None => None
       | Some ns => Some (string_of_list_ascii (map ascii_of_N (fromSextets ns)))
       end.

(** Ranges of the numbers involved. *)
Definition isByte (n : N) : Prop := (n < 256)%N.
Definition isSextet (n : N) : Prop := (n < 64)%N.

(** The character of the sextet [n] is read back as [n], and is neither
    the padding character nor white space. *)
Definition sextetOk (n : N) : bool :=
  match charSextet (sextetChar n) with
  | Some m => (m =? n)%N
  | None => false
  end
  && negb (Ascii.eqb (sextetChar n) pad)
  && negb (isAsciiWhitespace (sextetChar n)).

End Base64.

(** ** Typed arrays *)

(** A [Uint8Array] is a view of [byteLength] bytes, starting at
    [byteOffset], on the bytes of its [buffer]. *)
Record Uint8Array := mkUint8Array {
  buffer : list byte;
  byteOffset : nat;
  byteLength : nat
}.

Definition wellFormed (a : Uint8Array) : Prop :=
  (byteOffset a + byteLength a <= length (buffer a))%nat.

(** The view spans its whole buffer, as the arrays made by
    [new Uint8Array(len)] do: the array is a byte sequence of its own. *)
Definition ownsBuffer (a : Uint8Array) : Prop :=
  byteOffset a = 0%nat /\ byteLength a = length (buffer a).

(** The bytes seen through the view. *)
Definition elements (a : Uint8Array) : list byte :=
  take (byteLength a) (drop (byteOffset a) (buffer a)).

(** [a[i]]; [undefined] outside the view. *)
Definition getByte (a : Uint8Array) (i : nat) : option byte :=
  if (i <? byteLength a)%nat then buffer a !! (byteOffset a + i)%nat else None.

(** [a[i] = b]; ignored outside the view. *)
Definition setByte (a : Uint8Array) (i : nat) (b : byte) : Uint8Array :=
  if (i <? byteLength a)%nat
  then mkUint8Array (<[(byteOffset a + i)%nat := b]> (buffer a)) (byteOffset a) (byteLength a)
  else a.

(** [new Uint8Array(len)]: a fresh zeroed buffer of its own. *)
Definition newUint8Array (len : nat) : Uint8Array :=
  mkUint8Array (replicate len x00) 0 len.

(** The array that holds exactly the byte sequence [bs]. *)
Definition ofBytes (bs : list byte) : Uint8Array :=
  mkUint8Array bs 0 (length bs).

(** [String.fromCharCode(x)] for [x] read from a [Uint8Array];
    [fromCharCode(undefined)] is the character of code 0. *)
Definition fromCharCode (x : option byte) : ascii :=
  match x with Some b => ascii_of_byte b | None => zero end.

(** Two's complement value of a little-endian 16-bit element. *)
Definition int16 (lo hi : byte) : Z :=
  let u := Z.of_N (Byte.to_N lo) + 256 * Z.of_N (Byte.to_N hi) in
  if u <? 32768 then u else u - 65536.

Fixpoint int16Elements (l : list byte) : list Z :=
  match l with
  | lo :: hi :: rest => int16 lo hi :: int16Elements rest
  | _ => []
  end.

(** [new Int16Array(buffer)]: the whole buffer, whose byte length must be a
    multiple of the element size. *)
Definition newInt16Array (buf : list byte) : Result (list Z) :=
  if (length buf mod 2 =? 0)%nat then Ok (int16Elements buf) else Err RangeError.

(** An element of a [Float32Array]. *)
Inductive F32 :=
| Num (q : Q)
| NaN.

(** [x / 32768.0] for an element read from an [Int16Array]; the quotient of
    a 16-bit integer by 2^15 is exact in single precision.  Reading past the
    end gives [undefined], whose quotient is [NaN]. *)
Definition div32768 (x : option Z) : F32 :=
  match x with Some v => Num (v # 32768) | None => NaN end.

Record AudioBuffer := mkAudioBuffer {
  numberOfChannels : Z;
  bufferLength : Z;
  sampleRate : Q;
  channelData : list (list F32)
}.

(** The host's audio context: [supported n len rate] tells whether
    [createBuffer(n, len, rate)] accepts its (converted) arguments. *)
Record AudioContext := mkAudioContext {
  supported : Z -> Z -> Q -> bool
}.

(** Conversion of a number to a WebIDL [unsigned long]: truncation, then
    reduction modulo 2^32. *)
Definition Qtrunc (q : Q) : Z := if Qle_bool 0 q then Qfloor q else Qceiling q.
Definition toUint32 (q : Q) : Z := Qtrunc q mod 2 ^ 32.

Definition createBuffer (ctx : AudioContext) (numChannels : Z) (len : Q) (rate : Q)
  : Result AudioBuffer :=
  let n := toUint32 (inject_Z numChannels) in
  let l := toUint32 len in
  if supported ctx n l rate
  then Ok (mkAudioBuffer n l rate
             (replicate (Z.to_nat n) (replicate (Z.to_nat l) (Num 0))))
  else Err NotSupportedError.

(** The audio context of the Web Audio specification: between 1 and 32
    channels, at least one frame, a rate between 8000 and 96000 Hz. *)
Definition webAudio : AudioContext :=
  mkAudioContext (fun n len rate =>
    (1 <=? n) && (n <=? 32) && (1 <=? len)
    && Qle_bool 8000 rate && Qle_bool rate 96000).

(** ** The audio codec bridge *)

Module AudioCodec.

(** [binaryString.charCodeAt(i)] as stored into a [Uint8Array]; the [NaN]
    of an index past the end is stored as 0. *)
Definition charCodeAt (s : string) (i : nat) : byte :=
  match String.get i s with
  | Some c => byte_of_ascii c
  | None => x00
  end.

Definition decode (base64 : string) : Result Uint8Array :=
  match Base64.atob base64 with
  | None => Err InvalidCharacterError
  | Some binaryString =>
      let len := String.length binaryString in
      let bytes := newUint8Array len in
      Ok (fold_left (fun bytes i => setByte bytes i (charCodeAt binaryString i))
                    (seq 0 len) bytes)
  end.

Definition encode (bytes : Uint8Array) : string :=
  let len := byteLength bytes in
  let binary :=
    fold_left (fun binary i => binary +:+ String (fromCharCode (getByte bytes i)) "")
              (seq 0 len) "" in
  Base64.btoa binary.

(** [dataInt16[k]]. *)
Definition getInt16 (dataInt16 : list Z) (k : Z) : option Z :=
  if k <? 0 then None else dataInt16 !! Z.to_nat k.

(** [buffer.getChannelData(channel)] and the effect of writing through the
    array it returns, which is the buffer's own storage. *)
Definition getChannelData (b : AudioBuffer) (channel : Z) : option (list F32) :=
  if channel <? 0 then None else channelData b !! Z.to_nat channel.

Definition setChannelData (b : AudioBuffer) (channel : Z) (d : list F32) : AudioBuffer :=
  mkAudioBuffer (numberOfChannels b) (bufferLength b) (sampleRate b)
                (<[Z.to_nat channel := d]> (channelData b)).

(** The inner loop, [for (let i = 0; i < frameCount; i++)]: [i] takes the
    integer values below the (possibly fractional) [frameCount].  A write
    past the end of a typed array has no effect. *)
Definition fillChannel (dataInt16 : list Z) (numChannels channel : Z)
    (frameCount : Q) (channelData : list F32) : list F32 :=
  fold_left
    (fun channelData i =>
       <[Z.to_nat i := div32768 (getInt16 dataInt16 (i * numChannels + channel))]>
         channelData)
    (seqZ 0 (Qceiling frameCount)) channelData.

(** [frameCount] is the quotient of two numbers, not an integer division;
    the quotient by 0 ([Infinity] or [NaN] in JavaScript, 0 here) is
    converted to 0 frames in both readings and starts no loop. *)
Definition decodeAudioData (data : Uint8Array) (ctx : AudioContext)
    (sampleRate : Q) (numChannels : Z) : Result AudioBuffer :=
  match newInt16Array (buffer data) with
  | inl e => Err e
  | inr dataInt16 =>
      let frameCount := (inject_Z (Z.of_nat (length dataInt16)) / inject_Z numChannels)%Q in
      match createBuffer ctx numChannels frameCount sampleRate with
      | inl e => Err e
      | inr buffer =>
          fold_left
            (fun acc channel =>
               match acc with
               | inl e => inl e
               | inr buffer =>
                   match getChannelData buffer channel with
                   | None => Err IndexSizeError
                   | Some channelData =>
                       Ok (setChannelData buffer channel
                             (fillChannel dataInt16 numChannels channel
                                          frameCount channelData))
                   end
               end)
            (seqZ 0 numChannels) (Ok buffer)
      end
  end.

(** [buffer.getChannelData(c)[i]]. *)
Definition sample (b : AudioBuffer) (c i : nat) : option F32 :=
  match channelData b !! c with
  | Some d => d !! i
  | None => None
  end.

End AudioCodec.

(** ** The lesson history *)

Module HistoryService.

Record LessonRecord := mkLessonRecord {
  id : string;
  date : string;
  theme : string;
  level : string;
  childName : string;
  score : Q;
  pronunciation : Q;
  fluency : Q;
  intonation : Q;
  vocabulary : Q;
  grammar : Q;
  taskFulfillment : Q;
  perceivedLevel : string;
  duration : Q
}.

Definition STORAGE_KEY : string := "speakpro_lesson_history".
Definition EXPIRY_DAYS : Q := 7.

(** The value of [JSON.parse(data)] as this service uses it: an array of
    records, or a value that has no [filter] method. *)
Inductive Json :=
| JsonRecords (records : list LessonRecord)
| JsonOther.

(** The host: [JSON], and the clock and calendar of [Date].
    - [JSON_parse s] is [None] when [JSON.parse(s)] raises a SyntaxError;
    - [Date_getTime s] is [new Date(s).getTime()], [None] for [NaN];
    - [Date_dayKey now i] is the key computed for the day [i] days back:
      a [Date] at [now], [setDate(getDate() - i)], then
      [toISOString().split('T')[0]]. *)
Record Host := mkHost {
  JSON_parse : string -> option Json;
  JSON_stringify : list LessonRecord -> string;
  Date_getTime : string -> option Z;
  Date_dayKey : Z -> Z -> string
}.

Abbreviation Storage := (gmap string string).

(** [Math.round(x)]. *)
Definition Math_round (x : Q) : Z := Qfloor (x + (1 # 2)).

(** [Math.round(x * 10) / 10]. *)
Definition round1 (x : Q) : Q := Qred (inject_Z (Math_round (x * 10)) / 10).

(** [s.split('T')[0]]. *)
Fixpoint beforeT (s : string) : string :=
  match s with
  | EmptyString => EmptyString
  | String c s' => if Ascii.eqb c "T"%char then EmptyString else String c (beforeT s')
  end.

Section WithHost.
Variable host : Host.
(** The reading of the clock, [new Date()], during the call. *)
Variable now : Z.

(** [diffDays], when the record's date is a valid one. *)
Definition diffDays (record : LessonRecord) : option Q :=
  match Date_getTime host (date record) with
  | Some t => Some ((now - t) # 86400000)%Q
  | None => None
  end.

(** The predicate of [records.filter]; a comparison with [NaN] fails. *)
Definition notExpired (record : LessonRecord) : bool :=
  match diffDays record with
  | Some d => Qle_bool d EXPIRY_DAYS
  | None => false
  end.

(** [getLessonHistory()], with the storage before and after.  Every
    exception raised inside the [try] gives the empty list. *)
Definition getLessonHistory (store : Storage) : list LessonRecord * Storage :=
  match store !! STORAGE_KEY with
  | None => ([], store)
  | Some EmptyString => ([], store)
  | Some data =>
      match JSON_parse host data with
      | None => ([], store)
      | Some JsonOther => ([], store)
      | Some (JsonRecords records) =>
          let validRecords := List.filter notExpired records in
          if negb (length validRecords =? length records)%nat
          then (validRecords,
                <[STORAGE_KEY := JSON_stringify host validRecords]> store)
          else (validRecords, store)
      end
  end.

(** A [Map] with string keys, in insertion order. *)
Fixpoint mapSet {V} (m : list (string * V)) (k : string) (v : V) : list (string * V) :=
  match m with
  | [] => [(k, v)]
  | (k', v') :: m' =>
      if String.eqb k k' then (k, v) :: m' else (k', v') :: mapSet m' k v
  end.

(** [if (grouped.has(k)) grouped.get(k).push(x)]. *)
Fixpoint mapPush {V} (m : list (string * list V)) (k : string) (x : V)
  : list (string * list V) :=
  match m with
  | [] => []
  | (k', v') :: m' =>
      if String.eqb k k' then (k', v' ++ [x]) :: m' else (k', v') :: mapPush m' k x
  end.

Record DayGroup := mkDayGroup {
  dayDate : string;
  lessons : list LessonRecord;
  avgScore : Q
}.

Definition sumScores (ls : list LessonRecord) : Q :=
  fold_left (fun sum l => (sum + score l)%Q) ls 0%Q.

Definition toDayGroup (entry : string * list LessonRecord) : DayGroup :=
  let '(d, ls) := entry in
  mkDayGroup d ls
    (if (0 <? length ls)%nat
     then round1 (sumScores ls / inject_Z (Z.of_nat (length ls)))
     else 0%Q).

(** The keys of the last seven days, oldest first ([i] from 6 down to 0). *)
Definition lastSevenDays : list (string * list LessonRecord) :=
  fold_left (fun grouped i => mapSet grouped (Date_dayKey host now i) [])
            [6; 5; 4; 3; 2; 1; 0] [].

Definition getLessonsGroupedByDay (store : Storage) : list DayGroup * Storage :=
  let '(history, store') := getLessonHistory store in
  let grouped :=
    fold_left (fun grouped lesson => mapPush grouped (beforeT (date lesson)) lesson)
              history lastSevenDays in
  (map toDayGroup grouped, store').

(** The loop of [getDailyStreak], from the test [i >= 0] on. *)
Fixpoint streakLoop (fuel : nat) (i : Z) (grouped : list DayGroup) (streak : Z) : Z :=
  match fuel with
  | O => streak
  | S fuel' =>
      if i <? 0 then streak
      else match grouped !! Z.to_nat i with
           | None => streak
           | Some g =>
               if (0 <? length (lessons g))%nat
               then streakLoop fuel' (i - 1) grouped (streak + 1)
               else if i =? Z.of_nat (length grouped) - 1
               then streakLoop fuel' (i - 1) grouped streak
               else streak
           end
  end.

Definition streakOf (grouped : list DayGroup) : Z :=
  streakLoop (length grouped) (Z.of_nat (length grouped) - 1) grouped 0.

Definition getDailyStreak (store : Storage) : Z * Storage :=
  let '(grouped, store') := getLessonsGroupedByDay store in
  (streakOf grouped, store').

Record SkillAverages := mkSkillAverages {
  avgPronunciation : Q;
  avgFluency : Q;
  avgIntonation : Q;
  avgVocabulary : Q;
  avgGrammar : Q;
  avgTaskFulfillment : Q;
  totalLessons : Z;
  totalTime : Q
}.

Definition sumOf (f : LessonRecord -> Q) (ls : list LessonRecord) : Q :=
  fold_left (fun acc l => (acc + f l)%Q) ls 0%Q.

Definition getWeeklySkillAverages (store : Storage) : SkillAverages * Storage :=
  let '(history, store') := getLessonHistory store in
  if (length history =? 0)%nat
  then (mkSkillAverages 0 0 0 0 0 0 0 0, store')
  else
    let count := inject_Z (Z.of_nat (length history)) in
    let avg f := round1 (sumOf f history / count) in
    (mkSkillAverages (avg pronunciation) (avg fluency) (avg intonation)
       (avg vocabulary) (avg grammar) (avg taskFulfillment)
       (Z.of_nat (length history)) (sumOf duration history),
     store').

(** [history.slice(-limit)]: a negative start counts from the end. *)
Definition sliceFrom {A} (l : list A) (start : Z) : list A :=
  let len := Z.of_nat (length l) in
  let k := if start <? 0 then Z.max (len + start) 0 else Z.min start len in
  drop (Z.to_nat k) l.

Definition getRecentLessons (limit : Z) (store : Storage) : list LessonRecord * Storage :=
  let '(history, store') := getLessonHistory store in
  (rev (sliceFrom history (- limit)), store').

End WithHost.

(** The day has at least one lesson. *)
Definition hasLessons (g : DayGroup) : bool := (0 <? length (lessons g))%nat.

(** Length of the run of days with lessons at the head of a list of days
    given most recent first. *)
Fixpoint activeRun (days : list DayGroup) : Z :=
  match days with
  | [] => 0
  | g :: rest => if hasLessons g then 1 + activeRun rest else 0
  end.

Definition MS_PER_DAY : Z := 86400000.

End HistoryService.

(** A host for the examples: a browser whose time zone is UTC, with dates
    in the format of [toISOString], and a storage text that lists the
    identifiers of known records. *)
Module ExampleHost.
Import HistoryService.

(** Days since 1970-01-01 of a civil date, and back. *)
Definition daysFromCivil (y m d : Z) : Z :=
  let y := if m <=? 2 then y - 1 else y in
  let era := y / 400 in
  let yoe := y - era * 400 in
  let doy := (153 * (if 2 <? m then m - 3 else m + 9) + 2) / 5 + d - 1 in
  let doe := yoe * 365 + yoe / 4 - yoe / 100 + doy in
  era * 146097 + doe - 719468.

Definition civilFromDays (z : Z) : Z * Z * Z :=
  let z := z + 719468 in
  let era := z / 146097 in
  let doe := z - era * 146097 in
  let yoe := (doe - doe / 1460 + doe / 36524 - doe / 146096) / 365 in
  let doy := doe - (365 * yoe + yoe / 4 - yoe / 100) in
  let mp := (5 * doy + 2) / 153 in
  let d := doy - (153 * mp + 2) / 5 + 1 in
  let m := if mp <? 10 then mp + 3 else mp - 9 in
  (if m <=? 2 then yoe + era * 400 + 1 else yoe + era * 400, m, d).

Definition digitChar (n : Z) : ascii := ascii_of_N (48 + Z.to_N (n mod 10)).

(** [n] written with [width] digits. *)
Fixpoint digits (width : nat) (n : Z) : string :=
  match width with
  | O => ""
  | S w => digits w (n / 10) +:+ String (digitChar n) ""
  end.

Fixpoint number (acc : Z) (s : string) : option Z :=
  match s with
  | EmptyString => Some acc
  | String c s' =>
      let n := Z.of_N (N_of_ascii c) in
      if (48 <=? n) && (n <=? 57) then number (acc * 10 + (n - 48)) s' else None
  end.

Definition field (s : string) (start len : nat) : option Z :=
  number 0 (String.substring start len s).

(** [new Date(s).getTime()] for [s] of the form [YYYY-MM-DDTHH:MM:SS.mmmZ]. *)
Definition getTime (s : string) : option Z :=
  match field s 0 4, field s 5 2, field s 8 2,
        field s 11 2, field s 14 2, field s 17 2, field s 20 3 with
  | Some y, Some m, Some d, Some hh, Some mm, Some ss, Some ms =>
      if (String.length s =? 24)%nat
      then Some (daysFromCivil y m d * MS_PER_DAY
                 + ((hh * 60 + mm) * 60 + ss) * 1000 + ms)
      else None
  | _, _, _, _, _, _, _ => None
  end.

(** The date part of [toISOString()]. *)
Definition isoDate (t : Z) : string :=
  let '(y, m, d) := civilFromDays (t / MS_PER_DAY) in
  digits 4 y +:+ "-" +:+ digits 2 m +:+ "-" +:+ digits 2 d.

(** In UTC, [setDate(getDate() - i)] moves the time back by [i] days. *)
Definition dayKey (now i : Z) : string := isoDate (now - i * MS_PER_DAY).

Definition lesson (name date : string) (score : Q) : LessonRecord :=
  mkLessonRecord name date "Animals" "A1" "Mai" score score score score score
                 score score "B1" 90.

(** The clock reads 2024-03-11T12:00:00.000Z. *)
Definition now : Z := 1710158400000.

Definition today : LessonRecord := lesson "today" "2024-03-11T09:30:00.000Z" 8.
Definition yesterday : LessonRecord := lesson "yesterday" "2024-03-10T18:00:00.000Z" 7.
Definition threeDaysAgo : LessonRecord := lesson "three" "2024-03-08T12:00:00.000Z" 6.
Definition tenDaysAgo : LessonRecord := lesson "ten" "2024-03-01T12:00:00.000Z" 9.

Definition known : list LessonRecord := [today; yesterday; threeDaysAgo; tenDaysAgo].

Fixpoint splitOn (sep : ascii) (s : string) (cur : string) : list string :=
  match s with
  | EmptyString => [cur]
  | String c s' =>
      if Ascii.eqb c sep then cur :: splitOn sep s' ""
      else splitOn sep s' (cur +:+ String c "")
  end.

Definition findKnown (name : string) : option LessonRecord :=
  List.find (fun r => String.eqb (id r) name) known.

Fixpoint allSome {A} (l : list (option A)) : option (list A) :=
  match l with
  | [] => Some []
  | Some x :: l' => option_map (cons x) (allSome l')
  | None :: _ => None
  end.

(** The storage text is the list of the identifiers between brackets,
    each followed by a semicolon; any other text is not parsed. *)
Definition stringify (rs : list LessonRecord) : string :=
  "[" +:+ fold_right (fun r s => id r +:+ ";" +:+ s) "]" rs.

Definition parse (s : string) : option Json :=
  match s with
  | String "["%char body =>
      match rev (splitOn ";"%char body "") with
      | "]" :: names =>
          option_map JsonRecords (allSome (map findKnown (rev names)))
      | _ => None
      end
  | _ => None
  end.

Definition host : Host := mkHost parse stringify getTime dayKey.

Definition storeOf (rs : list LessonRecord) : gmap string string :=
  {[ STORAGE_KEY := stringify rs ]}.

End ExampleHost.

(** ** Example data *)

(** Errors and operations used to exercise the orchestrator. *)
Module Examples.

(** A rate-limit error as the backend reports it. *)
Definition quotaError : Error :=
  mkError (Some 429) (Some "429 Too Many Requests") (Some "{}").

(** A rate-limit error recognised by its status only. *)
Definition busyError : Error :=
  mkError (Some 429) (Some "Too Many Requests") (Some "{}").

(** An error that is not a rate-limit error. *)
Definition badRequest : Error :=
  mkError (Some 400) (Some "Bad Request") (Some "{}").

(** An operation that fails in the same way at every call; its state
    counts the calls. *)
Definition alwaysFails (err : Error) (calls : nat) : Settled string Error * nat :=
  (Rejected err, S calls).

(** An operation that fails with [err] at its first three calls and
    returns ["ok"] afterwards. *)
Definition failsThrice (err : Error) (calls : nat) : Settled string Error * nat :=
  if (calls <? 3)%nat then (Rejected err, S calls) else (Fulfilled "ok", S calls).

End Examples.

(** ** Vocabulary of the statements *)

(** An operation that fails with a rate-limit error at every call. *)
Definition failsTransiently {T W} (fn : W -> Settled T Error * W) : Prop :=
  forall w, exists err w',
    fn w = (Rejected err, w')
    /\ GeminiService.classify err = Some TransientRateLimited.

(** The state of the operation after [k] calls; the call number [k + 1] is
    made on it. *)
Fixpoint stateAfter {T W} (fn : W -> Settled T Error * W) (k : nat) (w : W) : W :=
  match k with
  | O => w
  | S k' => stateAfter fn k' (fn w).2
  end.

(** The sentence "after failing transiently at every attempt the call
    raises the ServerBusy error, having made exactly [maxRetries]
    attempts", for an orchestrator [call] whose ServerBusy error is
    [busy]. *)
Definition exhaustionRaisesServerBusy
    (call : forall T W, (W -> Settled T Error * W) -> Z -> W -> Run T W)
    (busy : Thrown) : Prop :=
  forall T W (fn : W -> Settled T Error * W) (maxRetries : Z) (w : W),
    failsTransiently fn ->
    settled (call T W fn maxRetries w) = Rejected busy
    /\ Z.of_nat (attempts (trace (call T W fn maxRetries w))) = maxRetries.

(** The sentence "with [maxRetries <= 1] the operation is still attempted
    exactly once, and no wait is inserted". *)
Definition smallBudgetAttemptsOnce
    (call : forall T W, (W -> Settled T Error * W) -> Z -> W -> Run T W) : Prop :=
  forall T W (fn : W -> Settled T Error * W) (maxRetries : Z) (w : W),
    maxRetries <= 1 ->
    attempts (trace (call T W fn maxRetries w)) = 1%nat
    /\ waits (trace (call T W fn maxRetries w)) = [].

(** The delay in force after [k] waits. *)
Definition delayAfter (k : nat) : Q := Nat.iter k nextDelay INITIAL_DELAY.

(** The two copies of the orchestrator, as functions of the same shape. *)
Definition Orchestrator : Type :=
  forall T W, (W -> Settled T Error * W) -> Z -> W -> Run T W.

(** An orchestrator changes the state of the operation only by calling it:
    a property of the state that failing attempts keep holds when the call
    raises, and held when the attempt that gave the result was made. *)
Definition respectsState (call : Orchestrator) : Prop :=
  forall T W (fn : W -> Settled T Error * W) (maxRetries : Z) (keeps : W -> Prop),
    (forall w err w', fn w = (Rejected err, w') -> keeps w -> keeps w') ->
    forall w, keeps w ->
      match settled (call T W fn maxRetries w) with
      | Rejected _ => keeps (world (call T W fn maxRetries w))
      | Fulfilled v =>
          exists w1, keeps w1 /\ fn w1 = (Fulfilled v, world (call T W fn maxRetries w))
      end.

(** ** More string primitives *)

Module JsText.

(** Every character of [s] satisfies [P]. *)
Abbreviation allChars P s := (Forall P (list_ascii_of_string s)).

Definition isAscii (s : string) : Prop :=
  allChars (fun c => (N_of_ascii c < 128)%N) s.

(** The ASCII characters that [trim] removes and that [\s] matches: tab,
    line feed, vertical tab, form feed, carriage return and space. *)
Definition isSpace (c : ascii) : bool :=
  let n := N_of_ascii c in
  ((9 <=? n) && (n <=? 13) || (n =? 32))%N.

(** [s.replace(/[...]/g, '')] for the class of characters [p]. *)
Fixpoint removeAll (p : ascii -> bool) (s : string) : string :=
  match s with
  | EmptyString => EmptyString
  | String c s' => if p c then removeAll p s' else String c (removeAll p s')
  end.

Fixpoint trimStart (s : string) : string :=
  match s with
  | EmptyString => EmptyString
  | String c s' => if isSpace c then trimStart s' else s
  end.

Fixpoint trimEnd (s : string) : string :=
  match s with
  | EmptyString => EmptyString
  | String c s' =>
      match trimEnd s' with
      | EmptyString => if isSpace c then EmptyString else String c EmptyString
      | t => String c t
      end
  end.

(** [s.trim()]. *)
Definition trim (s : string) : string := trimEnd (trimStart s).

(** [s.replace(/X+/g, r)] for the class of characters [p]: every maximal run
    of characters of the class becomes the single character [r].  [inRun]
    tells that the character before was of the class. *)
Fixpoint collapseRuns (p : ascii -> bool) (r : ascii) (inRun : bool) (s : string) : string :=
  match s with
  | EmptyString => EmptyString
  | String c s' =>
      if p c
      then if inRun then collapseRuns p r true s'
           else String r (collapseRuns p r true s')
      else String c (collapseRuns p r false s')
  end.

(** No two neighbouring characters of [s] are both of the class [p]. *)
Fixpoint noTwoInARow (p : ascii -> bool) (s : string) : Prop :=
  match s with
  | EmptyString => True
  | String c s' =>
      match s' with
      | EmptyString => True
      | String d _ => (p c && p d = false) /\ noTwoInARow p s'
      end
  end.

Definition firstChar (s : string) : option ascii :=
  match s with EmptyString => None | String c _ => Some c end.

Fixpoint lastChar (s : string) : option ascii :=
  match s with
  | EmptyString => None
  | String c EmptyString => Some c
  | String _ s' => lastChar s'
  end.

(** Neither the first nor the last character is white space. *)
Definition trimmed (s : string) : Prop :=
  (forall c, firstChar s = Some c -> isSpace c = false)
  /\ (forall c, lastChar s = Some c -> isSpace c = false).

End JsText.

Import JsText.

(** ** The stored configuration *)

Module ApiConfig.

Definition TEXT_MODEL_PRIMARY : string := "gemini-2.5-flash".
Definition API_KEY_ITEM : string := "gemini_api_key".
Definition SELECTED_MODEL_ITEM : string := "gemini_selected_model".

Definition getApiKey (storage : gmap string string) : string :=
  orElse (storage !! API_KEY_ITEM) "".

Definition getSelectedModel (storage : gmap string string) : string :=
  orElse (storage !! SELECTED_MODEL_ITEM) TEXT_MODEL_PRIMARY.

Definition saveApiConfig (apiKey model : string) (storage : gmap string string)
  : gmap string string :=
  <[SELECTED_MODEL_ITEM := model]> (<[API_KEY_ITEM := apiKey]> storage).

(** [if (x) ...] on an optional string argument. *)
Definition truthy (x : option string) : bool :=
  match x with Some (String _ _) => true | _ => false end.

Definition initializeGeminiChat (apiKey model : option string)
    (storage : gmap string string) : gmap string string :=
  let storage :=
    if truthy apiKey then <[API_KEY_ITEM := orElse apiKey ""]> storage else storage in
  if truthy model then <[SELECTED_MODEL_ITEM := orElse model ""]> storage else storage.

(** The message of the error raised when no key is stored, and what the
    code observes of [new Error(msg)]: no status, the message, and the
    serialisation of an object without enumerable property. *)
Definition API_KEY_MISSING : string := "Vui lòng nhập API Key để sử dụng app.".

Definition newError (msg : string) : Error := mkError None (Some msg) (Some "{}").

End ApiConfig.

(** ** Word meanings and their cache *)

Module WordMeaning.
Import ApiConfig.

Record Meaning := mkMeaning {
  meaning : string;
  phonetic : string;
  example : string
}.

(** The characters of the class removed by [cleanWord]: full stop, comma,
    exclamation and question marks, semicolon, colon, both quotes and the
    parentheses, by their codes. *)
Definition isPunctuation (c : ascii) : bool :=
  existsb (N.eqb (N_of_ascii c)) [46; 44; 33; 63; 59; 58; 39; 34; 40; 41]%N.

(** [word.toLowerCase().replace(/[...]/g, '').trim()].  On ASCII words this
    is the function of the code; on other words [toLowerCase] and [trim]
    of JavaScript also act on letters and white space outside ASCII, and
    the statements about the cache are made for ASCII words. *)
Definition cleanWord (word : string) : string :=
  trim (removeAll isPunctuation (toLowerCase word)).

Section GetWordMeaning.
Context {W : Type}.
(** The backend: [generateContent apiKey cleanWord] is the call of
    [ai.models.generateContent] for the word, giving [response.text];
    [JSON_parse] is [JSON.parse], whose exception is the error it raises. *)
Variable generateContent : string -> string -> W -> Settled (option string) Error * W.
Variable JSON_parse : string -> Settled Meaning Error.
(** The orchestrator of the copy of the service at hand. *)
Variable callWithRetry : Orchestrator.
Variable storage : gmap string string.

(** The operation given to [callWithRetry]; its state is the cache and the
    state of the backend. *)
Definition lookupOperation (cleanWord : string) (st : gmap string Meaning * W)
  : Settled Meaning Error * (gmap string Meaning * W) :=
  let '(cache, w) := st in
  match getApiKey storage with
  | EmptyString => (Rejected (newError API_KEY_MISSING), (cache, w))
  | apiKey =>
      match generateContent apiKey cleanWord w with
      | (Rejected err, w') => (Rejected err, (cache, w'))
      | (Fulfilled text, w') =>
          match JSON_parse (orElse text "{}") with
          | Rejected err => (Rejected err, (cache, w'))
          | Fulfilled result => (Fulfilled result, (<[cleanWord := result]> cache, w'))
          end
      end
  end.

Definition getWordMeaning (word : string) (st : gmap string Meaning * W)
  : Run Meaning (gmap string Meaning * W) :=
  let cleanWord := cleanWord word in
  match st.1 !! cleanWord with
  | Some cached => mkRun (Fulfilled cached) [] st
  | None => callWithRetry Meaning _ (lookupOperation cleanWord) 4 st
  end.

End GetWordMeaning.

End WordMeaning.

(** ** The level read from a score *)

Module Evaluation.

(** [a > b] on numbers; [None] is [NaN], which compares false. *)
Definition gt (a : option Q) (b : Q) : bool :=
  match a with Some x => negb (Qle_bool x b) | None => false end.

Definition ge (a : option Q) (b : Q) : bool :=
  match a with Some x => Qle_bool b x | None => false end.

Definition perceivedLevel (score : option Q) : string :=
  if gt score 9 then "C2"
  else if gt score 8 then "C1"
  else if gt score 6 then "B2"
  else if gt score 4 then "B1"
  else if gt score 2 then "A2"
  else "A1".

(** The place of a level on the scale from A1 to C2. *)
Definition levelRank (l : string) : Z :=
  if String.eqb l "C2" then 6 else if String.eqb l "C1" then 5
  else if String.eqb l "B2" then 4 else if String.eqb l "B1" then 3
  else if String.eqb l "A2" then 2 else if String.eqb l "A1" then 1 else 0.

(** [getGradeInfo] of the certificate. *)
Record GradeInfo := mkGradeInfo {
  grade : string;
  color : string;
  stars : Z
}.

Definition getGradeInfo (score : option Q) : GradeInfo :=
  if ge score 9 then mkGradeInfo "Xuất sắc" "text-amber-500" 5
  else if ge score 8 then mkGradeInfo "Giỏi" "text-emerald-500" 4
  else if ge score 7 then mkGradeInfo "Khá" "text-blue-500" 3
  else if ge score 5 then mkGradeInfo "Trung bình" "text-orange-500" 2
  else mkGradeInfo "Cần cố gắng" "text-slate-500" 1.

End Evaluation.

(** ** Writing the lesson history *)

Module HistoryWrites.
Import HistoryService.

(** [EvaluationResult] of [types.ts]. *)
Record EvaluationResult := mkEvaluationResult {
  evScore : Q;
  evPronunciation : Q;
  evFluency : Q;
  evIntonation : Q;
  evVocabulary : Q;
  evGrammar : Q;
  evTaskFulfillment : Q;
  evPerceivedLevel : string;
  evMistakes : list (string * string);
  evFeedback : string;
  evTeacherPraise : string;
  evTranscript : string;
  evSuggestions : list string
}.

Section WithHost.
Variable host : Host.
(** The readings of the clock, which need not be the same: [now] is the
    [new Date()] of the read of the history, [idNow] the [Date.now()] of
    the identifier and [isoNow] the [new Date().toISOString()] of the
    date.  [randomSuffix] is the text of
    [Math.random().toString(36).substr(2, 9)]. *)
Variable now : Z.
Variable idNow : Z.
Variable isoNow : string.
Variable randomSuffix : string.

Definition newRecord (theme level childName : string)
    (evaluation : EvaluationResult) (duration : Q) : LessonRecord :=
  mkLessonRecord
    ("lesson_" +:+ DecimalString.NilZero.string_of_int (Z.to_int idNow)
       +:+ "_" +:+ randomSuffix)
    isoNow theme level childName
    (evScore evaluation) (evPronunciation evaluation) (evFluency evaluation)
    (evIntonation evaluation) (evVocabulary evaluation) (evGrammar evaluation)
    (evTaskFulfillment evaluation) (evPerceivedLevel evaluation) duration.

Definition saveLessonRecord (theme level childName : string)
    (evaluation : EvaluationResult) (duration : Q) (store : Storage)
  : LessonRecord * Storage :=
  let record := newRecord theme level childName evaluation duration in
  let '(history, store') := getLessonHistory host now store in
  (record, <[STORAGE_KEY := JSON_stringify host (history ++ [record])]> store').

Definition deleteLessonRecord (id : string) (store : Storage) : Storage :=
  let '(history, store') := getLessonHistory host now store in
  <[STORAGE_KEY
      := JSON_stringify host
           (List.filter (fun l => negb (String.eqb (HistoryService.id l) id)) history)]>
    store'.

End WithHost.

Definition clearHistory (store : Storage) : Storage := delete STORAGE_KEY store.

(** The host's [JSON] gives back the array it has written. *)
Definition readsBack (host : Host) (l : list LessonRecord) : Prop :=
  JSON_stringify host l <> ""
  /\ JSON_parse host (JSON_stringify host l) = Some (JsonRecords l).

(** The lessons of the days of a grouped view. *)
Definition lessonsOf (groups : list DayGroup) : list LessonRecord :=
  concat (map lessons groups).

(** The lesson is of the day with this key. *)
Definition onDay (key : string) (l : LessonRecord) : bool :=
  String.eqb (beforeT (date l)) key.

Definition skills : list (LessonRecord -> Q) :=
  [pronunciation; fluency; intonation; vocabulary; grammar; taskFulfillment].

Definition averagesOf (a : SkillAverages) : list Q :=
  [avgPronunciation a; avgFluency a; avgIntonation a; avgVocabulary a;
   avgGrammar a; avgTaskFulfillment a].

End HistoryWrites.

(** A host for the examples that also knows a lesson saved at the time of
    the examples. *)
Module HistoryExamples.
Import HistoryService HistoryWrites.

Definition evaluation : EvaluationResult :=
  mkEvaluationResult 8 9 7 8 8 7 9 "B1" [("aple", "apple")] "Good" "Well done"
                     "I like apples" ["Speak slowly"].

Definition isoNow : string := "2024-03-11T12:00:00.000Z".

Definition saved : LessonRecord :=
  newRecord (ExampleHost.now + 1) isoNow "k3x9q2m1z" "Animals" "A1" "Mai" evaluation 90.

Definition known : list LessonRecord := saved :: ExampleHost.known.

Definition findKnown (name : string) : option LessonRecord :=
  List.find (fun r => String.eqb (id r) name) known.

Definition parse (s : string) : option Json :=
  match s with
  | String "["%char body =>
      match rev (ExampleHost.splitOn ";"%char body "") with
      | "]" :: names =>
          option_map JsonRecords (ExampleHost.allSome (map findKnown (rev names)))
      | _ => None
      end
  | _ => None
  end.

Definition host : Host :=
  mkHost parse ExampleHost.stringify ExampleHost.getTime ExampleHost.dayKey.

End HistoryExamples.

(** ** Speech and pictures in the revised service *)

Module Part000Media.
Import ApiConfig.

Definition ttsModels : list string :=
  ["gemini-2.5-flash-preview-tts"; "gemini-2.5-pro-preview-tts"; "gemini-2.0-flash-live"].

Definition TTS_FALLBACK : string := "TTS_FALLBACK_TO_WEB_SPEECH".

Definition imageModels : list string :=
  ["gemini-2.0-flash-exp-image-generation"; "imagen-3.0-generate-001";
   "gemini-2.5-flash-preview-image"; "gemini-2.0-flash-image-generation"].

(** The static picture. *)
Definition FALLBACK_IMAGE_BASE64 : string :=
  "data:image/svg+xml;base64,PHN2ZyB4bWxucz0iaHR0cDovL3d3dy53My5vcmcvMjAwMC9zdmciIHdpZHRoPSI4MDAiIGhlaWdodD0iNDUwIj48ZGVmcz48bGluZWFyR3JhZGllbnQgaWQ9ImciIHgxPSIwJSIgeTE9IjAlIiB4Mj0iMTAwJSIgeTI9IjEwMCUiPjxzdG9wIG9mZnNldD0iMCUiIHN0b3AtY29sb3I9IiM2NjdlZWEiLz48c3RvcCBvZmZzZXQ9IjEwMCUiIHN0b3AtY29sb3I9IiM3NjRiYTIiLz48L2xpbmVhckdyYWRpZW50PjwvZGVmcz48cmVjdCB3aWR0aD0iODAwIiBoZWlnaHQ9IjQ1MCIgZmlsbD0idXJsKCNnKSIvPjx0ZXh0IHg9IjQwMCIgeT0iMjAwIiBmb250LWZhbWlseT0iQXJpYWwiIGZvbnQtc2l6ZT0iNTAiIGZpbGw9IndoaXRlIiB0ZXh0LWFuY2hvcj0ibWlkZGxlIj5MZXQncyBMZWFybiE8L3RleHQ+PHRleHQgeD0iNDAwIiB5PSIyNjAiIGZvbnQtZmFtaWx5PSJBcmlhbCIgZm9udC1zaXplPSIyNCIgZmlsbD0id2hpdGUiIHRleHQtYW5jaG9yPSJtaWRkbGUiPkltYWdpbmUgYSBiZWF1dGlmdWwgcGljdHVyZSBoZXJlPC90ZXh0Pjwvc3ZnPg==".

Definition voicePrompt (text : string) : string :=
  "Read slowly and clearly: " +:+ text.

Definition imagePrompt (theme : string) : string :=
  "A highly vibrant, artistic, and detailed 3D Disney/Pixar style illustration for children showing: "
  +:+ theme +:+ ". Soft lighting, friendly faces, bright colors. High quality.".

(** What one run did: the result and the models that were called, in
    order. *)
Record Tried (A W : Type) := mkTried {
  outcome : Settled A Thrown;
  called : list string;
  backend : W
}.
Arguments mkTried {A W} _ _ _.
Arguments outcome {A W} _.
Arguments called {A W} _.
Arguments backend {A W} _.

Definition andThen {A W} (model : string) (t : Tried A W) : Tried A W :=
  mkTried (outcome t) (model :: called t) (backend t).

(** The state of the backend after the turns of a loop for the models
    [models], [attempt] being what one turn does. *)
Definition backendAfter {A W} (attempt : string -> W -> option A * W)
    (models : list string) (w : W) : W :=
  fold_left (fun s model => (attempt model s).2) models w.

Section GenerateTeacherVoice.
Context {W : Type}.
(** [generateAudio apiKey model prompt] is the call of the backend for one
    model, giving the base64 text of the first part of the answer, if any. *)
Variable generateAudio : string -> string -> string -> W -> Settled (option string) Error * W.
(** [new AudioContext({ sampleRate: 24000 })]; [None] when the constructor
    raises. *)
Variable newAudioContext : W -> option AudioContext * W.

(** The body of the loop for one answer with audio: everything it raises is
    caught by the loop. *)
Definition decodeVoice (base64Audio : string) (w : W) : option AudioBuffer * W :=
  match newAudioContext w with
  | (None, w') => (None, w')
  | (Some ctx, w') =>
      match AudioCodec.decode base64Audio with
      | inl _ => (None, w')
      | inr bytes =>
          match AudioCodec.decodeAudioData bytes ctx 24000 1 with
          | inl _ => (None, w')
          | inr buffer => (Some buffer, w')
          end
      end
  end.

(** One turn of the loop, the body of its [try] for one model: the buffer
    that the turn returns, or [None] when the call raises, the answer has
    no audio or the decoding raises, and the loop goes on. *)
Definition voiceAttempt (apiKey text model : string) (w : W)
  : option AudioBuffer * W :=
  match generateAudio apiKey model (voicePrompt text) w with
  | (Rejected _, w') => (None, w')
  | (Fulfilled base64Audio, w') =>
      if truthy base64Audio
      then decodeVoice (orElse base64Audio "") w'
      else (None, w')
  end.

Fixpoint tryVoices (apiKey text : string) (models : list string) (w : W)
  : Tried AudioBuffer W :=
  match models with
  | [] => mkTried (Rejected (NewError TTS_FALLBACK)) [] w
  | model :: rest =>
      andThen model
        match voiceAttempt apiKey text model w with
        | (Some buffer, w') => mkTried (Fulfilled buffer) [] w'
        | (None, w') => tryVoices apiKey text rest w'
        end
  end.

Definition generateTeacherVoice (storage : gmap string string) (text : string) (w : W)
  : Tried AudioBuffer W :=
  match getApiKey storage with
  | EmptyString => mkTried (Rejected (NewError API_KEY_MISSING)) [] w
  | apiKey => tryVoices apiKey text ttsModels w
  end.

End GenerateTeacherVoice.

(** What the fallback download of a picture does. *)
Inductive Fetched :=
| FetchRaises                  (* fetch or blob() raises *)
| FetchNotOk                   (* the answer is not ok *)
| FetchRead (dataUrl : string) (* the reader ends with this data URL *)
| FetchReadError               (* the reader fails while reading *)
| ReaderRaises (err : Error).  (* making or starting the reader raises *)

Section GenerateIllustration.
Context {W : Type}.
(** [generateImage apiKey model prompt] is the call of the backend for one
    model, giving for each part of the answer the data of its picture, if
    it has one; an answer whose parts cannot be read counts as a call that
    raises, the loop catching both alike. *)
Variable generateImage : string -> string -> string -> W -> Settled (list (option string)) Error * W.
Variable fetchPlaceholder : W -> Fetched * W.

(** The first part with a picture. *)
Fixpoint firstPicture (parts : list (option string)) : option string :=
  match parts with
  | [] => None
  | Some data :: _ => Some ("data:image/png;base64," +:+ data)
  | None :: rest => firstPicture rest
  end.

Definition lastResort (w : W) : Tried string W :=
  match fetchPlaceholder w with
  | (FetchRead dataUrl, w') => mkTried (Fulfilled dataUrl) [] w'
  | (FetchReadError, w') => mkTried (Fulfilled FALLBACK_IMAGE_BASE64) [] w'
  | (ReaderRaises err, w') => mkTried (Rejected (Rethrown err)) [] w'
  | (FetchRaises, w') | (FetchNotOk, w') =>
      mkTried (Fulfilled FALLBACK_IMAGE_BASE64) [] w'
  end.

(** One turn of the loop, the body of its [try] for one model: the data
    URL that the turn returns, or [None] when the call raises or the
    answer has no picture, and the loop goes on. *)
Definition imageAttempt (apiKey theme model : string) (w : W) : option string * W :=
  match generateImage apiKey model (imagePrompt theme) w with
  | (Rejected _, w') => (None, w')
  | (Fulfilled parts, w') => (firstPicture parts, w')
  end.

Fixpoint tryImages (apiKey theme : string) (models : list string) (w : W)
  : Tried string W :=
  match models with
  | [] => lastResort w
  | model :: rest =>
      andThen model
        match imageAttempt apiKey theme model w with
        | (Some uri, w') => mkTried (Fulfilled uri) [] w'
        | (None, w') => tryImages apiKey theme rest w'
        end
  end.

Definition generateIllustration (storage : gmap string string) (theme : string) (w : W)
  : Tried string W :=
  match getApiKey storage with
  | EmptyString => mkTried (Rejected (NewError API_KEY_MISSING)) [] w
  | apiKey => tryImages apiKey theme imageModels w
  end.

End GenerateIllustration.

End Part000Media.

(** Backends for the examples: their state counts the calls.  The first
    speech model raises, the second answers without audio, and the third
    answers with four bytes of audio.  The first picture model raises, the
    second answers without a picture and the third with a picture in its
    second part; [noPicture] is a backend that never answers with a
    picture.  The download of the placeholder is refused. *)
Module MediaExamples.
Import Part000Media.

Definition generateAudio (apiKey model prompt : string) (calls : nat)
  : Settled (option string) Error * nat :=
  match calls with
  | O => (Rejected Examples.busyError, S calls)
  | S O => (Fulfilled None, S calls)
  | _ => (Fulfilled (Some "AIAAwA=="), S calls)
  end.

Definition newAudioContext (calls : nat) : option AudioContext * nat :=
  (Some webAudio, calls).

Definition generateImage (apiKey model prompt : string) (calls : nat)
  : Settled (list (option string)) Error * nat :=
  match calls with
  | O => (Rejected Examples.busyError, S calls)
  | S O => (Fulfilled [None], S calls)
  | _ => (Fulfilled [None; Some "iVBORw0KGgo="; Some "AAAA"], S calls)
  end.

Definition noPicture (apiKey model prompt : string) (calls : nat)
  : Settled (list (option string)) Error * nat :=
  match calls with
  | O => (Rejected Examples.busyError, S calls)
  | _ => (Fulfilled [None], S calls)
  end.

Definition fetchPlaceholder (calls : nat) : Fetched * nat := (FetchNotOk, calls).

End MediaExamples.

(** ** Durations on the screen *)

Module Format.

(** [n.toString()] for an integer [n]. *)
Definition toString (n : Z) : string :=
  DecimalString.NilZero.string_of_int (Z.to_int n).

(** [s.padStart(2, '0')]. *)
Definition padStart2 (s : string) : string :=
  match String.length s with
  | O => "00"
  | S O => "0" +:+ s
  | _ => s
  end.

(** [formatDuration] of the history service, on a whole number of seconds:
    [mins] is [Math.floor(seconds / 60)] and [secs] the remainder
    [seconds % 60], which has the sign of [seconds]. *)
Definition formatDuration (seconds : Z) : string :=
  let mins := seconds / 60 in
  let secs := Z.rem seconds 60 in
  toString mins +:+ ":" +:+ padStart2 (toString secs).

(** [formatTime] of the shell. *)
Definition formatTime (seconds : Z) : string :=
  let mins := seconds / 60 in
  let secs := Z.rem seconds 60 in
  toString mins +:+ ":" +:+ padStart2 (toString secs).

End Format.

(** ** The application shell *)

Module App.

Definition isDot (c : ascii) : bool := Ascii.eqb c "."%char.

(** [text.replace(/\.+/g, '.').replace(/\s+/g, ' ').trim()]. *)
Definition cleanPunctuation (text : string) : string :=
  trim (collapseRuns isSpace " "%char false (collapseRuns isDot "."%char false text)).

Definition SERVER_BUSY_TEXT : string :=
  "MÁY CHỦ BẬN: Ms Ly AI đang phục vụ quá nhiều bạn nhỏ. Bé chờ 30 giây rồi nhấn 'Thử lại' nhé!".

Definition GENERIC_TEXT : string := "Ôi, có lỗi nhỏ rồi! Thử lại lần nữa nhé con.".

(** The test of [handleError] for the busy message, on the message and the
    lower-cased serialisation of the caught error. *)
Definition looksBusy (msg errStr : string) : bool :=
  includes msg "429" || includes errStr "quota" || includes errStr "resource_exhausted".

(** The message that [handleError] puts on the screen; [None] when the
    serialisation of the error is not a string, which makes [handleError]
    itself raise. *)
Definition handleError (err : Error) : option string :=
  match json err with
  | None => None
  | Some s =>
      let errStr := toLowerCase s in
      let msg := orElse (message err) "" in
      Some (if looksBusy msg errStr then SERVER_BUSY_TEXT
            else orElse (Some msg) GENERIC_TEXT)
  end.

(** What [handleError] catches when [callWithRetry] raises: the error
    thrown again, or a new error with its message. *)
Definition caught (t : Thrown) : option Error :=
  match t with
  | Rethrown err => Some err
  | NewError msg => Some (ApiConfig.newError msg)
  | HostTypeError => None
  end.

(** Conversion of a number to an element of an [Int16Array]: the integer
    part, reduced modulo 2^16 to the range of the signed 16-bit integers. *)
Definition toInt16 (q : Q) : Z :=
  let m := Qtrunc q mod 65536 in
  if m <? 32768 then m else m - 65536.

(** [int16[i] = input[i] * 32768] in the handler of the microphone.  An
    infinite sample, which the conversion takes to 0 as it does [NaN], is
    not among the values of [F32]. *)
Definition quantise (x : F32) : Z :=
  match x with
  | Num q => toInt16 (q * 32768)
  | NaN => 0
  end.

(** The two bytes of an element of an [Int16Array], as
    [new Uint8Array(int16.buffer)] shows them. *)
Definition byteOfZ (z : Z) : byte :=
  match Byte.of_N (Z.to_N (z mod 256)) with
  | Some b => b
  | None => x00
  end.

Definition int16Bytes (v : Z) : list byte := [byteOfZ v; byteOfZ (v / 256)].

(** [encode(new Uint8Array(int16.buffer))] for the samples of one block. *)
Definition encodeBlock (input : list F32) : string :=
  AudioCodec.encode (ofBytes (concat (map (fun x => int16Bytes (quantise x)) input))).

End App.

(** A backend for the examples: its state counts the calls; the first call
    fails with a rate-limit error, the later ones answer with the word
    itself, which the parser takes as the meaning. *)
Module WordExamples.
Import ApiConfig WordMeaning.

Definition generateContent (apiKey cleanWord : string) (calls : nat)
  : Settled (option string) Error * nat :=
  if (calls <? 1)%nat then (Rejected Examples.quotaError, S calls)
  else (Fulfilled (Some cleanWord), S calls).

Definition parse (text : string) : Settled Meaning Error :=
  Fulfilled (mkMeaning text "" "").

Definition withKey : gmap string string := {[ API_KEY_ITEM := "AIza-example" ]}.

End WordExamples.

(** * Properties *)

(** ** The retry orchestrator *)

Section RetryFacts.
Context {T W : Type}.
Variable fn : W -> Settled T Error * W.
Variable maxRetries : Z.

Lemma attempts_emit (evs : list Event) (r : Run T W) :
  attempts (trace (emit evs r)) = (attempts evs + attempts (trace r))%nat.
Proof.
  unfold emit; simpl. induction evs as [|ev evs IH]; simpl; [reflexivity|].
  destruct (isAttempt ev); simpl; rewrite IH; reflexivity.
Qed.

Lemma waits_emit (evs : list Event) (r : Run T W) :
  waits (trace (emit evs r)) = waits evs ++ waits (trace r).
Proof.
  unfold emit; simpl. induction evs as [|[|d] evs IH]; simpl; [reflexivity|assumption|].
  rewrite IH; reflexivity.
Qed.

(** One iteration of the loop of [geminiService.ts] on a transient
    failure with attempts left. *)
Lemma retryLoop_retry fuel i delay w err w' :
  fn w = (Rejected err, w') ->
  GeminiService.classify err = Some TransientRateLimited ->
  i < maxRetries - 1 ->
  GeminiService.retryLoop fn maxRetries (S fuel) i delay w
  = emit [Attempt; Wait delay]
      (GeminiService.retryLoop fn maxRetries fuel (i + 1) (nextDelay delay) w').
Proof.
  intros Hfn Hc Hi. simpl. rewrite Hfn.
  unfold GeminiService.classify in Hc.
  destruct (json err) as [s|]; [|discriminate].
  destruct (GeminiService.isQuotaError err (toLowerCase s)); [|discriminate].
  apply Z.ltb_lt in Hi. rewrite Hi. reflexivity.
Qed.

(** The last allowed iteration, or a permanent failure: the error is
    thrown again. *)
Lemma retryLoop_rethrow fuel i delay w err w' c :
  fn w = (Rejected err, w') ->
  GeminiService.classify err = Some c ->
  c = Permanent \/ maxRetries - 1 <= i ->
  GeminiService.retryLoop fn maxRetries (S fuel) i delay w
  = mkRun (Rejected (Rethrown err)) [Attempt] w'.
Proof.
  intros Hfn Hc Hor. simpl. rewrite Hfn.
  unfold GeminiService.classify in Hc.
  destruct (json err) as [s|]; [|discriminate].
  destruct (GeminiService.isQuotaError err (toLowerCase s)); simpl.
  - destruct Hor as [->|Hi]; [discriminate|].
    apply Z.ltb_ge in Hi. rewrite Hi. reflexivity.
  - reflexivity.
Qed.

Lemma retryLoop_success fuel i delay w v w' :
  fn w = (Fulfilled v, w') ->
  GeminiService.retryLoop fn maxRetries (S fuel) i delay w
  = mkRun (Fulfilled v) [Attempt] w'.
Proof. intros Hfn. simpl. rewrite Hfn. reflexivity. Qed.

(** The same steps for the revised loop. *)
Lemma retryLoop2_retry fuel i delay last w err w' :
  fn w = (Rejected err, w') ->
  Part000.classify err = Some TransientRateLimited ->
  i < maxRetries - 1 ->
  Part000.retryLoop fn maxRetries (S fuel) i delay last w
  = emit [Attempt; Wait delay]
      (Part000.retryLoop fn maxRetries fuel (i + 1) (nextDelay delay) (Some err) w').
Proof.
  intros Hfn Hc Hi. simpl. rewrite Hfn.
  unfold Part000.classify in Hc.
  destruct (json err) as [s|]; [|discriminate].
  destruct (Part000.isQuotaError err (toLowerCase s)); [|discriminate].
  apply Z.ltb_lt in Hi. rewrite Hi. reflexivity.
Qed.

Lemma retryLoop2_last fuel i delay last w err w' :
  fn w = (Rejected err, w') ->
  Part000.classify err = Some TransientRateLimited ->
  maxRetries - 1 <= i ->
  Part000.retryLoop fn maxRetries (S fuel) i delay last w
  = emit [Attempt]
      (Part000.retryLoop fn maxRetries fuel (i + 1) delay (Some err) w').
Proof.
  intros Hfn Hc Hi. simpl. rewrite Hfn.
  unfold Part000.classify in Hc.
  destruct (json err) as [s|]; [|discriminate].
  destruct (Part000.isQuotaError err (toLowerCase s)); [|discriminate].
  apply Z.ltb_ge in Hi. rewrite Hi. reflexivity.
Qed.

Lemma retryLoop2_permanent fuel i delay last w err w' s :
  fn w = (Rejected err, w') ->
  json err = Some s ->
  Part000.classify err = Some Permanent ->
  Part000.retryLoop fn maxRetries (S fuel) i delay last w
  = mkRun (Rejected (NewError (orElse (message err) ("Lỗi API: " +:+ s))))
          [Attempt] w'.
Proof.
  intros Hfn Hs Hc. simpl. rewrite Hfn.
  unfold Part000.classify in Hc. rewrite Hs in *.
  destruct (Part000.isQuotaError err (toLowerCase s)); [discriminate|].
  reflexivity.
Qed.

Lemma retryLoop2_success fuel i delay last w v w' :
  fn w = (Fulfilled v, w') ->
  Part000.retryLoop fn maxRetries (S fuel) i delay last w
  = mkRun (Fulfilled v) [Attempt] w'.
Proof. intros Hfn. simpl. rewrite Hfn. reflexivity. Qed.

End RetryFacts.

(** Lower-casing does not create or destroy an occurrence of ["429"]. *)
Lemma eqb_lowerChar_digit (d c : ascii) :
  d = "4"%char \/ d = "2"%char \/ d = "9"%char ->
  Ascii.eqb d (lowerChar c) = Ascii.eqb d c.
Proof.
  intros [->|[->| ->]];
    destruct c as [[] [] [] [] [] [] [] []]; reflexivity.
Qed.

Lemma isPrefix_429_lower (s : string) :
  isPrefix "429" (toLowerCase s) = isPrefix "429" s.
Proof.
  destruct s as [|a [|b [|c s]]]; cbn [toLowerCase isPrefix];
    rewrite ?eqb_lowerChar_digit by tauto; reflexivity.
Qed.

Lemma includes_429_lower (s : string) :
  includes (toLowerCase s) "429" = includes s "429".
Proof.
  induction s as [|c s IH].
  - reflexivity.
  - change (toLowerCase (String c s)) with (String (lowerChar c) (toLowerCase s)).
    cbn [includes]. rewrite <- IH.
    change (String (lowerChar c) (toLowerCase s)) with (toLowerCase (String c s)).
    rewrite isPrefix_429_lower. reflexivity.
Qed.

(** Both copies of the orchestrator classify errors alike. *)
Lemma isQuotaError_agree (err : Error) (errorStr : string) :
  Part000.isQuotaError err errorStr = GeminiService.isQuotaError err errorStr.
Proof.
  unfold Part000.isQuotaError, GeminiService.isQuotaError.
  do 3 f_equal. f_equal.
  destruct (message err) as [[|c m]|]; [reflexivity| |reflexivity].
  exact (includes_429_lower (String c m)).
Qed.

Lemma classify_agree (err : Error) :
  Part000.classify err = GeminiService.classify err.
Proof.
  unfold Part000.classify, GeminiService.classify.
  destruct (json err); [|reflexivity]. rewrite isQuotaError_agree. reflexivity.
Qed.

Section Exhaustion.
Context {T W : Type}.
Variable fn : W -> Settled T Error * W.
Variable maxRetries : Z.
Hypothesis Hfails : failsTransiently fn.

(** In [geminiService.ts], the loop that still has [S fuel] iterations
    makes all of them and throws again the error of the last one. *)
Lemma retryLoop_exhaust fuel : forall i delay w,
  Z.of_nat (S fuel) = maxRetries - i ->
  let r := GeminiService.retryLoop fn maxRetries (S fuel) i delay w in
  attempts (trace r) = S fuel
  /\ length (waits (trace r)) = fuel
  /\ exists err, fn (stateAfter fn fuel w) = (Rejected err, world r)
                 /\ GeminiService.classify err = Some TransientRateLimited
                 /\ settled r = Rejected (Rethrown err).
Proof.
  induction fuel as [|fuel IH]; intros i delay w Hi;
    destruct (Hfails w) as (err & w' & Hfn & Hc).
  - cbv zeta.
    rewrite (retryLoop_rethrow fn maxRetries 0 i delay w err w' _ Hfn Hc)
      by (right; lia).
    cbn [trace settled world attempts waits isAttempt length stateAfter].
    split; [reflexivity|]. split; [reflexivity|]. exists err. auto.
  - cbv zeta.
    rewrite (retryLoop_retry fn maxRetries (S fuel) i delay w err w' Hfn Hc)
      by lia.
    rewrite attempts_emit, waits_emit.
    destruct (IH (i + 1) (nextDelay delay) w') as (Ha & Hw & e & Hlast & He & Hs); [lia|].
    cbv zeta in Ha, Hw, Hlast, Hs.
    cbn [stateAfter]. rewrite Hfn. cbn [snd].
    set (r := GeminiService.retryLoop fn maxRetries (S fuel) (i + 1) (nextDelay delay) w') in *.
    rewrite Ha. cbn [attempts waits isAttempt app length Nat.add emit world settled].
    rewrite Hw.
    split; [reflexivity|]. split; [reflexivity|].
    exists e. auto.
Qed.

(** In the revised loop, all iterations are made and the statements after
    the loop run on the error of the last one. *)
Lemma retryLoop2_exhaust fuel : forall i delay last w,
  Z.of_nat (S fuel) = maxRetries - i ->
  let r := Part000.retryLoop fn maxRetries (S fuel) i delay last w in
  attempts (trace r) = S fuel
  /\ length (waits (trace r)) = fuel
  /\ exists err, fn (stateAfter fn fuel w) = (Rejected err, world r)
                 /\ GeminiService.classify err = Some TransientRateLimited
                 /\ settled r = Rejected (Part000.exhausted (Some err)).
Proof.
  induction fuel as [|fuel IH]; intros i delay last w Hi;
    destruct (Hfails w) as (err & w' & Hfn & Hc);
    pose proof Hc as Hc2; rewrite <- classify_agree in Hc2.
  - cbv zeta.
    rewrite (retryLoop2_last fn maxRetries 0 i delay last w err w' Hfn Hc2)
      by lia.
    cbn [Part000.retryLoop emit trace settled world attempts waits isAttempt
         length app stateAfter].
    split; [reflexivity|]. split; [reflexivity|]. exists err. auto.
  - cbv zeta.
    rewrite (retryLoop2_retry fn maxRetries (S fuel) i delay last w err w' Hfn Hc2)
      by lia.
    rewrite attempts_emit, waits_emit.
    destruct (IH (i + 1) (nextDelay delay) (Some err) w')
      as (Ha & Hw & e & Hlast & He & Hs); [lia|].
    cbv zeta in Ha, Hw, Hlast, Hs.
    cbn [stateAfter]. rewrite Hfn. cbn [snd].
    set (r := Part000.retryLoop fn maxRetries (S fuel) (i + 1) (nextDelay delay) (Some err) w') in *.
    rewrite Ha. cbn [attempts waits isAttempt app length Nat.add emit world settled].
    rewrite Hw.
    split; [reflexivity|]. split; [reflexivity|].
    exists e. auto.
Qed.

End Exhaustion.

Lemma alwaysFails_transient (err : Error) :
  GeminiService.classify err = Some TransientRateLimited ->
  failsTransiently (Examples.alwaysFails err).
Proof. intros Hc calls. exists err, (S calls). split; [reflexivity|exact Hc]. Qed.

(** C1, as stated, fails.  In [geminiService.ts] an operation that always
    fails with a 429 error gets, after the four attempts, its own error
    thrown again, as a permanent failure would; in the revised copy a 429
    error whose message names neither the quota nor the code ends in a
    generic error.  Neither is the ServerBusy error. *)
Lemma C1_counterexample :
  settled (GeminiService.callWithRetry (Examples.alwaysFails Examples.quotaError) 4 0%nat)
  = Rejected (Rethrown Examples.quotaError)
  /\ settled (Part000.callWithRetry (Examples.alwaysFails Examples.busyError) 4 0%nat)
     = Rejected (NewError "Lỗi: Too Many Requests")
  /\ ~ exhaustionRaisesServerBusy (@GeminiService.callWithRetry)
         (NewError GeminiService.SERVER_BUSY)
  /\ ~ exhaustionRaisesServerBusy (@Part000.callWithRetry)
         (NewError Part000.SERVER_BUSY).
Proof.
  split; [reflexivity|]. split; [reflexivity|]. split.
  - intros H.
    destruct (H string nat (Examples.alwaysFails Examples.quotaError) 4 0%nat) as [Hs _].
    + apply alwaysFails_transient. reflexivity.
    + vm_compute in Hs. discriminate Hs.
  - intros H.
    destruct (H string nat (Examples.alwaysFails Examples.busyError) 4 0%nat) as [Hs _].
    + apply alwaysFails_transient. reflexivity.
    + vm_compute in Hs. discriminate Hs.
Qed.

(** C1, amended.  With a budget of at least one attempt, an operation that
    fails with a rate-limit error at every attempt is attempted exactly
    [maxRetries] times, with [maxRetries - 1] waits, and the call then
    raises, leaving the operation in the state of its last attempt.  What
    it raises comes from the error [err] of that last attempt, the call
    number [maxRetries] of the operation: in [geminiService.ts] it is [err]
    itself; in the revised copy it is the error built after the loop from
    [err], which is the ServerBusy error when the message of [err]
    contains [quota] or [429], and an error that quotes the message
    otherwise. *)
Theorem C1_exhaustion_after_maxRetries_attempts
    (T W : Type) (fn : W -> Settled T Error * W) (maxRetries : Z) (w : W) :
  1 <= maxRetries ->
  failsTransiently fn ->
  let r1 := GeminiService.callWithRetry fn maxRetries w in
  let r2 := Part000.callWithRetry fn maxRetries w in
  let lastAttempt := fn (stateAfter fn (Z.to_nat maxRetries - 1) w) in
  exists err,
    lastAttempt.1 = Rejected err
    /\ GeminiService.classify err = Some TransientRateLimited
    /\ (Z.of_nat (attempts (trace r1)) = maxRetries
        /\ Z.of_nat (length (waits (trace r1))) = maxRetries - 1
        /\ settled r1 = Rejected (Rethrown err)
        /\ world r1 = lastAttempt.2)
    /\ (Z.of_nat (attempts (trace r2)) = maxRetries
        /\ Z.of_nat (length (waits (trace r2))) = maxRetries - 1
        /\ settled r2 = Rejected (Part000.exhausted (Some err))
        /\ world r2 = lastAttempt.2
        /\ (forall m, message err = Some m ->
              includes m "quota" || includes m "429" = true ->
              settled r2 = Rejected (NewError Part000.SERVER_BUSY))
        /\ (includes (orElse (message err) "Unknown error") "quota"
            || includes (orElse (message err) "Unknown error") "429" = false ->
            settled r2
            = Rejected (NewError ("Lỗi: " +:+ orElse (message err) "Unknown error")))).
Proof.
  intros Hmax Hfails r1 r2 lastAttempt. subst r1 r2 lastAttempt.
  unfold GeminiService.callWithRetry, Part000.callWithRetry.
  destruct (Z.to_nat maxRetries) as [|fuel] eqn:Hfuel; [lia|].
  replace (S fuel - 1)%nat with fuel by lia.
  destruct (retryLoop_exhaust fn maxRetries Hfails fuel 0 INITIAL_DELAY w)
    as (Ha & Hw & err & Hlast & Hc & Hs); [lia|].
  destruct (retryLoop2_exhaust fn maxRetries Hfails fuel 0 INITIAL_DELAY None w)
    as (Ha2 & Hw2 & err2 & Hlast2 & _ & Hs2); [lia|].
  cbv zeta in Ha, Hw, Hlast, Hs, Ha2, Hw2, Hlast2, Hs2.
  assert (err2 = err) as -> by congruence.
  exists err. rewrite Hlast at 1. cbn [fst].
  split; [reflexivity|]. split; [exact Hc|]. split.
  - rewrite Ha, Hw, Hlast. cbn [snd]. repeat split; [lia|lia|exact Hs].
  - rewrite Ha2, Hw2, Hlast2. cbn [snd].
    split; [lia|]. split; [lia|]. split; [exact Hs2|]. split; [reflexivity|].
    split.
    + intros m Hm Hinc. rewrite Hs2. f_equal.
      unfold Part000.exhausted. rewrite Hm.
      destruct m as [|c m]; [discriminate Hinc|].
      cbn [orElse]. rewrite Hinc. reflexivity.
    + intros Hinc. rewrite Hs2. f_equal.
      unfold Part000.exhausted. rewrite Hinc. reflexivity.
Qed.

Lemma C1_exhaustion_witness :
  let fn := Examples.alwaysFails Examples.quotaError in
  let r1 := GeminiService.callWithRetry fn 4 0%nat in
  let r2 := Part000.callWithRetry fn 4 0%nat in
  (fn (stateAfter fn 3 0%nat)).1 = Rejected Examples.quotaError
  /\ settled r1 = Rejected (Rethrown Examples.quotaError)
  /\ settled r2 = Rejected (NewError Part000.SERVER_BUSY)
  /\ exists err,
       (fn (stateAfter fn (Z.to_nat 4 - 1) 0%nat)).1 = Rejected err
       /\ GeminiService.classify err = Some TransientRateLimited
       /\ (Z.of_nat (attempts (trace r1)) = 4
           /\ Z.of_nat (length (waits (trace r1))) = 4 - 1
           /\ settled r1 = Rejected (Rethrown err)
           /\ world r1 = (fn (stateAfter fn (Z.to_nat 4 - 1) 0%nat)).2)
       /\ (Z.of_nat (attempts (trace r2)) = 4
           /\ Z.of_nat (length (waits (trace r2))) = 4 - 1
           /\ settled r2 = Rejected (Part000.exhausted (Some err))
           /\ world r2 = (fn (stateAfter fn (Z.to_nat 4 - 1) 0%nat)).2
           /\ (forall m, message err = Some m ->
                 includes m "quota" || includes m "429" = true ->
                 settled r2 = Rejected (NewError Part000.SERVER_BUSY))
           /\ (includes (orElse (message err) "Unknown error") "quota"
               || includes (orElse (message err) "Unknown error") "429" = false ->
               settled r2
               = Rejected (NewError ("Lỗi: " +:+ orElse (message err) "Unknown error")))).
Proof.
  intros fn r1 r2. split; [reflexivity|]. split; [reflexivity|]. split; [reflexivity|].
  apply (C1_exhaustion_after_maxRetries_attempts string nat
           (Examples.alwaysFails Examples.quotaError) 4 0%nat).
  - lia.
  - apply alwaysFails_transient. reflexivity.
Defined.

(** In the revised copy, a rate-limit error whose message names the code
    does end in the ServerBusy error. *)
Example exhaustion_with_429_message :
  settled (Part000.callWithRetry (Examples.alwaysFails Examples.quotaError) 4 0%nat)
  = Rejected (NewError Part000.SERVER_BUSY).
Proof. reflexivity. Qed.

(** C5.  An operation that fails with rate-limit errors at its first three
    attempts and succeeds at the fourth: with [maxRetries = 4] the call
    returns that result, after waiting 1500, 3750 and 9375 between the
    attempts; each delay is 2.5 times the one before. *)
Theorem C5_success_on_fourth_attempt
    (T W : Type) (fn : W -> Settled T Error * W)
    (w0 w1 w2 w3 w4 : W) (e1 e2 e3 : Error) (v : T) :
  fn w0 = (Rejected e1, w1) -> GeminiService.classify e1 = Some TransientRateLimited ->
  fn w1 = (Rejected e2, w2) -> GeminiService.classify e2 = Some TransientRateLimited ->
  fn w2 = (Rejected e3, w3) -> GeminiService.classify e3 = Some TransientRateLimited ->
  fn w3 = (Fulfilled v, w4) ->
  GeminiService.callWithRetry fn 4 w0
  = mkRun (Fulfilled v)
          [Attempt; Wait 1500; Attempt; Wait 3750; Attempt; Wait 9375; Attempt] w4
  /\ Part000.callWithRetry fn 4 w0
     = mkRun (Fulfilled v)
             [Attempt; Wait 1500; Attempt; Wait 3750; Attempt; Wait 9375; Attempt] w4
  /\ (forall delay, nextDelay delay == delay * (5 # 2))%Q.
Proof.
  intros H0 C0 H1 C1 H2 C2 H3. split; [|split].
  - unfold GeminiService.callWithRetry. change (Z.to_nat 4) with 4%nat.
    rewrite (retryLoop_retry fn 4 _ _ _ _ _ _ H0 C0) by lia.
    rewrite (retryLoop_retry fn 4 _ _ _ _ _ _ H1 C1) by lia.
    rewrite (retryLoop_retry fn 4 _ _ _ _ _ _ H2 C2) by lia.
    rewrite (retryLoop_success fn 4 _ _ _ _ _ _ H3). reflexivity.
  - rewrite <- classify_agree in C0, C1, C2.
    unfold Part000.callWithRetry. change (Z.to_nat 4) with 4%nat.
    rewrite (retryLoop2_retry fn 4 _ _ _ _ _ _ _ H0 C0) by lia.
    rewrite (retryLoop2_retry fn 4 _ _ _ _ _ _ _ H1 C1) by lia.
    rewrite (retryLoop2_retry fn 4 _ _ _ _ _ _ _ H2 C2) by lia.
    rewrite (retryLoop2_success fn 4 _ _ _ _ _ _ _ H3). reflexivity.
  - intros delay. unfold nextDelay. apply Qred_correct.
Qed.

Lemma C5_success_witness :
  GeminiService.callWithRetry (Examples.failsThrice Examples.quotaError) 4 0%nat
  = mkRun (Fulfilled "ok")
          [Attempt; Wait 1500; Attempt; Wait 3750; Attempt; Wait 9375; Attempt] 4%nat
  /\ Part000.callWithRetry (Examples.failsThrice Examples.quotaError) 4 0%nat
     = mkRun (Fulfilled "ok")
             [Attempt; Wait 1500; Attempt; Wait 3750; Attempt; Wait 9375; Attempt] 4%nat
  /\ (forall delay, nextDelay delay == delay * (5 # 2))%Q.
Proof.
  apply (C5_success_on_fourth_attempt string nat
           (Examples.failsThrice Examples.quotaError)
           0%nat 1%nat 2%nat 3%nat 4%nat
           Examples.quotaError Examples.quotaError Examples.quotaError "ok");
    reflexivity.
Defined.

(** C6.  When the first attempt fails with an error classified permanent,
    the call raises at once: the operation has been called once, nothing
    has been waited for, and the error raised has the message of the
    failure ([geminiService.ts] throws the caught error itself; the revised
    copy builds an error from its message, or from its serialisation when
    it has none). *)
Theorem C6_permanent_error_raises_immediately
    (T W : Type) (fn : W -> Settled T Error * W) (maxRetries : Z)
    (w w' : W) (err : Error) :
  1 <= maxRetries ->
  fn w = (Rejected err, w') ->
  GeminiService.classify err = Some Permanent ->
  let r1 := GeminiService.callWithRetry fn maxRetries w in
  let r2 := Part000.callWithRetry fn maxRetries w in
  (trace r1 = [Attempt] /\ world r1 = w' /\ settled r1 = Rejected (Rethrown err))
  /\ (trace r2 = [Attempt] /\ world r2 = w'
      /\ exists s, json err = Some s
           /\ settled r2
              = Rejected (NewError (orElse (message err) ("Lỗi API: " +:+ s))))
  /\ (forall m, message err = Some m -> m <> "" ->
        exists t1 t2, settled r1 = Rejected t1 /\ settled r2 = Rejected t2
          /\ thrownMessage t1 = Some m /\ thrownMessage t2 = Some m).
Proof.
  intros Hmax Hfn Hc r1 r2. subst r1 r2.
  unfold GeminiService.callWithRetry, Part000.callWithRetry.
  destruct (Z.to_nat maxRetries) as [|fuel] eqn:Hfuel; [lia|].
  rewrite (retryLoop_rethrow fn maxRetries fuel 0 INITIAL_DELAY w err w' _ Hfn Hc)
    by (left; reflexivity).
  pose proof Hc as Hc2. rewrite <- classify_agree in Hc2.
  destruct (json err) as [s|] eqn:Hs;
    [|unfold GeminiService.classify in Hc; rewrite Hs in Hc; discriminate Hc].
  rewrite (retryLoop2_permanent fn maxRetries fuel 0 INITIAL_DELAY None w err w' s Hfn Hs Hc2).
  cbn [trace world settled]. repeat split.
  - exists s. split; reflexivity.
  - intros m Hm Hne. eexists _, _. split; [reflexivity|]. split; [reflexivity|].
    cbn [thrownMessage]. rewrite Hm. split; [reflexivity|].
    destruct m as [|c m]; [congruence|reflexivity].
Qed.

Lemma C6_permanent_error_witness :
  let r1 := GeminiService.callWithRetry (Examples.alwaysFails Examples.badRequest) 4 0%nat in
  let r2 := Part000.callWithRetry (Examples.alwaysFails Examples.badRequest) 4 0%nat in
  (trace r1 = [Attempt] /\ world r1 = 1%nat
   /\ settled r1 = Rejected (Rethrown Examples.badRequest))
  /\ (trace r2 = [Attempt] /\ world r2 = 1%nat
      /\ exists s, json Examples.badRequest = Some s
           /\ settled r2
              = Rejected (NewError (orElse (message Examples.badRequest)
                                           ("Lỗi API: " +:+ s))))
  /\ (forall m, message Examples.badRequest = Some m -> m <> "" ->
        exists t1 t2, settled r1 = Rejected t1 /\ settled r2 = Rejected t2
          /\ thrownMessage t1 = Some m /\ thrownMessage t2 = Some m).
Proof.
  apply (C6_permanent_error_raises_immediately string nat
           (Examples.alwaysFails Examples.badRequest) 4 0%nat 1%nat
           Examples.badRequest).
  - lia.
  - reflexivity.
  - reflexivity.
Defined.

(** C7, as stated, fails: with [maxRetries = 0] the loop test fails at
    once and the operation is not attempted at all. *)
Lemma C7_counterexample :
  GeminiService.callWithRetry (Examples.alwaysFails Examples.quotaError) 0 0%nat
  = mkRun (Rejected (NewError GeminiService.SERVER_BUSY)) [] 0%nat
  /\ ~ smallBudgetAttemptsOnce (@GeminiService.callWithRetry).
Proof.
  split; [reflexivity|].
  intros H.
  destruct (H string nat (Examples.alwaysFails Examples.quotaError) 0 0%nat) as [Ha _].
  - lia.
  - vm_compute in Ha. discriminate Ha.
Qed.

(** C7, amended.  With [maxRetries <= 1] no wait is ever inserted.  With
    [maxRetries = 1] the operation is attempted exactly once and a failure
    goes straight to the terminal error.  With [maxRetries <= 0] the
    operation is not attempted and the call raises the error that follows
    the loop, leaving the state of the operation untouched. *)
Theorem C7_budget_of_at_most_one
    (T W : Type) (fn : W -> Settled T Error * W) (maxRetries : Z) (w : W) :
  maxRetries <= 1 ->
  let r1 := GeminiService.callWithRetry fn maxRetries w in
  let r2 := Part000.callWithRetry fn maxRetries w in
  (waits (trace r1) = [] /\ waits (trace r2) = [])
  /\ (maxRetries = 1 ->
        trace r1 = [Attempt] /\ trace r2 = [Attempt]
        /\ forall err w', fn w = (Rejected err, w') ->
             exists t1 t2, settled r1 = Rejected t1 /\ settled r2 = Rejected t2)
  /\ (maxRetries <= 0 ->
        r1 = mkRun (Rejected (NewError GeminiService.SERVER_BUSY)) [] w
        /\ r2 = mkRun (Rejected (NewError "Lỗi: Unknown error")) [] w).
Proof.
  intros Hmax r1 r2. subst r1 r2.
  unfold GeminiService.callWithRetry, Part000.callWithRetry.
  destruct (Z.eq_dec maxRetries 1) as [->|Hne].
  - change (Z.to_nat 1) with 1%nat. cbn [GeminiService.retryLoop Part000.retryLoop].
    destruct (fn w) as [[v|err] w1]; [|destruct (json err) as [s|]].
    + cbn. repeat split; try lia. intros err w' Heq. discriminate Heq.
    + change (0 <? 1 - 1) with false. rewrite !andb_false_r.
      destruct (Part000.isQuotaError err (toLowerCase s)); cbn;
        (repeat split; try lia); intros; eexists _, _; split; reflexivity.
    + cbn. repeat split; try lia. intros; eexists _, _; split; reflexivity.
  - assert (Z.to_nat maxRetries = 0%nat) as -> by lia.
    cbn. repeat split; lia.
Qed.

Lemma C7_budget_witness :
  let r1 := GeminiService.callWithRetry (Examples.alwaysFails Examples.quotaError) 1 0%nat in
  let r2 := Part000.callWithRetry (Examples.alwaysFails Examples.quotaError) 1 0%nat in
  (waits (trace r1) = [] /\ waits (trace r2) = [])
  /\ (1 = 1 ->
        trace r1 = [Attempt] /\ trace r2 = [Attempt]
        /\ forall err w', Examples.alwaysFails Examples.quotaError 0%nat = (Rejected err, w') ->
             exists t1 t2, settled r1 = Rejected t1 /\ settled r2 = Rejected t2)
  /\ (1 <= 0 ->
        r1 = mkRun (Rejected (NewError GeminiService.SERVER_BUSY)) [] 0%nat
        /\ r2 = mkRun (Rejected (NewError "Lỗi: Unknown error")) [] 0%nat).
Proof.
  apply (C7_budget_of_at_most_one string nat
           (Examples.alwaysFails Examples.quotaError) 1 0%nat).
  lia.
Defined.

(** ** The audio codec bridge: base64 *)

(** Goals about quotients and remainders by constants. *)
Ltac divmod := zify; Z.to_euclidean_division_equations; lia.

(** Induction on a list by groups of three elements. *)
Lemma list_ind3 {A} (P : list A -> Prop) :
  P [] -> (forall a, P [a]) -> (forall a b, P [a; b]) ->
  (forall a b c l, P l -> P (a :: b :: c :: l)) ->
  forall l, P l.
Proof.
  intros H0 H1 H2 H3 l.
  assert (P l /\ (forall a, P (a :: l)) /\ (forall a b, P (a :: b :: l))) as [H _].
  { induction l as [|x l (IH0 & IH1 & IH2)]; [auto|].
    split; [apply IH1|]. split; [intros; apply IH2|]. intros a b. apply H3, IH0. }
  exact H.
Qed.

Module Base64Facts.
Import Base64.

Lemma sextet_table : forallb sextetOk (map N.of_nat (seq 0 64)) = true.
Proof. vm_compute. reflexivity. Qed.

Lemma sextetOk_lt (n : N) : (n < 64)%N -> sextetOk n = true.
Proof.
  intros Hn. pose proof sextet_table as Ht.
  rewrite forallb_forall in Ht. apply Ht.
  rewrite <- (N2Nat.id n). apply in_map, in_seq. lia.
Qed.

Lemma charSextet_sextetChar (n : N) :
  (n < 64)%N -> charSextet (sextetChar n) = Some n.
Proof.
  intros Hn. pose proof (sextetOk_lt n Hn) as H. unfold sextetOk in H.
  apply andb_true_iff in H as [H _]. apply andb_true_iff in H as [H _].
  destruct (charSextet (sextetChar n)) as [m|]; [|discriminate].
  apply N.eqb_eq in H. congruence.
Qed.

Lemma sextetChar_not_pad (n : N) :
  (n < 64)%N -> Ascii.eqb (sextetChar n) pad = false.
Proof.
  intros Hn. pose proof (sextetOk_lt n Hn) as H. unfold sextetOk in H.
  apply andb_true_iff in H as [H _]. apply andb_true_iff in H as [_ H].
  apply negb_true_iff in H. exact H.
Qed.

Lemma sextetChar_not_space (n : N) :
  (n < 64)%N -> isAsciiWhitespace (sextetChar n) = false.
Proof.
  intros Hn. pose proof (sextetOk_lt n Hn) as H. unfold sextetOk in H.
  apply andb_true_iff in H as [_ H]. apply negb_true_iff in H. exact H.
Qed.

Lemma toSextets_isSextet (l : list N) :
  Forall isByte l -> Forall isSextet (toSextets l).
Proof.
  unfold isByte, isSextet.
  induction l as [|a|a b|a b c l IH] using list_ind3; intros H; cbn [toSextets].
  - constructor.
  - inversion_clear H. repeat constructor; divmod.
  - inversion_clear H as [|? ? Ha H']. inversion_clear H'.
    repeat constructor; divmod.
  - inversion_clear H as [|? ? Ha H']. inversion_clear H' as [|? ? Hb H''].
    inversion_clear H'' as [|? ? Hc Hl].
    repeat (constructor; [divmod|]). apply IH, Hl.
Qed.

Lemma fromSextets_toSextets (l : list N) :
  Forall isByte l -> fromSextets (toSextets l) = l.
Proof.
  unfold isByte.
  induction l as [|a|a b|a b c l IH] using list_ind3; intros H;
    cbn [toSextets fromSextets].
  - reflexivity.
  - inversion_clear H. f_equal. divmod.
  - inversion_clear H as [|? ? Ha H']. inversion_clear H'.
    f_equal; [divmod|]. f_equal. divmod.
  - inversion_clear H as [|? ? Ha H']. inversion_clear H' as [|? ? Hb H''].
    inversion_clear H'' as [|? ? Hc Hl].
    rewrite (IH Hl). f_equal; [divmod|]. f_equal; [divmod|]. f_equal. divmod.
Qed.

Lemma sextets_sextetChar (ns : list N) :
  Forall isSextet ns -> sextets (map sextetChar ns) = Some ns.
Proof.
  induction 1 as [|n ns Hn _ IH]; cbn [map sextets]; [reflexivity|].
  rewrite (charSextet_sextetChar n Hn), IH. reflexivity.
Qed.

Lemma padding_S3 (n : nat) : padding (S (S (S n))) = padding n.
Proof.
  unfold padding. replace (S (S (S n)) mod 3)%nat with (n mod 3)%nat by divmod.
  reflexivity.
Qed.

(** How many sextets and how much padding a sequence of bytes gets. *)
Lemma toSextets_shape (l : list N) :
  (length (toSextets l) mod 4 = 0 /\ padding (length l) = [])%nat
  \/ (length (toSextets l) mod 4 = 2 /\ padding (length l) = [pad; pad])%nat
  \/ (length (toSextets l) mod 4 = 3 /\ padding (length l) = [pad])%nat.
Proof.
  induction l as [|a|a b|a b c l IH] using list_ind3.
  - left. split; reflexivity.
  - right; left. split; reflexivity.
  - right; right. split; reflexivity.
  - cbn [toSextets length]. rewrite padding_S3.
    destruct IH as [[H1 H2]|[[H1 H2]|[H1 H2]]]; rewrite H2;
      [left|right; left|right; right]; (split; [divmod|reflexivity]).
Qed.

Lemma last_not_pad (ns : list N) (c : ascii) (r : list ascii) :
  Forall isSextet ns ->
  rev (map sextetChar ns) = c :: r ->
  Ascii.eqb c pad = false.
Proof.
  intros Hns Hrev.
  assert (In c (map sextetChar ns)) as Hin.
  { apply in_rev. rewrite Hrev. left. reflexivity. }
  apply in_map_iff in Hin as (n & <- & Hn).
  apply sextetChar_not_pad. rewrite Forall_forall in Hns. apply Hns.
  apply list_elem_of_In. exact Hn.
Qed.

Lemma stripPadding_encoded (ns : list N) (pd : list ascii) :
  Forall isSextet ns ->
  (length ns mod 4 = 0 /\ pd = [])%nat
  \/ (length ns mod 4 = 2 /\ pd = [pad; pad])%nat
  \/ (length ns mod 4 = 3 /\ pd = [pad])%nat ->
  stripPadding (map sextetChar ns ++ pd) = map sextetChar ns.
Proof.
  intros Hns Hshape. unfold stripPadding.
  rewrite length_app, length_map.
  destruct Hshape as [[Hl ->]|[[Hl ->]|[Hl ->]]]; cbn [length].
  - replace ((length ns + 0) mod 4 =? 0)%nat with true
      by (symmetry; apply Nat.eqb_eq; divmod).
    rewrite app_nil_r.
    destruct (rev (map sextetChar ns)) as [|p1 [|p2 r]] eqn:Hrev; try reflexivity.
    rewrite (last_not_pad ns p1 _ Hns Hrev). reflexivity.
  - replace ((length ns + 2) mod 4 =? 0)%nat with true
      by (symmetry; apply Nat.eqb_eq; divmod).
    rewrite rev_app_distr. cbn [rev app]. change (Ascii.eqb pad pad) with true.
    cbv iota. apply rev_involutive.
  - replace ((length ns + 1) mod 4 =? 0)%nat with true
      by (symmetry; apply Nat.eqb_eq; divmod).
    rewrite rev_app_distr. cbn [rev app].
    destruct (rev (map sextetChar ns)) as [|p2 r] eqn:Hrev.
    + apply (f_equal (@length ascii)) in Hrev.
      rewrite length_rev, length_map in Hrev. cbn [length] in Hrev.
      rewrite Hrev in Hl. discriminate Hl.
    + change (Ascii.eqb pad pad) with true. cbv iota.
      rewrite (last_not_pad ns p2 _ Hns Hrev).
      rewrite <- (rev_involutive (map sextetChar ns)), Hrev. reflexivity.
Qed.

Lemma filter_encoded (ns : list N) (pd : list ascii) :
  Forall isSextet ns ->
  Forall (fun c => isAsciiWhitespace c = false) pd ->
  List.filter (fun c => negb (isAsciiWhitespace c)) (map sextetChar ns ++ pd)
  = map sextetChar ns ++ pd.
Proof.
  intros Hns Hpd.
  induction Hns as [|n ns Hn _ IH]; cbn [map app List.filter].
  - induction Hpd as [|c pd Hc _ IH]; cbn [List.filter]; [reflexivity|].
    rewrite Hc. cbn [negb]. rewrite IH. reflexivity.
  - rewrite (sextetChar_not_space n Hn). cbn [negb]. rewrite IH. reflexivity.
Qed.

Lemma codes_isByte (l : list ascii) : Forall isByte (map N_of_ascii l).
Proof.
  induction l as [|c l IH]; cbn [map]; constructor; [|exact IH].
  apply N_ascii_bounded.
Qed.

Lemma codes_back (l : list ascii) : map ascii_of_N (map N_of_ascii l) = l.
Proof.
  induction l as [|c l IH]; cbn [map]; [reflexivity|].
  rewrite ascii_N_embedding, IH. reflexivity.
Qed.

(** The browser's decoder undoes the browser's encoder. *)
Lemma atob_btoa (s : string) : atob (btoa s) = Some s.
Proof.
  unfold atob, btoa. rewrite list_ascii_of_string_of_list_ascii.
  set (codes := map N_of_ascii (list_ascii_of_string s)).
  pose proof (codes_isByte (list_ascii_of_string s)) as Hb. fold codes in Hb.
  pose proof (toSextets_isSextet codes Hb) as Hs.
  pose proof (toSextets_shape codes) as Hshape.
  rewrite filter_encoded; [|exact Hs|].
  2:{ destruct Hshape as [[_ ->]|[[_ ->]|[_ ->]]]; repeat constructor. }
  rewrite (stripPadding_encoded _ _ Hs Hshape).
  rewrite length_map.
  replace (length (toSextets codes) mod 4 =? 1)%nat with false.
  2:{ symmetry. apply Nat.eqb_neq.
      destruct Hshape as [[H _]|[[H _]|[H _]]]; rewrite H; discriminate. }
  rewrite (sextets_sextetChar _ Hs), (fromSextets_toSextets _ Hb).
  unfold codes. rewrite codes_back, string_of_list_ascii_of_string. reflexivity.
Qed.

Example btoa_examples :
  btoa "Man" = "TWFu" /\ btoa "Ma" = "TWE=" /\ btoa "M" = "TQ==" /\ btoa "" = "".
Proof. repeat split. Qed.

(** The decoder skips white space and accepts missing padding, and rejects
    what is not base64. *)
Example atob_examples :
  atob "TWFu" = Some "Man" /\ atob " TQ = =" = Some "M" /\ atob "TQ" = Some "M"
  /\ atob "TQ=" = None /\ atob "T" = None /\ atob "A*==" = None.
Proof. repeat split. Qed.

End Base64Facts.

(** ** The audio codec bridge: [encode] and [decode] *)

Lemma string_get_lookup (s : string) (i : nat) :
  String.get i s = list_ascii_of_string s !! i.
Proof.
  revert i. induction s as [|c s IH]; intros [|i]; cbn; auto.
Qed.

Lemma string_length_list (s : string) :
  String.length s = length (list_ascii_of_string s).
Proof. induction s as [|c s IH]; cbn; [reflexivity|]. rewrite IH. reflexivity. Qed.

Lemma string_of_list_ascii_app (l1 l2 : list ascii) :
  string_of_list_ascii (l1 ++ l2)
  = string_of_list_ascii l1 +:+ string_of_list_ascii l2.
Proof. induction l1 as [|c l1 IH]; cbn; [reflexivity|]. rewrite IH. reflexivity. Qed.

(** The loop of [encode] appends one character per index. *)
Lemma encode_loop (f : nat -> ascii) (n : nat) :
  fold_left (fun binary i => binary +:+ String (f i) "") (seq 0 n) ""
  = string_of_list_ascii (map f (seq 0 n)).
Proof.
  induction n as [|n IH]; [reflexivity|].
  rewrite seq_S, fold_left_app, map_app, string_of_list_ascii_app, IH.
  reflexivity.
Qed.

(** Reading a well-formed view index by index gives its elements. *)
Lemma view_elements (a : Uint8Array) :
  wellFormed a ->
  map (fun i => fromCharCode (getByte a i)) (seq 0 (byteLength a))
  = map ascii_of_byte (elements a).
Proof.
  unfold wellFormed, elements, getByte. intros Hwf.
  apply list_eq. intros i.
  change (map ?f ?l) with (f <$> l). rewrite !list_lookup_fmap.
  destruct (decide (i < byteLength a)%nat) as [Hi|Hi].
  - rewrite lookup_seq_lt by exact Hi.
    rewrite lookup_take_lt by exact Hi. rewrite lookup_drop.
    cbn [fmap option_fmap option_map Nat.add].
    apply Nat.ltb_lt in Hi as Hb. rewrite Hb.
    destruct (lookup_lt_is_Some_2 (buffer a) (byteOffset a + i)) as [b Hb'];
      [lia|]. rewrite Hb'. reflexivity.
  - rewrite lookup_seq_ge by lia. rewrite lookup_take_ge by lia. reflexivity.
Qed.

(** The loop of [decode], after [k] iterations. *)
Lemma decode_loop (s : string) (k : nat) :
  (k <= String.length s)%nat ->
  fold_left (fun bytes i => setByte bytes i (AudioCodec.charCodeAt s i))
            (seq 0 k) (newUint8Array (String.length s))
  = mkUint8Array
      (take k (map byte_of_ascii (list_ascii_of_string s))
         ++ replicate (String.length s - k) x00)
      0 (String.length s).
Proof.
  set (target := map byte_of_ascii (list_ascii_of_string s)).
  assert (length target = String.length s) as Hlen.
  { unfold target. rewrite length_map, string_length_list. reflexivity. }
  induction k as [|k IH]; intros Hk.
  - cbn [seq fold_left take app]. rewrite Nat.sub_0_r. reflexivity.
  - rewrite seq_S, fold_left_app, IH by lia. cbn [fold_left Nat.add].
    unfold setByte. cbn [byteLength byteOffset buffer Nat.add].
    apply Nat.ltb_lt in Hk as Hb. rewrite Hb. f_equal.
    assert (target !! k = Some (AudioCodec.charCodeAt s k)) as Hget.
    { unfold target, AudioCodec.charCodeAt.
      change (map ?f ?l) with (f <$> l). rewrite list_lookup_fmap, string_get_lookup.
      destruct (lookup_lt_is_Some_2 (list_ascii_of_string s) k) as [c Hc];
        [rewrite <- string_length_list; lia|].
      rewrite Hc. reflexivity. }
    rewrite (take_S_r _ _ _ Hget), <- app_assoc.
    rewrite insert_app_r_alt by (rewrite length_take; lia).
    rewrite length_take, Nat.min_l, Nat.sub_diag by lia.
    replace (String.length s - k)%nat with (S (String.length s - S k)) by lia.
    reflexivity.
Qed.

(** What [decode] computes from the string given by [atob]. *)
Lemma decode_atob (base64 binaryString : string) :
  Base64.atob base64 = Some binaryString ->
  AudioCodec.decode base64
  = Ok (ofBytes (map byte_of_ascii (list_ascii_of_string binaryString))).
Proof.
  intros Ha. unfold AudioCodec.decode. rewrite Ha.
  rewrite decode_loop by lia. unfold ofBytes, Ok. do 2 f_equal.
  - rewrite Nat.sub_diag. cbn [replicate]. rewrite app_nil_r.
    apply take_ge. rewrite length_map, string_length_list. lia.
  - rewrite length_map, string_length_list. reflexivity.
Qed.

(** What [encode] computes: the base64 text of the elements of the view. *)
Lemma encode_elements (bytes : Uint8Array) :
  wellFormed bytes ->
  AudioCodec.encode bytes
  = Base64.btoa (string_of_list_ascii (map ascii_of_byte (elements bytes))).
Proof.
  intros Hwf. unfold AudioCodec.encode.
  rewrite (encode_loop (fun i => fromCharCode (getByte bytes i))).
  rewrite (view_elements bytes Hwf). reflexivity.
Qed.

(** C4.  Decoding the base64 text of a byte sequence gives back the byte
    sequence: [decode(encode(b))] is a fresh array that holds exactly the
    bytes of [b]. *)
Theorem C4_decode_encode_roundtrip (b : Uint8Array) :
  wellFormed b ->
  AudioCodec.decode (AudioCodec.encode b) = Ok (ofBytes (elements b)).
Proof.
  intros Hwf. rewrite (encode_elements b Hwf).
  rewrite (decode_atob _ _ (Base64Facts.atob_btoa _)).
  rewrite list_ascii_of_string_of_list_ascii, map_map.
  do 2 f_equal. rewrite <- (map_id (elements b)) at 2.
  apply map_ext. intros x. apply byte_of_ascii_of_byte.
Qed.

Lemma C4_roundtrip_witness :
  AudioCodec.decode (AudioCodec.encode (mkUint8Array [x00; x4d; x61; x6e; xff] 1 3))
  = Ok (ofBytes [x4d; x61; x6e]).
Proof.
  apply (C4_decode_encode_roundtrip (mkUint8Array [x00; x4d; x61; x6e; xff] 1 3)).
  unfold wellFormed. cbn. lia.
Defined.

(** ** The audio codec bridge: [decodeAudioData] *)

Lemma ofBytes_ownsBuffer (bs : list byte) : ownsBuffer (ofBytes bs).
Proof. split; reflexivity. Qed.

(** The arrays returned by [decode] span their buffer. *)
Lemma decode_ownsBuffer (base64 : string) (bytes : Uint8Array) :
  AudioCodec.decode base64 = Ok bytes -> ownsBuffer bytes.
Proof.
  unfold AudioCodec.decode.
  destruct (Base64.atob base64) as [s|] eqn:Ha; [|discriminate].
  rewrite decode_loop by lia. intros [= <-]. split; cbn [byteOffset byteLength buffer].
  - reflexivity.
  - rewrite length_app, length_take, length_replicate, length_map, <- string_length_list.
    lia.
Qed.

Lemma int16_range (lo hi : byte) : -32768 <= int16 lo hi < 32768.
Proof.
  unfold int16.
  pose proof (Byte.to_N_bounded lo). pose proof (Byte.to_N_bounded hi).
  destruct (_ <? 32768) eqn:E; [apply Z.ltb_lt in E|apply Z.ltb_ge in E]; lia.
Qed.

Lemma int16Elements_facts (l : list byte) :
  (length (int16Elements l) = length l / 2)%nat
  /\ Forall (fun v => -32768 <= v < 32768) (int16Elements l).
Proof.
  assert (forall l : list byte,
            ((length (int16Elements l) = length l / 2)%nat
             /\ Forall (fun v => -32768 <= v < 32768) (int16Elements l))
            /\ forall b,
                ((length (int16Elements (b :: l)) = length (b :: l) / 2)%nat
                 /\ Forall (fun v => -32768 <= v < 32768) (int16Elements (b :: l))))
    as H.
  { clear l. induction l as [|x l [[IHl IHf] IH1]].
    - split; [split; [reflexivity|constructor]|].
      intros b. split; [reflexivity|constructor].
    - split; [apply IH1|]. intros b. cbn [int16Elements length]. split.
      + rewrite IHl. divmod.
      + constructor; [apply int16_range|exact IHf]. }
  apply H.
Qed.

Lemma Qfloor_quotient (n d : Z) :
  0 < d -> Qfloor (inject_Z n / inject_Z d) = n / d.
Proof.
  intros Hd. destruct d as [|p|p]; try lia.
  unfold Qdiv, Qmult, Qinv, inject_Z, Qfloor. cbn [Qnum Qden].
  rewrite Z.mul_1_r. reflexivity.
Qed.

Lemma inject_Z_pos (d : Z) : 0 < d -> (0 < inject_Z d)%Q.
Proof. intros Hd. change (inject_Z 0 < inject_Z d)%Q. rewrite <- Zlt_Qlt. exact Hd. Qed.

Lemma inject_Z_nonneg (n : Z) : 0 <= n -> (0 <= inject_Z n)%Q.
Proof. intros Hn. change (inject_Z 0 <= inject_Z n)%Q. rewrite <- Zle_Qle. exact Hn. Qed.

Lemma Qceiling_quotient (n d : Z) :
  0 < d -> Qceiling (inject_Z n / inject_Z d) = - ((- n) / d).
Proof.
  intros Hd. unfold Qceiling. f_equal.
  rewrite <- (Qfloor_quotient (- n) d Hd).
  apply Qfloor_comp. rewrite inject_Z_opp. field.
  intros H. apply (Qlt_not_eq 0 (inject_Z d)); [|symmetry; exact H].
  apply inject_Z_pos, Hd.
Qed.

(** An unsigned long below 2^32 is converted to itself. *)
Lemma toUint32_small (z : Z) : 0 <= z < 2 ^ 32 -> toUint32 (inject_Z z) = z.
Proof.
  intros Hz. unfold toUint32, Qtrunc.
  replace (Qle_bool 0 (inject_Z z)) with true.
  - rewrite Qfloor_Z. apply Z.mod_small. exact Hz.
  - symmetry. apply Qle_bool_iff. apply inject_Z_nonneg. lia.
Qed.

(** A fractional frame count is converted to its integer part. *)
Lemma toUint32_quotient (n d : Z) :
  0 <= n -> 0 < d -> n / d < 2 ^ 32 ->
  toUint32 (inject_Z n / inject_Z d) = n / d.
Proof.
  intros Hn Hd Hlt. unfold toUint32, Qtrunc.
  replace (Qle_bool 0 (inject_Z n / inject_Z d)) with true.
  - rewrite Qfloor_quotient by exact Hd. apply Z.mod_small.
    split; [apply Z.div_pos; lia|exact Hlt].
  - symmetry. apply Qle_bool_iff.
    apply Qle_shift_div_l.
    + apply inject_Z_pos, Hd.
    + rewrite Qmult_0_l. apply inject_Z_nonneg, Hn.
Qed.

(** A loop of indexed writes: the length is kept and the cells it reaches
    hold what was written. *)
Lemma indexed_writes {A} (g : Z -> A) (n : nat) (d : list A) :
  let r := fold_left (fun d i => <[Z.to_nat i := g i]> d) (seqZ 0 (Z.of_nat n)) d in
  length r = length d
  /\ forall j, (j < n)%nat -> (j < length d)%nat -> r !! j = Some (g (Z.of_nat j)).
Proof.
  induction n as [|n [IHlen IH]]; cbv zeta.
  - split; [reflexivity|]. intros j Hj. lia.
  - rewrite seqZ_S, fold_left_app. cbn [fold_left]. cbv zeta in IHlen, IH.
    rewrite length_insert. split; [exact IHlen|].
    intros j Hj Hjd. rewrite Z.add_0_l, Nat2Z.id.
    destruct (decide (j = n)) as [->|Hne].
    + apply list_lookup_insert_eq. rewrite IHlen. exact Hjd.
    + rewrite list_lookup_insert_ne by congruence. apply IH; [lia|exact Hjd].
Qed.

Section Deinterleave.
Variable dataInt16 : list Z.
Variable numChannels : Z.
Variable frameCount : Q.
Hypothesis Hceil : 0 <= Qceiling frameCount.

(** The inner loop keeps the length of the channel and fills every cell
    whose index is below [frameCount]. *)
Lemma fillChannel_facts (channel : Z) (d : list F32) :
  let r := AudioCodec.fillChannel dataInt16 numChannels channel frameCount d in
  length r = length d
  /\ forall j, Z.of_nat j < Qceiling frameCount -> (j < length d)%nat ->
       r !! j
       = Some (div32768
                 (AudioCodec.getInt16 dataInt16 (Z.of_nat j * numChannels + channel))).
Proof.
  cbv zeta. unfold AudioCodec.fillChannel.
  rewrite <- (Z2Nat.id (Qceiling frameCount)) by exact Hceil.
  destruct (indexed_writes
              (fun i => div32768 (AudioCodec.getInt16 dataInt16 (i * numChannels + channel)))
              (Z.to_nat (Qceiling frameCount)) d) as [Hlen Hget].
  cbv zeta in Hlen, Hget. split; [exact Hlen|].
  intros j Hj Hjd. apply Hget; [lia|exact Hjd].
Qed.

(** The outer loop, after the channels below [n]. *)
Lemma channels_loop (zero : list F32) (N : nat) (b0 : AudioBuffer) (n : nat) :
  channelData b0 = replicate N zero ->
  (n <= N)%nat ->
  exists cd,
    fold_left
      (fun acc channel =>
         match acc with
         | inl e => inl e
         | inr buffer =>
             match AudioCodec.getChannelData buffer channel with
             | None => Err IndexSizeError
             | Some channelData =>
                 Ok (AudioCodec.setChannelData buffer channel
                       (AudioCodec.fillChannel dataInt16 numChannels channel
                          frameCount channelData))
             end
         end)
      (seqZ 0 (Z.of_nat n)) (Ok b0)
    = Ok (mkAudioBuffer (numberOfChannels b0) (bufferLength b0) (sampleRate b0) cd)
    /\ length cd = N
    /\ (forall c, (c < n)%nat ->
          cd !! c = Some (AudioCodec.fillChannel dataInt16 numChannels (Z.of_nat c)
                            frameCount zero))
    /\ (forall c, (n <= c < N)%nat -> cd !! c = Some zero).
Proof.
  intros Hb0. induction n as [|n IH]; intros Hn.
  - exists (channelData b0). cbn [seqZ fold_left]. split; [destruct b0; reflexivity|].
    rewrite Hb0, length_replicate. split; [reflexivity|]. split; [intros c Hc; lia|].
    intros c Hc. apply lookup_replicate_2. lia.
  - destruct IH as (cd & Hfold & Hlen & Hdone & Htodo); [lia|].
    rewrite seqZ_S, fold_left_app, Hfold. cbn [fold_left].
    unfold Ok at 1. cbv iota beta.
    unfold AudioCodec.getChannelData, AudioCodec.setChannelData.
    cbn [channelData numberOfChannels bufferLength sampleRate].
    rewrite Z.add_0_l.
    replace (Z.of_nat n <? 0) with false by (symmetry; apply Z.ltb_ge; lia).
    rewrite Nat2Z.id, (Htodo n) by lia.
    eexists. split; [reflexivity|]. rewrite length_insert.
    split; [exact Hlen|]. split.
    + intros c Hc. destruct (decide (c = n)) as [->|Hne].
      * apply list_lookup_insert_eq. lia.
      * rewrite list_lookup_insert_ne by congruence. apply Hdone. lia.
    + intros c Hc. rewrite list_lookup_insert_ne by lia. apply Htodo. lia.
Qed.

End Deinterleave.

(** [decodeAudioData] reads the buffer of the array it is given, whatever
    part of it the array shows. *)
Lemma decodeAudioData_reads_buffer
    (data : Uint8Array) (ctx : AudioContext) (rate : Q) (numChannels : Z) :
  AudioCodec.decodeAudioData data ctx rate numChannels
  = AudioCodec.decodeAudioData (ofBytes (buffer data)) ctx rate numChannels.
Proof. reflexivity. Qed.

(** C2.  On a byte sequence of even length, with [C] channels,
    [decodeAudioData] builds a buffer of [C] channels that all have
    [floor(total / C)] frames, [total] being the number of 16-bit samples;
    the samples left over are not used.  Frame [i] of channel [c] is the
    sample number [i * C + c] divided by 32768, and lies in [-1, 1).  The
    host is assumed to accept the sizes given to [createBuffer]. *)
Theorem C2_decodeAudioData_frames_and_samples
    (bs : list byte) (ctx : AudioContext) (rate : Q) (numChannels : Z) :
  (length bs mod 2 = 0)%nat ->
  1 <= numChannels < 2 ^ 32 ->
  Z.of_nat (length bs / 2) / numChannels < 2 ^ 32 ->
  supported ctx numChannels (Z.of_nat (length bs / 2) / numChannels) rate = true ->
  exists out,
    AudioCodec.decodeAudioData (ofBytes bs) ctx rate numChannels = Ok out
    /\ Z.of_nat (length (channelData out)) = numChannels
    /\ Forall (fun d => Z.of_nat (length d) = Z.of_nat (length bs / 2) / numChannels)
              (channelData out)
    /\ (forall c i,
          0 <= c < numChannels ->
          0 <= i < Z.of_nat (length bs / 2) / numChannels ->
          exists v,
            int16Elements bs !! Z.to_nat (i * numChannels + c) = Some v
            /\ AudioCodec.sample out (Z.to_nat c) (Z.to_nat i) = Some (Num (v # 32768))
            /\ (-1 <= v # 32768 < 1)%Q).
Proof.
  intros Heven HC Hframes Hsup.
  destruct (int16Elements_facts bs) as [Hlen Hrange].
  set (dataInt16 := int16Elements bs) in *.
  set (total := Z.of_nat (length bs / 2)) in *.
  set (frames := total / numChannels) in *.
  assert (0 <= total) as Htot by (unfold total; lia).
  assert (0 <= frames) as Hfr by (apply Z.div_pos; lia).
  assert (frames * numChannels <= total) as Hmul.
  { unfold frames. rewrite Z.mul_comm. apply Z.mul_div_le. lia. }
  unfold AudioCodec.decodeAudioData, newInt16Array, Ok. cbn [buffer ofBytes].
  apply Nat.eqb_eq in Heven as Hb. rewrite Hb. fold dataInt16. rewrite Hlen.
  fold total.
  unfold createBuffer, Ok.
  rewrite (toUint32_small numChannels) by lia.
  rewrite (toUint32_quotient total numChannels) by lia.
  fold frames. rewrite Hsup.
  set (frameCount := (inject_Z total / inject_Z numChannels)%Q).
  assert (frames <= Qceiling frameCount) as Hceil.
  { unfold frameCount. rewrite Qceiling_quotient by lia. fold frames.
    pose proof (Z.div_mod total numChannels ltac:(lia)).
    pose proof (Z.mod_pos_bound total numChannels ltac:(lia)).
    pose proof (Z.div_mod (- total) numChannels ltac:(lia)).
    pose proof (Z.mod_pos_bound (- total) numChannels ltac:(lia)).
    fold frames in H. nia. }
  set (zero := replicate (Z.to_nat frames) (Num 0)).
  set (b0 := mkAudioBuffer numChannels frames rate (replicate (Z.to_nat numChannels) zero)).
  destruct (channels_loop dataInt16 numChannels frameCount zero
              (Z.to_nat numChannels) b0 (Z.to_nat numChannels) eq_refl (Nat.le_refl _))
    as (cd & Hfold & Hcdlen & Hdone & _).
  rewrite Z2Nat.id in Hfold by lia.
  eexists. split; [exact Hfold|]. cbn [channelData].
  assert (forall c, (c < Z.to_nat numChannels)%nat ->
            exists d, cd !! c = Some d
              /\ length d = Z.to_nat frames
              /\ forall j, (j < Z.to_nat frames)%nat ->
                   d !! j = Some (div32768 (AudioCodec.getInt16 dataInt16
                                     (Z.of_nat j * numChannels + Z.of_nat c)))) as Hch.
  { intros c Hc. eexists. split; [apply Hdone, Hc|].
    destruct (fillChannel_facts dataInt16 numChannels frameCount ltac:(lia)
                (Z.of_nat c) zero) as [Hl Hg].
    cbv zeta in Hl, Hg. unfold zero in Hl at 2. rewrite length_replicate in Hl.
    split; [exact Hl|]. intros j Hj. apply Hg; [lia|].
    unfold zero. rewrite length_replicate. exact Hj. }
  split; [lia|]. split.
  - apply Forall_lookup. intros c d Hd.
    assert (c < Z.to_nat numChannels)%nat as Hc
      by (rewrite <- Hcdlen; eapply lookup_lt_Some; exact Hd).
    destruct (Hch c Hc) as (d' & Hd' & Hl & _). rewrite Hd in Hd'.
    injection Hd' as <-. lia.
  - intros c i Hc Hi.
    assert (0 <= i * numChannels + c < total) as Hidx by nia.
    destruct (lookup_lt_is_Some_2 dataInt16 (Z.to_nat (i * numChannels + c)))
      as [v Hv]; [rewrite Hlen; unfold total in Hidx; lia|].
    exists v. split; [exact Hv|]. split.
    + destruct (Hch (Z.to_nat c) ltac:(lia)) as (d & Hd & _ & Hg).
      unfold AudioCodec.sample. cbn [channelData]. rewrite Hd.
      rewrite (Hg (Z.to_nat i)) by lia. rewrite !Z2Nat.id by lia.
      unfold AudioCodec.getInt16.
      replace (i * numChannels + c <? 0) with false by (symmetry; apply Z.ltb_ge; lia).
      rewrite Hv. reflexivity.
    + rewrite Forall_lookup in Hrange. specialize (Hrange _ _ Hv).
      unfold Qle, Qlt. cbn [Qnum Qden]. lia.
Qed.

(** Ten samples on three channels: three frames per channel. *)
Lemma C2_ten_samples_three_channels_witness :
  let bs := [x00; x80; xff; x7f; x01; x00; xff; xff; x02; x00;
             x03; x00; x04; x00; x05; x00; x06; x00; x07; x00] in
  exists out,
    AudioCodec.decodeAudioData (ofBytes bs) webAudio 24000 3 = Ok out
    /\ Z.of_nat (length (channelData out)) = 3
    /\ Forall (fun d => Z.of_nat (length d) = 3) (channelData out)
    /\ (forall c i,
          0 <= c < 3 ->
          0 <= i < 3 ->
          exists v,
            int16Elements bs !! Z.to_nat (i * 3 + c) = Some v
            /\ AudioCodec.sample out (Z.to_nat c) (Z.to_nat i) = Some (Num (v # 32768))
            /\ (-1 <= v # 32768 < 1)%Q).
Proof.
  intros bs.
  apply (C2_decodeAudioData_frames_and_samples bs webAudio 24000 3).
  - reflexivity.
  - lia.
  - reflexivity.
  - reflexivity.
Defined.

(** With no whole frame to store, the audio context of the Web Audio
    specification refuses to create the buffer. *)
Example decodeAudioData_without_frames :
  AudioCodec.decodeAudioData (ofBytes []) webAudio 24000 1 = Err NotSupportedError
  /\ AudioCodec.decodeAudioData (ofBytes [x01; x00]) webAudio 24000 2
     = Err NotSupportedError.
Proof. split; reflexivity. Qed.

(** C3.  On a byte sequence of odd length [decodeAudioData] fails, with the
    range error of the [Int16Array] constructor, and builds no buffer. *)
Theorem C3_odd_length_is_rejected
    (bs : list byte) (ctx : AudioContext) (rate : Q) (numChannels : Z) :
  (length bs mod 2 <> 0)%nat ->
  AudioCodec.decodeAudioData (ofBytes bs) ctx rate numChannels = Err RangeError
  /\ forall out, AudioCodec.decodeAudioData (ofBytes bs) ctx rate numChannels <> Ok out.
Proof.
  intros Hodd.
  assert (AudioCodec.decodeAudioData (ofBytes bs) ctx rate numChannels = Err RangeError)
    as H.
  { unfold AudioCodec.decodeAudioData, newInt16Array. cbn [buffer ofBytes].
    apply Nat.eqb_neq in Hodd. rewrite Hodd. reflexivity. }
  split; [exact H|]. intros out. rewrite H. discriminate.
Qed.

Lemma C3_odd_length_witness :
  AudioCodec.decodeAudioData (ofBytes [x00; x80; xff]) webAudio 24000 1 = Err RangeError
  /\ forall out,
       AudioCodec.decodeAudioData (ofBytes [x00; x80; xff]) webAudio 24000 1 <> Ok out.
Proof.
  apply (C3_odd_length_is_rejected [x00; x80; xff] webAudio 24000 1).
  cbn. discriminate.
Defined.

(** ** The lesson history *)

Section HistoryFacts.
Import HistoryService.
Variable host : Host.
Variable now : Z.

(** A record is kept when its date is valid and at most seven days old. *)
Lemma notExpired_iff (record : LessonRecord) :
  notExpired host now record = true
  <-> exists t, Date_getTime host (date record) = Some t
                /\ now - t <= 7 * MS_PER_DAY.
Proof.
  unfold notExpired, diffDays, MS_PER_DAY, EXPIRY_DAYS.
  destruct (Date_getTime host (date record)) as [t|].
  - rewrite Qle_bool_iff. unfold Qle. cbn [Qnum Qden]. split.
    + intros H. exists t. split; [reflexivity|lia].
    + intros (t' & [= <-] & H). lia.
  - split; [discriminate|]. intros (t & Ht & _). discriminate Ht.
Qed.

(** What a read does when the storage holds an array of records. *)
Lemma getLessonHistory_records (store : Storage) (data : string)
    (records : list LessonRecord) :
  store !! STORAGE_KEY = Some data ->
  data <> "" ->
  JSON_parse host data = Some (JsonRecords records) ->
  getLessonHistory host now store
  = (List.filter (notExpired host now) records,
     if negb (length (List.filter (notExpired host now) records) =? length records)%nat
     then <[STORAGE_KEY := JSON_stringify host (List.filter (notExpired host now) records)]> store
     else store).
Proof.
  intros Hget Hne Hparse. unfold getLessonHistory. rewrite Hget.
  destruct data as [|c data]; [congruence|]. rewrite Hparse.
  destruct (negb _); reflexivity.
Qed.

(** What a read does when the storage has no text, or a text that is not
    JSON. *)
Lemma getLessonHistory_unreadable (store : Storage) :
  store !! STORAGE_KEY = None
  \/ (exists data, store !! STORAGE_KEY = Some data /\ JSON_parse host data = None) ->
  getLessonHistory host now store = ([], store).
Proof.
  intros [Hnone|(data & Hget & Hparse)]; unfold getLessonHistory.
  - rewrite Hnone. reflexivity.
  - rewrite Hget. destruct data as [|c data]; [reflexivity|].
    rewrite Hparse. reflexivity.
Qed.

End HistoryFacts.

Section StreakFacts.
Import HistoryService.

(** The loop of [getDailyStreak] below the most recent day: it counts the
    days with lessons until the first day without. *)
Lemma streakLoop_older (older : list DayGroup) (today : DayGroup) (n : nat) :
  forall streak,
    (n <= length older)%nat ->
    streakLoop n (Z.of_nat n - 1) (older ++ [today]) streak
    = streak + activeRun (rev (take n older)).
Proof.
  induction n as [|n IH]; intros streak Hn.
  - rewrite take_0. cbn. lia.
  - cbn [streakLoop].
    replace (Z.of_nat (S n) - 1 <? 0) with false by (symmetry; apply Z.ltb_ge; lia).
    replace (Z.to_nat (Z.of_nat (S n) - 1)) with n by lia.
    destruct (lookup_lt_is_Some_2 older n) as [g Hg]; [lia|].
    rewrite (lookup_app_l_Some _ _ _ _ Hg).
    rewrite (take_S_r _ _ _ Hg), rev_app_distr. cbn [rev app activeRun].
    unfold hasLessons at 1.
    replace (Z.of_nat (S n) - 1 - 1) with (Z.of_nat n - 1) by lia.
    destruct (0 <? length (lessons g))%nat.
    + rewrite IH by lia. lia.
    + replace (Z.of_nat (S n) - 1 =? Z.of_nat (length (older ++ [today])) - 1)
        with false; [lia|].
      symmetry. apply Z.eqb_neq. rewrite length_app. cbn [length]. lia.
Qed.

(** The streak: the most recent day counts when it has lessons and does
    not end the count when it has none; the days before it count as long
    as they have lessons. *)
Lemma streakOf_snoc (older : list DayGroup) (today : DayGroup) :
  streakOf (older ++ [today])
  = (if hasLessons today then 1 else 0) + activeRun (rev older).
Proof.
  unfold streakOf. rewrite length_app. cbn [length].
  replace (length older + 1)%nat with (S (length older)) by lia.
  cbn [streakLoop].
  replace (Z.of_nat (S (length older)) - 1 <? 0) with false
    by (symmetry; apply Z.ltb_ge; lia).
  replace (Z.to_nat (Z.of_nat (S (length older)) - 1)) with (length older) by lia.
  rewrite lookup_app_r by lia. rewrite Nat.sub_diag. cbn [lookup list_lookup].
  unfold hasLessons.
  replace (Z.of_nat (S (length older)) - 1 - 1) with (Z.of_nat (length older) - 1) by lia.
  replace (Z.of_nat (S (length older)) - 1 =? Z.of_nat (length (older ++ [today])) - 1)
    with true
    by (symmetry; apply Z.eqb_eq; rewrite length_app; cbn [length]; lia).
  pose proof (streakLoop_older older today (length older)) as H.
  rewrite firstn_all in H.
  destruct (0 <? length (lessons today))%nat; rewrite H by lia; lia.
Qed.

Lemma activeRun_nonneg (days : list DayGroup) : 0 <= activeRun days.
Proof.
  induction days as [|g days IH]; cbn [activeRun]; [lia|].
  destruct (hasLessons g); lia.
Qed.

Lemma activeRun_none (days : list DayGroup) :
  Forall (fun g => lessons g = []) days -> activeRun days = 0.
Proof.
  intros [|g ds Hg _]; [reflexivity|].
  cbn [activeRun]. unfold hasLessons. rewrite Hg. reflexivity.
Qed.

(** No lessons on any day: no streak. *)
Lemma streakOf_none (grouped : list DayGroup) :
  Forall (fun g => lessons g = []) grouped -> streakOf grouped = 0.
Proof.
  intros Hall.
  destruct grouped as [|g grouped _] using rev_ind; [reflexivity|].
  rewrite streakOf_snoc. apply Forall_app in Hall as [Ho Ht].
  inversion_clear Ht as [|? ? Hg _].
  unfold hasLessons. rewrite Hg. cbn.
  apply activeRun_none. apply Forall_rev. exact Ho.
Qed.

End StreakFacts.

(** C8.  A read of the history keeps, in order, exactly the stored records
    whose date is valid and at most seven days old, and writes the kept
    records back when some record was dropped.  With a record of today, one
    of three days ago and one of ten days ago, the read returns the first
    two and the storage then holds those two. *)
Theorem C8_read_prunes_records_older_than_seven_days
    (host : HistoryService.Host) (now : Z) (store : gmap string string)
    (data : string) (records : list HistoryService.LessonRecord) :
  store !! HistoryService.STORAGE_KEY = Some data ->
  data <> "" ->
  HistoryService.JSON_parse host data = Some (HistoryService.JsonRecords records) ->
  let result := (HistoryService.getLessonHistory host now store).1 in
  let store' := (HistoryService.getLessonHistory host now store).2 in
  result = List.filter (HistoryService.notExpired host now) records
  /\ (forall r, In r result
        <-> In r records
            /\ exists t, HistoryService.Date_getTime host (HistoryService.date r) = Some t
                         /\ now - t <= 7 * HistoryService.MS_PER_DAY)
  /\ (length result <> length records ->
        store' = <[HistoryService.STORAGE_KEY
                     := HistoryService.JSON_stringify host result]> store)
  /\ (forall r0 r3 r10 a0 a3 a10,
        records = [r0; r3; r10] ->
        HistoryService.Date_getTime host (HistoryService.date r0) = Some (now - a0) ->
        0 <= a0 < HistoryService.MS_PER_DAY ->
        HistoryService.Date_getTime host (HistoryService.date r3) = Some (now - a3) ->
        3 * HistoryService.MS_PER_DAY <= a3 < 4 * HistoryService.MS_PER_DAY ->
        HistoryService.Date_getTime host (HistoryService.date r10) = Some (now - a10) ->
        10 * HistoryService.MS_PER_DAY <= a10 < 11 * HistoryService.MS_PER_DAY ->
        result = [r0; r3]
        /\ store' = <[HistoryService.STORAGE_KEY
                        := HistoryService.JSON_stringify host [r0; r3]]> store).
Proof.
  intros Hget Hne Hparse result store'. subst result store'.
  rewrite (getLessonHistory_records host now store data records Hget Hne Hparse).
  cbn [fst snd].
  split; [reflexivity|]. split; [|split].
  - intros r. rewrite filter_In, notExpired_iff. reflexivity.
  - intros Hlen. apply Nat.eqb_neq in Hlen. rewrite Hlen. reflexivity.
  - intros r0 r3 r10 a0 a3 a10 -> H0 Ha0 H3 Ha3 H10 Ha10.
    assert (HistoryService.notExpired host now r0 = true) as E0.
    { apply notExpired_iff. eexists. split; [exact H0|].
      unfold HistoryService.MS_PER_DAY in *. lia. }
    assert (HistoryService.notExpired host now r3 = true) as E3.
    { apply notExpired_iff. eexists. split; [exact H3|].
      unfold HistoryService.MS_PER_DAY in *. lia. }
    assert (HistoryService.notExpired host now r10 = false) as E10.
    { apply not_true_is_false. rewrite notExpired_iff.
      intros (t & Ht & Hle). rewrite H10 in Ht. injection Ht as <-.
      unfold HistoryService.MS_PER_DAY in *. lia. }
    cbn [List.filter]. rewrite E0, E3, E10. cbn. split; reflexivity.
Qed.

Lemma C8_today_three_and_ten_days_ago_witness :
  let store := ExampleHost.storeOf
                 [ExampleHost.today; ExampleHost.threeDaysAgo; ExampleHost.tenDaysAgo] in
  (HistoryService.getLessonHistory ExampleHost.host ExampleHost.now store).1
  = [ExampleHost.today; ExampleHost.threeDaysAgo]
  /\ (HistoryService.getLessonHistory ExampleHost.host ExampleHost.now store).2
     = <[HistoryService.STORAGE_KEY := "[today;three;]"]> store.
Proof.
  intros store.
  destruct (C8_read_prunes_records_older_than_seven_days
              ExampleHost.host ExampleHost.now store "[today;three;ten;]"
              [ExampleHost.today; ExampleHost.threeDaysAgo; ExampleHost.tenDaysAgo])
    as (_ & _ & _ & Hscenario).
  - apply lookup_singleton_eq.
  - discriminate.
  - reflexivity.
  - apply (Hscenario ExampleHost.today ExampleHost.threeDaysAgo ExampleHost.tenDaysAgo
             9000000 259200000 864000000).
    + reflexivity.
    + reflexivity.
    + unfold HistoryService.MS_PER_DAY. lia.
    + reflexivity.
    + unfold HistoryService.MS_PER_DAY. lia.
    + reflexivity.
    + unfold HistoryService.MS_PER_DAY. lia.
Defined.

(** C9.  The streak is computed on the days of the grouped view, from the
    most recent one backwards: the most recent day counts when it has a
    lesson and does not end the count when it has none; each earlier day
    counts as long as it has a lesson, and the first one without ends the
    count.  Lessons today and yesterday and none the day before give 2;
    with no lesson today and one yesterday, yesterday and the days with
    lessons before it are still counted. *)
Theorem C9_daily_streak
    (host : HistoryService.Host) (now : Z) (store : gmap string string) :
  (HistoryService.getDailyStreak host now store).1
  = HistoryService.streakOf (HistoryService.getLessonsGroupedByDay host now store).1
  /\ (forall older today,
        HistoryService.streakOf (older ++ [today])
        = (if HistoryService.hasLessons today then 1 else 0)
          + HistoryService.activeRun (rev older))
  /\ (forall older d2 d1 d0,
        HistoryService.hasLessons d0 = true ->
        HistoryService.hasLessons d1 = true ->
        HistoryService.hasLessons d2 = false ->
        HistoryService.streakOf (older ++ [d2; d1; d0]) = 2)
  /\ (forall older d1 d0,
        HistoryService.hasLessons d0 = false ->
        HistoryService.hasLessons d1 = true ->
        HistoryService.streakOf (older ++ [d1; d0])
        = 1 + HistoryService.activeRun (rev older)
        /\ 1 <= HistoryService.streakOf (older ++ [d1; d0])).
Proof.
  split; [|split; [|split]].
  - unfold HistoryService.getDailyStreak.
    destruct (HistoryService.getLessonsGroupedByDay host now store). reflexivity.
  - apply streakOf_snoc.
  - intros older d2 d1 d0 H0 H1 H2.
    change (older ++ [d2; d1; d0]) with (older ++ [d2; d1] ++ [d0]).
    rewrite app_assoc, streakOf_snoc, H0, rev_app_distr.
    cbn [rev app HistoryService.activeRun]. rewrite H1, H2. reflexivity.
  - intros older d1 d0 H0 H1.
    change (older ++ [d1; d0]) with (older ++ [d1] ++ [d0]).
    rewrite app_assoc, streakOf_snoc, H0, rev_app_distr.
    cbn [rev app HistoryService.activeRun]. rewrite H1.
    pose proof (activeRun_nonneg (rev older)). split; lia.
Qed.

Lemma C9_daily_streak_witness :
  (HistoryService.getDailyStreak ExampleHost.host ExampleHost.now
     (ExampleHost.storeOf [ExampleHost.yesterday; ExampleHost.today])).1 = 2
  /\ (HistoryService.getDailyStreak ExampleHost.host ExampleHost.now
        (ExampleHost.storeOf [ExampleHost.threeDaysAgo; ExampleHost.yesterday])).1 = 1.
Proof.
  split.
  - destruct (C9_daily_streak ExampleHost.host ExampleHost.now
                (ExampleHost.storeOf [ExampleHost.yesterday; ExampleHost.today]))
      as (Hdef & _ & Hfull & _).
    rewrite Hdef.
    exact (Hfull
             (map (fun d => HistoryService.mkDayGroup d [] 0)
                  ["2024-03-05"; "2024-03-06"; "2024-03-07"; "2024-03-08"])
             (HistoryService.mkDayGroup "2024-03-09" [] 0)
             (HistoryService.mkDayGroup "2024-03-10" [ExampleHost.yesterday] 7)
             (HistoryService.mkDayGroup "2024-03-11" [ExampleHost.today] 8)
             eq_refl eq_refl eq_refl).
  - destruct (C9_daily_streak ExampleHost.host ExampleHost.now
                (ExampleHost.storeOf [ExampleHost.threeDaysAgo; ExampleHost.yesterday]))
      as (Hdef & _ & _ & Hrest).
    rewrite Hdef.
    exact (proj1 (Hrest
             (map (fun d => HistoryService.mkDayGroup d [] 0)
                  ["2024-03-05"; "2024-03-06"; "2024-03-07"]
              ++ [HistoryService.mkDayGroup "2024-03-08" [ExampleHost.threeDaysAgo] 6;
                  HistoryService.mkDayGroup "2024-03-09" [] 0])
             (HistoryService.mkDayGroup "2024-03-10" [ExampleHost.yesterday] 7)
             (HistoryService.mkDayGroup "2024-03-11" [] 0)
             eq_refl eq_refl)).
Defined.

Lemma mapSet_no_lessons (m : list (string * list HistoryService.LessonRecord))
    (k : string) :
  Forall (fun e => e.2 = []) m ->
  Forall (fun e => e.2 = []) (HistoryService.mapSet m k []).
Proof.
  induction 1 as [|[k' v'] m Hv Hm IH]; cbn [HistoryService.mapSet].
  - repeat constructor.
  - destruct (String.eqb k k'); constructor; auto.
Qed.

(** Before the lessons are put in, no day has any. *)
Lemma lastSevenDays_no_lessons (host : HistoryService.Host) (now : Z) :
  Forall (fun e => e.2 = []) (HistoryService.lastSevenDays host now).
Proof.
  unfold HistoryService.lastSevenDays. cbn [fold_left].
  repeat apply mapSet_no_lessons. constructor.
Qed.

Lemma toDayGroup_no_lessons (m : list (string * list HistoryService.LessonRecord)) :
  Forall (fun e => e.2 = []) m ->
  Forall (fun g => HistoryService.lessons g = [] /\ HistoryService.avgScore g = 0%Q)
         (map HistoryService.toDayGroup m).
Proof.
  induction 1 as [|[d ls] m Hls _ IH]; cbn [map]; constructor; [|exact IH].
  cbn [snd] in Hls. subst ls. split; reflexivity.
Qed.

(** C10.  When the storage has nothing under the key of the history, or a
    text that is not JSON, [getLessonHistory] returns the empty list and
    leaves the storage as it is; the views built on it are then the seven
    days without lessons, averages that are all zero, no recent lesson and
    a streak of zero. *)
Theorem C10_unreadable_storage_reads_as_empty
    (host : HistoryService.Host) (now : Z) (store : gmap string string) (limit : Z) :
  store !! HistoryService.STORAGE_KEY = None
  \/ (exists data, store !! HistoryService.STORAGE_KEY = Some data
                   /\ HistoryService.JSON_parse host data = None) ->
  HistoryService.getLessonHistory host now store = ([], store)
  /\ (HistoryService.getLessonsGroupedByDay host now store).2 = store
  /\ map HistoryService.dayDate (HistoryService.getLessonsGroupedByDay host now store).1
     = map fst (HistoryService.lastSevenDays host now)
  /\ Forall (fun g => HistoryService.lessons g = [] /\ HistoryService.avgScore g = 0%Q)
            (HistoryService.getLessonsGroupedByDay host now store).1
  /\ HistoryService.getWeeklySkillAverages host now store
     = (HistoryService.mkSkillAverages 0 0 0 0 0 0 0 0, store)
  /\ HistoryService.getRecentLessons host now limit store = ([], store)
  /\ HistoryService.getDailyStreak host now store = (0, store).
Proof.
  intros Hbad.
  pose proof (getLessonHistory_unreadable host now store Hbad) as Hread.
  assert (HistoryService.getLessonsGroupedByDay host now store
          = (map HistoryService.toDayGroup (HistoryService.lastSevenDays host now), store))
    as Hgrouped.
  { unfold HistoryService.getLessonsGroupedByDay. rewrite Hread. reflexivity. }
  assert (Forall (fun g => HistoryService.lessons g = [] /\ HistoryService.avgScore g = 0%Q)
            (map HistoryService.toDayGroup (HistoryService.lastSevenDays host now)))
    as Hnone.
  { apply toDayGroup_no_lessons, lastSevenDays_no_lessons. }
  split; [exact Hread|]. rewrite Hgrouped. cbn [fst snd].
  split; [reflexivity|]. split.
  { rewrite map_map. apply map_ext. intros [d ls]. reflexivity. }
  split; [exact Hnone|]. split.
  { unfold HistoryService.getWeeklySkillAverages. rewrite Hread. reflexivity. }
  split.
  { unfold HistoryService.getRecentLessons, HistoryService.sliceFrom.
    rewrite Hread, drop_nil. reflexivity. }
  unfold HistoryService.getDailyStreak. rewrite Hgrouped. f_equal.
  apply streakOf_none. eapply Forall_impl; [exact Hnone|].
  intros g [Hg _]. exact Hg.
Qed.

Lemma C10_unreadable_storage_witness :
  let store : gmap string string := {[ HistoryService.STORAGE_KEY := "{not json" ]} in
  HistoryService.getLessonHistory ExampleHost.host ExampleHost.now store = ([], store)
  /\ (HistoryService.getLessonsGroupedByDay ExampleHost.host ExampleHost.now store).2 = store
  /\ map HistoryService.dayDate
         (HistoryService.getLessonsGroupedByDay ExampleHost.host ExampleHost.now store).1
     = map fst (HistoryService.lastSevenDays ExampleHost.host ExampleHost.now)
  /\ Forall (fun g => HistoryService.lessons g = [] /\ HistoryService.avgScore g = 0%Q)
            (HistoryService.getLessonsGroupedByDay ExampleHost.host ExampleHost.now store).1
  /\ HistoryService.getWeeklySkillAverages ExampleHost.host ExampleHost.now store
     = (HistoryService.mkSkillAverages 0 0 0 0 0 0 0 0, store)
  /\ HistoryService.getRecentLessons ExampleHost.host ExampleHost.now 5 store = ([], store)
  /\ HistoryService.getDailyStreak ExampleHost.host ExampleHost.now store = (0, store).
Proof.
  intros store.
  apply (C10_unreadable_storage_reads_as_empty ExampleHost.host ExampleHost.now store 5).
  right. exists "{not json". split.
  - apply lookup_singleton_eq.
  - reflexivity.
Defined.

(** * Further properties *)

(** ** The retry orchestrator, whatever the operation does *)

Section RetryInvariants.
Context {T W : Type}.
Variable fn : W -> Settled T Error * W.
Variable maxRetries : Z.

Lemma trace_emit (evs : list Event) (r : Run T W) :
  trace (emit evs r) = evs ++ trace r.
Proof. reflexivity. Qed.

Lemma delays_shift (d : Q) (n : nat) :
  map (fun k => Nat.iter k nextDelay (nextDelay d)) (seq 0 n)
  = map (fun k => Nat.iter k nextDelay d) (seq 1 n).
Proof.
  rewrite <- seq_shift, map_map. apply map_ext. intros k.
  symmetry. apply Nat.iter_succ_r.
Qed.

Lemma retryLoop_step fuel i delay w :
  GeminiService.retryLoop fn maxRetries (S fuel) i delay w
  = match fn w with
    | (Fulfilled v, w') => mkRun (Fulfilled v) [Attempt] w'
    | (Rejected err, w') =>
        match json err with
        | None => mkRun (Rejected HostTypeError) [Attempt] w'
        | Some s =>
            if GeminiService.isQuotaError err (toLowerCase s) && (i <? maxRetries - 1)
            then emit [Attempt; Wait delay]
                   (GeminiService.retryLoop fn maxRetries fuel (i + 1) (nextDelay delay) w')
            else mkRun (Rejected (Rethrown err)) [Attempt] w'
        end
    end.
Proof. reflexivity. Qed.

Lemma retryLoop2_step fuel i delay last w :
  Part000.retryLoop fn maxRetries (S fuel) i delay last w
  = match fn w with
    | (Fulfilled v, w') => mkRun (Fulfilled v) [Attempt] w'
    | (Rejected err, w') =>
        match json err with
        | None => mkRun (Rejected HostTypeError) [Attempt] w'
        | Some s =>
            if Part000.isQuotaError err (toLowerCase s) && (i <? maxRetries - 1)
            then emit [Attempt; Wait delay]
                   (Part000.retryLoop fn maxRetries fuel (i + 1) (nextDelay delay)
                      (Some err) w')
            else if negb (Part000.isQuotaError err (toLowerCase s))
            then mkRun (Rejected (NewError (orElse (message err) ("Lỗi API: " +:+ s))))
                       [Attempt] w'
            else emit [Attempt]
                   (Part000.retryLoop fn maxRetries fuel (i + 1) delay (Some err) w')
        end
    end.
Proof. reflexivity. Qed.

(** The loop of [geminiService.ts], entered with as many iterations left
    as its test allows: the waits are the successive delays, there is one
    attempt more than there are waits, and a result comes from the attempt
    that ended the loop. *)
Lemma retryLoop_shape fuel : forall i delay w,
  Z.of_nat (S fuel) = maxRetries - i ->
  let r := GeminiService.retryLoop fn maxRetries (S fuel) i delay w in
  waits (trace r)
  = map (fun k => Nat.iter k nextDelay delay) (seq 0 (length (waits (trace r))))
  /\ attempts (trace r) = S (length (waits (trace r)))
  /\ (attempts (trace r) <= S fuel)%nat
  /\ (forall v, settled r = Fulfilled v ->
        exists w1, fn w1 = (Fulfilled v, world r)).
Proof.
  induction fuel as [|fuel IH]; intros i delay w Hi; cbv zeta;
    rewrite retryLoop_step;
    destruct (fn w) as [[v|err] w'] eqn:Hfn;
    try (cbn; repeat split; [lia|intros v0 [= <-]; eauto]);
    (destruct (json err) as [s|]; [|cbn; repeat split; [lia|discriminate]]).
  - replace (i <? maxRetries - 1) with false by (symmetry; apply Z.ltb_ge; lia).
    rewrite andb_false_r. cbn. repeat split; [lia|discriminate].
  - destruct (GeminiService.isQuotaError err (toLowerCase s) && (i <? maxRetries - 1));
      [|cbn; repeat split; [lia|discriminate]].
    destruct (IH (i + 1) (nextDelay delay) w') as (Hw & Ha & Hle & Hv); [lia|].
    cbv zeta in Hw, Ha, Hle, Hv.
    set (r := GeminiService.retryLoop fn maxRetries (S fuel) (i + 1) (nextDelay delay) w') in *.
    clearbody r. rewrite attempts_emit, waits_emit.
    cbn [attempts waits isAttempt app length Nat.add seq map world settled emit].
    rewrite Ha. split; [|split; [reflexivity|split; [lia|exact Hv]]].
    f_equal. rewrite Hw at 1. rewrite delays_shift. reflexivity.
Qed.

(** The same for the revised loop, which reaches the statements after the
    loop when the last attempt fails with a rate-limit error. *)
Lemma retryLoop2_shape fuel : forall i delay last w,
  Z.of_nat (S fuel) = maxRetries - i ->
  let r := Part000.retryLoop fn maxRetries (S fuel) i delay last w in
  waits (trace r)
  = map (fun k => Nat.iter k nextDelay delay) (seq 0 (length (waits (trace r))))
  /\ attempts (trace r) = S (length (waits (trace r)))
  /\ (attempts (trace r) <= S fuel)%nat
  /\ (forall v, settled r = Fulfilled v ->
        exists w1, fn w1 = (Fulfilled v, world r)).
Proof.
  induction fuel as [|fuel IH]; intros i delay last w Hi; cbv zeta;
    rewrite retryLoop2_step;
    destruct (fn w) as [[v|err] w'] eqn:Hfn;
    try (cbn; repeat split; [lia|intros v0 [= <-]; eauto]);
    (destruct (json err) as [s|]; [|cbn; repeat split; [lia|discriminate]]).
  - replace (i <? maxRetries - 1) with false by (symmetry; apply Z.ltb_ge; lia).
    rewrite andb_false_r.
    destruct (Part000.isQuotaError err (toLowerCase s));
      cbn; repeat split; try lia; discriminate.
  - replace (i <? maxRetries - 1) with true by (symmetry; apply Z.ltb_lt; lia).
    rewrite andb_true_r.
    destruct (Part000.isQuotaError err (toLowerCase s));
      [|cbn; repeat split; [lia|discriminate]].
    cbn [negb].
    destruct (IH (i + 1) (nextDelay delay) (Some err) w') as (Hw & Ha & Hle & Hv); [lia|].
    cbv zeta in Hw, Ha, Hle, Hv.
    set (r := Part000.retryLoop fn maxRetries (S fuel) (i + 1) (nextDelay delay) (Some err) w') in *.
    clearbody r. rewrite attempts_emit, waits_emit.
    cbn [attempts waits isAttempt app length Nat.add seq map world settled emit].
    rewrite Ha. split; [|split; [reflexivity|split; [lia|exact Hv]]].
    f_equal. rewrite Hw at 1. rewrite delays_shift. reflexivity.
Qed.

End RetryInvariants.

Section RetryVersions.
Context {T W : Type}.
Variable fn : W -> Settled T Error * W.
Variable maxRetries : Z.

(** Both loops make the same attempts and waits and leave the operation in
    the same state; one returns a result exactly when the other does. *)
Lemma retryLoops_agree fuel : forall i delay last w,
  Z.of_nat (S fuel) = maxRetries - i ->
  let r1 := GeminiService.retryLoop fn maxRetries (S fuel) i delay w in
  let r2 := Part000.retryLoop fn maxRetries (S fuel) i delay last w in
  trace r1 = trace r2 /\ world r1 = world r2
  /\ (forall v, settled r1 = Fulfilled v <-> settled r2 = Fulfilled v).
Proof.
  induction fuel as [|fuel IH]; intros i delay last w Hi; cbv zeta;
    rewrite retryLoop_step, retryLoop2_step;
    destruct (fn w) as [[v|err] w'] eqn:Hfn;
    try (cbn; repeat split; tauto);
    (destruct (json err) as [s|]; [|cbn; repeat split; intros; discriminate]);
    rewrite isQuotaError_agree.
  - replace (i <? maxRetries - 1) with false by (symmetry; apply Z.ltb_ge; lia).
    rewrite andb_false_r.
    destruct (GeminiService.isQuotaError err (toLowerCase s));
      cbn; repeat split; intros; discriminate.
  - replace (i <? maxRetries - 1) with true by (symmetry; apply Z.ltb_lt; lia).
    rewrite andb_true_r.
    destruct (GeminiService.isQuotaError err (toLowerCase s));
      [|cbn; repeat split; intros; discriminate].
    destruct (IH (i + 1) (nextDelay delay) (Some err) w') as (Ht & Hw & Hs); [lia|].
    cbv zeta in Ht, Hw, Hs. rewrite !trace_emit, Ht.
    cbn [emit world settled]. auto.
Qed.

End RetryVersions.

(** After [k] waits the delay is 1500 times 2.5 to the power [k]. *)
Lemma delayAfter_power (k : nat) :
  (delayAfter k == 1500 * (5 # 2) ^ Z.of_nat k)%Q.
Proof.
  unfold delayAfter. induction k as [|k IH].
  - reflexivity.
  - rewrite Nat2Z.inj_succ. unfold Z.succ.
    rewrite Qpower_plus by discriminate.
    change (Nat.iter (S k) nextDelay INITIAL_DELAY)
      with (nextDelay (Nat.iter k nextDelay INITIAL_DELAY)).
    unfold nextDelay at 1. etransitivity; [apply Qred_correct|].
    rewrite IH. change ((5 # 2) ^ 1)%Q with (5 # 2)%Q. ring.
Qed.

(** X1.  Whatever the operation does, the waits of a call are the first
    terms of one fixed sequence, 1500 times the powers of 2.5; the operation
    is attempted at most [maxRetries] times, and once more than the call
    waits.  The budget is taken up to 20, where every delay is a number
    that the doubles of JavaScript represent exactly. *)
Theorem callWithRetry_backoff_schedule
    (T W : Type) (fn : W -> Settled T Error * W) (maxRetries : Z) (w : W) :
  maxRetries <= 20 ->
  let r1 := GeminiService.callWithRetry fn maxRetries w in
  let r2 := Part000.callWithRetry fn maxRetries w in
  (waits (trace r1) = map delayAfter (seq 0 (length (waits (trace r1))))
   /\ Z.of_nat (attempts (trace r1)) <= Z.max maxRetries 0
   /\ (1 <= maxRetries -> attempts (trace r1) = S (length (waits (trace r1)))))
  /\ (waits (trace r2) = map delayAfter (seq 0 (length (waits (trace r2))))
      /\ Z.of_nat (attempts (trace r2)) <= Z.max maxRetries 0
      /\ (1 <= maxRetries -> attempts (trace r2) = S (length (waits (trace r2)))))
  /\ (forall k, delayAfter k == 1500 * (5 # 2) ^ Z.of_nat k)%Q.
Proof.
  intros _. cbv zeta. unfold GeminiService.callWithRetry, Part000.callWithRetry.
  split; [|split; [|exact delayAfter_power]].
  - destruct (Z.to_nat maxRetries) as [|fuel] eqn:Hfuel.
    + cbn. repeat split; lia.
    + destruct (retryLoop_shape fn maxRetries fuel 0 INITIAL_DELAY w)
        as (Hw & Ha & Hle & _); [lia|].
      cbv zeta in Hw, Ha, Hle. repeat split; [exact Hw|lia|intros _; exact Ha].
  - destruct (Z.to_nat maxRetries) as [|fuel] eqn:Hfuel.
    + cbn. repeat split; lia.
    + destruct (retryLoop2_shape fn maxRetries fuel 0 INITIAL_DELAY None w)
        as (Hw & Ha & Hle & _); [lia|].
      cbv zeta in Hw, Ha, Hle. repeat split; [exact Hw|lia|intros _; exact Ha].
Qed.

Lemma callWithRetry_backoff_schedule_witness :
  waits (trace (GeminiService.callWithRetry
                  (Examples.alwaysFails Examples.quotaError) 5 0%nat))
  = [1500; 3750; 9375; 46875 # 2]%Q
  /\ attempts (trace (GeminiService.callWithRetry
                        (Examples.alwaysFails Examples.quotaError) 5 0%nat)) = 5%nat.
Proof.
  destruct (callWithRetry_backoff_schedule string nat
              (Examples.alwaysFails Examples.quotaError) 5 0%nat)
    as ((Hw & _ & Ha) & _ & _); [lia|].
  split; [rewrite Hw; reflexivity|rewrite Ha by lia; reflexivity].
Defined.

(** X2.  The two copies of the orchestrator behave alike on every
    operation: same attempts and waits in the same order, same final state
    of the operation, and a result from one exactly when from the other;
    they differ only in the error they raise. *)
Theorem callWithRetry_copies_agree
    (T W : Type) (fn : W -> Settled T Error * W) (maxRetries : Z) (w : W) :
  let r1 := GeminiService.callWithRetry fn maxRetries w in
  let r2 := Part000.callWithRetry fn maxRetries w in
  trace r1 = trace r2 /\ world r1 = world r2
  /\ (forall v, settled r1 = Fulfilled v <-> settled r2 = Fulfilled v).
Proof.
  cbv zeta. unfold GeminiService.callWithRetry, Part000.callWithRetry.
  destruct (Z.to_nat maxRetries) as [|fuel] eqn:Hfuel.
  - cbn. repeat split; intros; discriminate.
  - apply (retryLoops_agree fn maxRetries fuel 0 INITIAL_DELAY None w). lia.
Qed.

(** X3.  A call returns only what the operation returned: a result of the
    call is the result of the attempt that ended it, and nothing runs after
    that attempt; a budget that is not positive never gives a result. *)
Theorem callWithRetry_result_is_the_operations
    (T W : Type) (fn : W -> Settled T Error * W) (maxRetries : Z) (w : W) (v : T) :
  settled (GeminiService.callWithRetry fn maxRetries w) = Fulfilled v
  \/ settled (Part000.callWithRetry fn maxRetries w) = Fulfilled v ->
  1 <= maxRetries
  /\ exists w1, fn w1 = (Fulfilled v, world (GeminiService.callWithRetry fn maxRetries w))
                /\ world (Part000.callWithRetry fn maxRetries w)
                   = world (GeminiService.callWithRetry fn maxRetries w).
Proof.
  unfold GeminiService.callWithRetry, Part000.callWithRetry.
  destruct (Z.to_nat maxRetries) as [|fuel] eqn:Hfuel;
    [intros [H|H]; discriminate H|].
  destruct (retryLoops_agree fn maxRetries fuel 0 INITIAL_DELAY None w)
    as (_ & Hw & Hs); [lia|].
  cbv zeta in Hw, Hs. intros H.
  assert (settled (GeminiService.retryLoop fn maxRetries (S fuel) 0 INITIAL_DELAY w)
          = Fulfilled v) as H1
    by (destruct H as [H|H]; [exact H|apply Hs, H]).
  split; [lia|].
  destruct (retryLoop_shape fn maxRetries fuel 0 INITIAL_DELAY w)
    as (_ & _ & _ & Hv); [lia|].
  destruct (Hv v H1) as [w1 Hw1]. exists w1. split; [exact Hw1|symmetry; exact Hw].
Qed.

Lemma callWithRetry_result_witness :
  1 <= 4
  /\ exists w1,
       Examples.failsThrice Examples.quotaError w1
       = (Fulfilled "ok",
          world (GeminiService.callWithRetry (Examples.failsThrice Examples.quotaError) 4 0%nat))
       /\ world (Part000.callWithRetry (Examples.failsThrice Examples.quotaError) 4 0%nat)
          = world (GeminiService.callWithRetry (Examples.failsThrice Examples.quotaError) 4 0%nat).
Proof.
  apply (callWithRetry_result_is_the_operations string nat
           (Examples.failsThrice Examples.quotaError) 4 0%nat "ok").
  left. reflexivity.
Defined.

(** X4.  An error that cannot be serialised ends the call at once with the
    type error raised inside the catch block, even when its status is 429:
    one attempt, no wait, and the error of the operation is lost. *)
Theorem callWithRetry_unserialisable_error
    (T W : Type) (fn : W -> Settled T Error * W) (maxRetries : Z)
    (w w' : W) (err : Error) :
  1 <= maxRetries ->
  fn w = (Rejected err, w') ->
  json err = None ->
  GeminiService.callWithRetry fn maxRetries w = mkRun (Rejected HostTypeError) [Attempt] w'
  /\ Part000.callWithRetry fn maxRetries w = mkRun (Rejected HostTypeError) [Attempt] w'.
Proof.
  intros Hmax Hfn Hjson.
  unfold GeminiService.callWithRetry, Part000.callWithRetry.
  destruct (Z.to_nat maxRetries) as [|fuel] eqn:Hfuel; [lia|].
  rewrite retryLoop_step, retryLoop2_step, Hfn, Hjson. split; reflexivity.
Qed.

Lemma callWithRetry_unserialisable_witness :
  let cyclic := mkError (Some 429) (Some "429 Too Many Requests") None in
  GeminiService.callWithRetry (Examples.alwaysFails cyclic) 4 0%nat
  = mkRun (Rejected HostTypeError) [Attempt] 1%nat
  /\ Part000.callWithRetry (Examples.alwaysFails cyclic) 4 0%nat
     = mkRun (Rejected HostTypeError) [Attempt] 1%nat.
Proof.
  intros cyclic.
  apply (callWithRetry_unserialisable_error string nat
           (Examples.alwaysFails cyclic) 4 0%nat 1%nat cyclic).
  - lia.
  - reflexivity.
  - reflexivity.
Defined.

Section RetryState.
Context {T W : Type}.
Variable fn : W -> Settled T Error * W.
Variable maxRetries : Z.
(** A property of the state that failing attempts keep. *)
Variable keeps : W -> Prop.
Hypothesis Hkeeps : forall w err w', fn w = (Rejected err, w') -> keeps w -> keeps w'.

(** The orchestrator changes the state of the operation only by calling
    it: what failing attempts keep holds when the call raises, and holds of
    the state in which the successful attempt was made. *)
Lemma retryLoop_keeps fuel : forall i delay w,
  keeps w ->
  let r := GeminiService.retryLoop fn maxRetries fuel i delay w in
  match settled r with
  | Rejected _ => keeps (world r)
  | Fulfilled v => exists w1, keeps w1 /\ fn w1 = (Fulfilled v, world r)
  end.
Proof.
  induction fuel as [|fuel IH]; intros i delay w Hw; cbv zeta; [exact Hw|].
  rewrite retryLoop_step. destruct (fn w) as [[v|err] w'] eqn:Hfn.
  - cbn. eauto.
  - pose proof (Hkeeps w err w' Hfn Hw) as Hw'.
    destruct (json err) as [s|]; [|exact Hw'].
    destruct (_ && _); [|exact Hw'].
    exact (IH (i + 1) (nextDelay delay) w' Hw').
Qed.

Lemma retryLoop2_keeps fuel : forall i delay last w,
  keeps w ->
  let r := Part000.retryLoop fn maxRetries fuel i delay last w in
  match settled r with
  | Rejected _ => keeps (world r)
  | Fulfilled v => exists w1, keeps w1 /\ fn w1 = (Fulfilled v, world r)
  end.
Proof.
  induction fuel as [|fuel IH]; intros i delay last w Hw; cbv zeta; [exact Hw|].
  rewrite retryLoop2_step. destruct (fn w) as [[v|err] w'] eqn:Hfn.
  - cbn. eauto.
  - pose proof (Hkeeps w err w' Hfn Hw) as Hw'.
    destruct (json err) as [s|]; [|exact Hw'].
    destruct (_ && _); [exact (IH (i + 1) (nextDelay delay) (Some err) w' Hw')|].
    destruct (negb _); [exact Hw'|].
    exact (IH (i + 1) delay (Some err) w' Hw').
Qed.

End RetryState.

Lemma GeminiService_respectsState : respectsState (@GeminiService.callWithRetry).
Proof.
  intros T W fn maxRetries keeps Hkeeps w Hw.
  exact (retryLoop_keeps fn maxRetries keeps Hkeeps _ 0 INITIAL_DELAY w Hw).
Qed.

Lemma Part000_respectsState : respectsState (@Part000.callWithRetry).
Proof.
  intros T W fn maxRetries keeps Hkeeps w Hw.
  exact (retryLoop2_keeps fn maxRetries keeps Hkeeps _ 0 INITIAL_DELAY None w Hw).
Qed.

(** ** Word meanings *)

Section WordMeaningFacts.
Import ApiConfig WordMeaning.
Context {W : Type}.
Variable generateContent : string -> string -> W -> Settled (option string) Error * W.
Variable JSON_parse : string -> Settled Meaning Error.
Variable storage : gmap string string.

(** An attempt that fails leaves the cache as it was; one that succeeds
    adds its result under the word. *)
Lemma lookupOperation_cache (cw : string) (st st' : gmap string Meaning * W)
    (out : Settled Meaning Error) :
  lookupOperation generateContent JSON_parse storage cw st = (out, st') ->
  match out with
  | Rejected _ => st'.1 = st.1
  | Fulfilled v => st'.1 = <[cw := v]> st.1
  end.
Proof.
  unfold lookupOperation. destruct st as [cache w].
  destruct (getApiKey storage) as [|c k]; [intros [= <- <-]; reflexivity|].
  destruct (generateContent (String c k) cw w) as [[text|err] w'];
    [|intros [= <- <-]; reflexivity].
  destruct (JSON_parse (orElse text "{}")) as [result|err];
    intros [= <- <-]; reflexivity.
Qed.

(** What a call of [getWordMeaning] does to the cache. *)
Lemma getWordMeaning_cache (call : Orchestrator) (word : string)
    (cache : gmap string Meaning) (w : W) :
  respectsState call ->
  let r := getWordMeaning generateContent JSON_parse call storage word (cache, w) in
  match settled r with
  | Rejected _ => (world r).1 = cache
  | Fulfilled v =>
      (world r).1 !! cleanWord word = Some v
      /\ ((world r).1 = cache \/ (world r).1 = <[cleanWord word := v]> cache)
  end.
Proof.
  intros Hcall. cbv zeta. unfold getWordMeaning. cbn [fst].
  destruct (cache !! cleanWord word) as [cached|] eqn:Hhit.
  - cbn. auto.
  - pose proof (Hcall Meaning _
                  (lookupOperation generateContent JSON_parse storage (cleanWord word))
                  4 (fun st => st.1 = cache)) as H.
    cbv beta in H.
    assert (forall st err st',
              lookupOperation generateContent JSON_parse storage (cleanWord word) st
              = (Rejected err, st') -> st.1 = cache -> st'.1 = cache) as Hkeeps.
    { intros st err st' Hop Hst.
      pose proof (lookupOperation_cache _ _ _ _ Hop) as Hc. cbn in Hc. congruence. }
    specialize (H Hkeeps (cache, w) eq_refl).
    destruct (settled (call Meaning _ _ 4 (cache, w))) as [v|t]; [|exact H].
    destruct H as (st1 & Hst1 & Hop).
    pose proof (lookupOperation_cache _ _ _ _ Hop) as Hc. cbn in Hc.
    rewrite Hst1 in Hc. rewrite Hc. split; [apply lookup_insert_eq|right; reflexivity].
Qed.

End WordMeaningFacts.

(** X5.  A meaning that has been returned is remembered: after a call of
    [getWordMeaning] that gives a result for an ASCII word, every later
    call of the same copy of the service for an ASCII word with the same
    cleaned form gives the same result from the cache of that copy,
    without attempting the operation, whatever key is then stored. *)
Theorem getWordMeaning_remembers
    (W : Type)
    (generateContent : string -> string -> W -> Settled (option string) Error * W)
    (JSON_parse : string -> Settled WordMeaning.Meaning Error)
    (call : Orchestrator) (storage storage' : gmap string string)
    (word word' : string) (st : gmap string WordMeaning.Meaning * W)
    (v : WordMeaning.Meaning) :
  isAscii word ->
  isAscii word' ->
  call = @GeminiService.callWithRetry \/ call = @Part000.callWithRetry ->
  settled (WordMeaning.getWordMeaning generateContent JSON_parse call storage word st)
  = Fulfilled v ->
  WordMeaning.cleanWord word' = WordMeaning.cleanWord word ->
  let st' := world (WordMeaning.getWordMeaning generateContent JSON_parse call storage word st) in
  WordMeaning.getWordMeaning generateContent JSON_parse call storage' word' st'
  = mkRun (Fulfilled v) [] st'.
Proof.
  intros _ _ Hcall Hv Hsame st'. subst st'. destruct st as [cache w].
  assert (respectsState call) as Hr
    by (destruct Hcall as [-> | ->];
        [apply GeminiService_respectsState|apply Part000_respectsState]).
  pose proof (getWordMeaning_cache generateContent JSON_parse storage call word cache w Hr)
    as H.
  cbv zeta in H. rewrite Hv in H. destruct H as [Hhit _].
  unfold WordMeaning.getWordMeaning at 1. rewrite Hsame, Hhit. reflexivity.
Qed.

(** X6.  A call of [getWordMeaning] for an ASCII word that raises leaves
    the cache as it was, and one that gives a result changes it at most
    under the cleaned word. *)
Theorem getWordMeaning_changes_cache_only_on_success
    (W : Type)
    (generateContent : string -> string -> W -> Settled (option string) Error * W)
    (JSON_parse : string -> Settled WordMeaning.Meaning Error)
    (call : Orchestrator) (storage : gmap string string)
    (word : string) (cache : gmap string WordMeaning.Meaning) (w : W) :
  isAscii word ->
  call = @GeminiService.callWithRetry \/ call = @Part000.callWithRetry ->
  let r := WordMeaning.getWordMeaning generateContent JSON_parse call storage word (cache, w) in
  (forall t, settled r = Rejected t -> (world r).1 = cache)
  /\ (forall k, k <> WordMeaning.cleanWord word -> (world r).1 !! k = cache !! k).
Proof.
  intros _ Hcall r.
  assert (respectsState call) as Hr
    by (destruct Hcall as [-> | ->];
        [apply GeminiService_respectsState|apply Part000_respectsState]).
  pose proof (getWordMeaning_cache generateContent JSON_parse storage call word cache w Hr)
    as H.
  cbv zeta in H. fold r in H. split.
  - intros t Ht. rewrite Ht in H. exact H.
  - intros k Hk. destruct (settled r) as [v|t].
    + destruct H as [_ [-> | ->]]; [reflexivity|].
      apply lookup_insert_ne. congruence.
    + rewrite H. reflexivity.
Qed.

Lemma getWordMeaning_remembers_witness :
  let first := WordMeaning.getWordMeaning WordExamples.generateContent WordExamples.parse
                 (@GeminiService.callWithRetry) WordExamples.withKey "Apple!" (∅, 0%nat) in
  trace first = [Attempt; Wait 1500; Attempt]
  /\ WordMeaning.getWordMeaning WordExamples.generateContent WordExamples.parse
       (@GeminiService.callWithRetry) ∅ " apple" (world first)
     = mkRun (Fulfilled (WordMeaning.mkMeaning "apple" "" "")) [] (world first).
Proof.
  intros first. split; [reflexivity|].
  apply (getWordMeaning_remembers nat
           WordExamples.generateContent WordExamples.parse
           (@GeminiService.callWithRetry)
           WordExamples.withKey ∅ "Apple!" " apple" (∅, 0%nat)).
  - unfold isAscii. cbn. repeat constructor.
  - unfold isAscii. cbn. repeat constructor.
  - left. reflexivity.
  - reflexivity.
  - reflexivity.
Defined.

Lemma getWordMeaning_cache_witness :
  let r := WordMeaning.getWordMeaning WordExamples.generateContent WordExamples.parse
             (@Part000.callWithRetry) WordExamples.withKey "Apple!" (∅, 0%nat) in
  (forall t, settled r = Rejected t -> (world r).1 = ∅)
  /\ (forall k, k <> WordMeaning.cleanWord "Apple!" ->
        (world r).1 !! k = (∅ : gmap string WordMeaning.Meaning) !! k).
Proof.
  apply (getWordMeaning_changes_cache_only_on_success nat
           WordExamples.generateContent WordExamples.parse
           (@Part000.callWithRetry) WordExamples.withKey "Apple!" ∅ 0%nat).
  - unfold isAscii. cbn. repeat constructor.
  - right. reflexivity.
Defined.

(** X7.  Without a stored key, an ASCII word that is not in the cache is
    refused at once with the message that asks for the key: the operation
    runs once, the backend is not called, nothing is waited for and the
    cache is untouched. *)
Theorem getWordMeaning_without_key
    (W : Type)
    (generateContent : string -> string -> W -> Settled (option string) Error * W)
    (JSON_parse : string -> Settled WordMeaning.Meaning Error)
    (storage : gmap string string) (word : string)
    (cache : gmap string WordMeaning.Meaning) (w : W) :
  isAscii word ->
  ApiConfig.getApiKey storage = "" ->
  cache !! WordMeaning.cleanWord word = None ->
  WordMeaning.getWordMeaning generateContent JSON_parse
    (@GeminiService.callWithRetry) storage word (cache, w)
  = mkRun (Rejected (Rethrown (ApiConfig.newError ApiConfig.API_KEY_MISSING)))
          [Attempt] (cache, w)
  /\ WordMeaning.getWordMeaning generateContent JSON_parse
       (@Part000.callWithRetry) storage word (cache, w)
     = mkRun (Rejected (NewError ApiConfig.API_KEY_MISSING)) [Attempt] (cache, w).
Proof.
  intros _ Hkey Hmiss. unfold WordMeaning.getWordMeaning. cbn [fst]. rewrite Hmiss.
  unfold GeminiService.callWithRetry, Part000.callWithRetry.
  change (Z.to_nat 4) with 4%nat.
  rewrite retryLoop_step, retryLoop2_step.
  unfold WordMeaning.lookupOperation. rewrite Hkey. split; reflexivity.
Qed.

Lemma getWordMeaning_without_key_witness :
  WordMeaning.getWordMeaning WordExamples.generateContent WordExamples.parse
    (@GeminiService.callWithRetry) ∅ "apple" (∅, 0%nat)
  = mkRun (Rejected (Rethrown (ApiConfig.newError ApiConfig.API_KEY_MISSING)))
          [Attempt] (∅, 0%nat)
  /\ WordMeaning.getWordMeaning WordExamples.generateContent WordExamples.parse
       (@Part000.callWithRetry) ∅ "apple" (∅, 0%nat)
     = mkRun (Rejected (NewError ApiConfig.API_KEY_MISSING)) [Attempt] (∅, 0%nat).
Proof.
  apply (getWordMeaning_without_key nat WordExamples.generateContent WordExamples.parse
           ∅ "apple" ∅ 0%nat).
  - unfold isAscii. cbn. repeat constructor.
  - reflexivity.
  - reflexivity.
Defined.

(** ** Cleaning of words and of scripts *)

Module JsTextFacts.

Lemma allChars_cons (P : ascii -> Prop) c s :
  allChars P (String c s) <-> P c /\ allChars P s.
Proof. cbn [list_ascii_of_string]. apply Forall_cons. Qed.

Lemma lowerChar_idempotent (c : ascii) : lowerChar (lowerChar c) = lowerChar c.
Proof. destruct c as [[] [] [] [] [] [] [] []]; reflexivity. Qed.

Lemma toLowerCase_chars (s : string) :
  allChars (fun c => lowerChar c = c) (toLowerCase s).
Proof.
  induction s as [|c s IH]; cbn [toLowerCase]; [constructor|].
  apply allChars_cons. split; [apply lowerChar_idempotent|exact IH].
Qed.

Lemma toLowerCase_fixed (s : string) :
  allChars (fun c => lowerChar c = c) s -> toLowerCase s = s.
Proof.
  induction s as [|c s IH]; intros H; [reflexivity|].
  apply allChars_cons in H as [Hc Hs]. cbn [toLowerCase]. rewrite Hc, IH by exact Hs.
  reflexivity.
Qed.

Lemma removeAll_chars (p : ascii -> bool) (P : ascii -> Prop) (s : string) :
  allChars P s -> allChars (fun c => p c = false /\ P c) (removeAll p s).
Proof.
  induction s as [|c s IH]; intros H; [constructor|].
  apply allChars_cons in H as [Hc Hs]. cbn [removeAll].
  destruct (p c) eqn:Hp; [exact (IH Hs)|].
  apply allChars_cons. auto.
Qed.

Lemma removeAll_fixed (p : ascii -> bool) (s : string) :
  allChars (fun c => p c = false) s -> removeAll p s = s.
Proof.
  induction s as [|c s IH]; intros H; [reflexivity|].
  apply allChars_cons in H as [Hc Hs]. cbn [removeAll]. rewrite Hc, IH by exact Hs.
  reflexivity.
Qed.

Lemma trimStart_chars (P : ascii -> Prop) (s : string) :
  allChars P s -> allChars P (trimStart s).
Proof.
  induction s as [|c s IH]; intros H; [constructor|].
  cbn [trimStart]. destruct (isSpace c); [|exact H].
  apply allChars_cons in H as [_ Hs]. exact (IH Hs).
Qed.

Lemma trimEnd_chars (P : ascii -> Prop) (s : string) :
  allChars P s -> allChars P (trimEnd s).
Proof.
  induction s as [|c s IH]; intros H; [constructor|].
  apply allChars_cons in H as [Hc Hs]. specialize (IH Hs). cbn [trimEnd].
  destruct (trimEnd s) as [|d t].
  - destruct (isSpace c); [constructor|]. apply allChars_cons. split; [exact Hc|constructor].
  - apply allChars_cons. auto.
Qed.

Lemma trim_chars (P : ascii -> Prop) (s : string) :
  allChars P s -> allChars P (trim s).
Proof. intros H. apply trimEnd_chars, trimStart_chars, H. Qed.

Lemma trimStart_first (s : string) (c : ascii) :
  firstChar (trimStart s) = Some c -> isSpace c = false.
Proof.
  induction s as [|d s IH]; [discriminate|].
  cbn [trimStart]. destruct (isSpace d) eqn:Hd; [exact IH|].
  intros [= <-]. exact Hd.
Qed.

(** [trimEnd] keeps the first character unless it removes everything. *)
Lemma trimEnd_first (s : string) :
  trimEnd s = "" \/ firstChar (trimEnd s) = firstChar s.
Proof.
  destruct s as [|c s]; [left; reflexivity|].
  cbn [trimEnd]. destruct (trimEnd s) as [|d t].
  - destruct (isSpace c); [left|right]; reflexivity.
  - right. reflexivity.
Qed.

Lemma trimEnd_last (s : string) (c : ascii) :
  lastChar (trimEnd s) = Some c -> isSpace c = false.
Proof.
  induction s as [|d s IH]; [discriminate|].
  cbn [trimEnd]. destruct (trimEnd s) as [|e t].
  - destruct (isSpace d) eqn:Hd; [discriminate|]. intros [= <-]. exact Hd.
  - exact IH.
Qed.

Lemma trim_trimmed (s : string) : trimmed (trim s).
Proof.
  unfold trim, trimmed. split.
  - intros c Hc. destruct (trimEnd_first (trimStart s)) as [He|He].
    + rewrite He in Hc. discriminate Hc.
    + rewrite He in Hc. exact (trimStart_first s c Hc).
  - apply trimEnd_last.
Qed.

Lemma trimEnd_fixed (s : string) :
  (forall c, lastChar s = Some c -> isSpace c = false) -> trimEnd s = s.
Proof.
  induction s as [|c s IH]; intros H; [reflexivity|].
  cbn [trimEnd]. destruct s as [|d s].
  - cbn. rewrite (H c eq_refl). reflexivity.
  - rewrite IH by exact H. reflexivity.
Qed.

Lemma trim_fixed (s : string) : trimmed s -> trim s = s.
Proof.
  intros [Hfirst Hlast]. unfold trim.
  assert (trimStart s = s) as ->.
  { destruct s as [|c s]; [reflexivity|]. cbn [trimStart].
    rewrite (Hfirst c eq_refl). reflexivity. }
  apply trimEnd_fixed, Hlast.
Qed.

End JsTextFacts.

(** X8.  The cleaned form of a word, under which its meaning is cached, has
    no capital letter, none of the punctuation marks that are removed and no
    white space at its ends; cleaning it again changes nothing. *)
Theorem cleanWord_is_a_normal_form (word : string) :
  isAscii word ->
  WordMeaning.cleanWord (WordMeaning.cleanWord word) = WordMeaning.cleanWord word
  /\ Forall (fun c => WordMeaning.isPunctuation c = false /\ lowerChar c = c)
            (list_ascii_of_string (WordMeaning.cleanWord word))
  /\ trimmed (WordMeaning.cleanWord word).
Proof.
  intros _.
  assert (Forall (fun c => WordMeaning.isPunctuation c = false /\ lowerChar c = c)
            (list_ascii_of_string (WordMeaning.cleanWord word))) as Hchars.
  { unfold WordMeaning.cleanWord.
    apply JsTextFacts.trim_chars, JsTextFacts.removeAll_chars, JsTextFacts.toLowerCase_chars. }
  pose proof (JsTextFacts.trim_trimmed
                (removeAll WordMeaning.isPunctuation (toLowerCase word))) as Htrim.
  fold (WordMeaning.cleanWord word) in Htrim.
  split; [|split; assumption].
  unfold WordMeaning.cleanWord at 1.
  rewrite JsTextFacts.toLowerCase_fixed
    by (eapply Forall_impl; [exact Hchars|]; intros c [_ H]; exact H).
  rewrite JsTextFacts.removeAll_fixed
    by (eapply Forall_impl; [exact Hchars|]; intros c [H _]; exact H).
  apply JsTextFacts.trim_fixed, Htrim.
Qed.

Lemma cleanWord_witness :
  WordMeaning.cleanWord (WordMeaning.cleanWord " (Apple!) ") = WordMeaning.cleanWord " (Apple!) "
  /\ WordMeaning.cleanWord " (Apple!) " = "apple".
Proof.
  split; [|reflexivity].
  apply (cleanWord_is_a_normal_form " (Apple!) ").
  unfold isAscii. cbn. repeat constructor.
Defined.

Section CollapseFacts.
Variable p : ascii -> bool.
Variable r : ascii.

Lemma noTwoInARow_tail (q : ascii -> bool) c s :
  noTwoInARow q (String c s) -> noTwoInARow q s.
Proof. destruct s as [|d s]; [constructor|]. intros [_ H]. exact H. Qed.

Lemma noTwoInARow_cons (q : ascii -> bool) c s :
  (forall d, firstChar s = Some d -> q c && q d = false) ->
  noTwoInARow q s -> noTwoInARow q (String c s).
Proof.
  intros Hc Hs. destruct s as [|d s]; [constructor|].
  split; [apply Hc; reflexivity|exact Hs].
Qed.

(** Outside a run, the first character of the result is the first
    character of the text, or the replacement when that one is of the
    class. *)
Lemma collapseRuns_first (s : string) :
  firstChar (collapseRuns p r false s)
  = match firstChar s with
    | Some c => Some (if p c then r else c)
    | None => None
    end.
Proof. destruct s as [|c s]; [reflexivity|]. cbn. destruct (p c); reflexivity. Qed.

(** Inside a run, the result does not start with a character of the
    class. *)
Lemma collapseRuns_first_in_run (s : string) (d : ascii) :
  firstChar (collapseRuns p r true s) = Some d -> p d = false.
Proof.
  induction s as [|c s IH]; [discriminate|].
  cbn [collapseRuns]. destruct (p c) eqn:Hc; [exact IH|].
  intros [= <-]. exact Hc.
Qed.

(** After the replacement no two characters of the class are neighbours. *)
Lemma collapseRuns_noTwoInARow (b : bool) (s : string) :
  noTwoInARow p (collapseRuns p r b s).
Proof.
  revert b. induction s as [|c s IH]; intros b; [constructor|].
  cbn [collapseRuns]. destruct (p c) eqn:Hc.
  - destruct b; [apply IH|].
    apply noTwoInARow_cons; [|apply IH].
    intros d Hd. rewrite (collapseRuns_first_in_run s d Hd). apply andb_false_r.
  - apply noTwoInARow_cons; [|apply IH]. intros d _. rewrite Hc. reflexivity.
Qed.

(** Every character of the class left in the result is the replacement. *)
Lemma collapseRuns_chars (b : bool) (s : string) :
  allChars (fun c => p c = true -> c = r) (collapseRuns p r b s).
Proof.
  revert b. induction s as [|c s IH]; intros b; [constructor|].
  cbn [collapseRuns]. destruct (p c) eqn:Hc.
  - destruct b; [apply IH|]. cbn [list_ascii_of_string]. constructor; [reflexivity|apply IH].
  - cbn [list_ascii_of_string]. constructor; [congruence|apply IH].
Qed.

(** The replacement keeps apart what was apart: for a class [q] that
    contains neither the replacement nor a character of [p], neighbours of
    the class [q] in the result were neighbours in the text. *)
Lemma collapseRuns_keeps (q : ascii -> bool) (b : bool) (s : string) :
  q r = false ->
  noTwoInARow q s -> noTwoInARow q (collapseRuns p r b s).
Proof.
  intros Hr. revert b. induction s as [|c s IH]; intros b Hs; [constructor|].
  pose proof (noTwoInARow_tail q c s Hs) as Hs'.
  cbn [collapseRuns]. destruct (p c) eqn:Hc.
  - destruct b; [apply IH, Hs'|].
    apply noTwoInARow_cons; [|apply IH, Hs']. intros d _. rewrite Hr. reflexivity.
  - apply noTwoInARow_cons; [|apply IH, Hs'].
    intros d Hd. rewrite collapseRuns_first in Hd.
    destruct s as [|e s]; [discriminate|]. cbn in Hd.
    destruct (p e); injection Hd as <-.
    + rewrite Hr. apply andb_false_r.
    + destruct Hs as [He _]. exact He.
Qed.

(** A text that is already collapsed is left as it is. *)
Lemma collapseRuns_fixed (b : bool) (s : string) :
  (b = true -> forall d, firstChar s = Some d -> p d = false) ->
  noTwoInARow p s ->
  allChars (fun c => p c = true -> c = r) s ->
  collapseRuns p r b s = s.
Proof.
  revert b. induction s as [|c s IH]; intros b Hb Hs Hall; [reflexivity|].
  pose proof (noTwoInARow_tail p c s Hs) as Hs'.
  apply JsTextFacts.allChars_cons in Hall as [Hc Hall].
  cbn [collapseRuns]. destruct (p c) eqn:Hpc.
  - destruct b; [rewrite (Hb eq_refl c eq_refl) in Hpc; discriminate|].
    f_equal; [symmetry; exact (Hc eq_refl)|]. apply IH; [|exact Hs'|exact Hall].
    intros _ d Hd. destruct s as [|e s]; [discriminate|].
    injection Hd as <-. destruct Hs as [He _]. rewrite Hpc in He. exact He.
  - f_equal. apply IH; [discriminate|exact Hs'|exact Hall].
Qed.

End CollapseFacts.

Lemma trimStart_noTwoInARow (q : ascii -> bool) (s : string) :
  noTwoInARow q s -> noTwoInARow q (trimStart s).
Proof.
  induction s as [|c s IH]; intros H; [constructor|].
  cbn [trimStart]. destruct (isSpace c); [|exact H].
  apply IH. exact (noTwoInARow_tail q c s H).
Qed.

Lemma trimEnd_noTwoInARow (q : ascii -> bool) (s : string) :
  noTwoInARow q s -> noTwoInARow q (trimEnd s).
Proof.
  induction s as [|c s IH]; intros H; [constructor|].
  pose proof (IH (noTwoInARow_tail q c s H)) as IH'.
  cbn [trimEnd]. destruct (trimEnd s) as [|d t] eqn:Ht.
  - destruct (isSpace c); constructor.
  - apply noTwoInARow_cons; [|exact IH'].
    intros e He. destruct (JsTextFacts.trimEnd_first s) as [Hn|Hf];
      [rewrite Ht in Hn; discriminate|].
    rewrite Ht in Hf. rewrite He in Hf.
    destruct s as [|e' s]; [discriminate|]. injection Hf as ->.
    destruct H as [Hce _]. exact Hce.
Qed.

(** A script that is already clean is left as it is. *)
Lemma cleanPunctuation_fixed (text : string) :
  noTwoInARow App.isDot text ->
  noTwoInARow isSpace text ->
  Forall (fun c => isSpace c = true -> c = " "%char) (list_ascii_of_string text) ->
  trimmed text ->
  App.cleanPunctuation text = text.
Proof.
  intros Hdots Hspaces Honly Htrim. unfold App.cleanPunctuation.
  rewrite (collapseRuns_fixed App.isDot "."%char false text);
    [|discriminate|exact Hdots|].
  2:{ apply Forall_forall. intros c _ Hc. apply Ascii.eqb_eq in Hc. exact Hc. }
  rewrite (collapseRuns_fixed isSpace " "%char false text);
    [|discriminate|exact Hspaces|exact Honly].
  apply JsTextFacts.trim_fixed, Htrim.
Qed.

(** X9.  A cleaned script has no two full stops in a row and no two
    white-space characters in a row, its only white space is the space, it
    neither starts nor ends with white space, and cleaning it again changes
    nothing. *)
Theorem cleanPunctuation_normalises (text : string) :
  isAscii text ->
  noTwoInARow App.isDot (App.cleanPunctuation text)
  /\ noTwoInARow isSpace (App.cleanPunctuation text)
  /\ Forall (fun c => isSpace c = true -> c = " "%char)
            (list_ascii_of_string (App.cleanPunctuation text))
  /\ trimmed (App.cleanPunctuation text)
  /\ App.cleanPunctuation (App.cleanPunctuation text) = App.cleanPunctuation text.
Proof.
  intros _.
  assert (noTwoInARow App.isDot (App.cleanPunctuation text)) as Hdots.
  { apply trimEnd_noTwoInARow, trimStart_noTwoInARow.
    apply collapseRuns_keeps; [reflexivity|]. apply collapseRuns_noTwoInARow. }
  assert (noTwoInARow isSpace (App.cleanPunctuation text)) as Hspaces.
  { apply trimEnd_noTwoInARow, trimStart_noTwoInARow, collapseRuns_noTwoInARow. }
  assert (Forall (fun c => isSpace c = true -> c = " "%char)
            (list_ascii_of_string (App.cleanPunctuation text))) as Honly.
  { apply JsTextFacts.trim_chars, collapseRuns_chars. }
  pose proof (JsTextFacts.trim_trimmed
                (collapseRuns isSpace " "%char false
                   (collapseRuns App.isDot "."%char false text))) as Htrim.
  repeat (split; [assumption|]).
  apply cleanPunctuation_fixed; assumption.
Qed.

Lemma cleanPunctuation_witness :
  App.cleanPunctuation "  Hello...  world. . "  = "Hello. world. ."
  /\ App.cleanPunctuation (App.cleanPunctuation "  Hello...  world. . ")
     = App.cleanPunctuation "  Hello...  world. . ".
Proof.
  split; [reflexivity|].
  apply (cleanPunctuation_normalises "  Hello...  world. . ").
  unfold isAscii. cbn. repeat constructor.
Defined.

(** ** What the shell shows for an error *)

(** X10.  When [handleError] shows the busy message for an error, either
    both copies of the orchestrator classify the error as a rate-limit
    error, or the message of the error is the busy text itself.  The
    second case is that of the busy error that the revised orchestrator
    raises when the attempts are used up: it is shown with the busy
    message, and to the orchestrators it is a permanent error. *)
Theorem handleError_busy_message_origin (err : Error) :
  App.handleError err = Some App.SERVER_BUSY_TEXT ->
  ((GeminiService.classify err = Some TransientRateLimited
    /\ Part000.classify err = Some TransientRateLimited)
   \/ message err = Some Part000.SERVER_BUSY)
  /\ option_map App.handleError (App.caught (NewError Part000.SERVER_BUSY))
     = Some (Some App.SERVER_BUSY_TEXT)
  /\ GeminiService.classify (ApiConfig.newError Part000.SERVER_BUSY) = Some Permanent
  /\ Part000.classify (ApiConfig.newError Part000.SERVER_BUSY) = Some Permanent.
Proof.
  intros Hshown. split; [|split; [reflexivity|split; reflexivity]].
  unfold App.handleError in Hshown.
  destruct (json err) as [s|] eqn:Hjson; [|discriminate Hshown].
  destruct (App.looksBusy (orElse (message err) "") (toLowerCase s)) eqn:Hbusy.
  - left.
    assert (GeminiService.classify err = Some TransientRateLimited) as Hc.
    { unfold GeminiService.classify, GeminiService.isQuotaError. rewrite Hjson.
      unfold App.looksBusy in Hbusy.
      assert (match message err with Some m => includes m "429" | None => false end
              = includes (orElse (message err) "") "429") as ->
        by (destruct (message err) as [[|c m]|]; reflexivity).
      destruct (includes (orElse (message err) "") "429");
        destruct (includes (toLowerCase s) "quota");
        destruct (includes (toLowerCase s) "resource_exhausted");
        try discriminate Hbusy; rewrite ?orb_true_r; reflexivity. }
    split; [exact Hc|rewrite classify_agree; exact Hc].
  - right. injection Hshown as Hshown.
    destruct (message err) as [[|c m]|]; cbn [orElse] in Hshown.
    + discriminate Hshown.
    + rewrite Hshown. reflexivity.
    + discriminate Hshown.
Qed.

Lemma handleError_busy_witness :
  ((GeminiService.classify Examples.quotaError = Some TransientRateLimited
    /\ Part000.classify Examples.quotaError = Some TransientRateLimited)
   \/ message Examples.quotaError = Some Part000.SERVER_BUSY)
  /\ option_map App.handleError (App.caught (NewError Part000.SERVER_BUSY))
     = Some (Some App.SERVER_BUSY_TEXT)
  /\ GeminiService.classify (ApiConfig.newError Part000.SERVER_BUSY) = Some Permanent
  /\ Part000.classify (ApiConfig.newError Part000.SERVER_BUSY) = Some Permanent.
Proof.
  apply (handleError_busy_message_origin Examples.quotaError). reflexivity.
Defined.

(** The converse fails: an error known by its status only is retried by
    the orchestrator and shown with its own message. *)
Example handleError_status_only :
  GeminiService.classify Examples.busyError = Some TransientRateLimited
  /\ App.handleError Examples.busyError = Some "Too Many Requests".
Proof. split; reflexivity. Qed.

(** ** Levels and grades *)

Lemma gt_true (x b : Q) : Evaluation.gt (Some x) b = true <-> (b < x)%Q.
Proof.
  unfold Evaluation.gt. rewrite negb_true_iff, <- not_true_iff_false, Qle_bool_iff.
  split; [apply Qnot_le_lt|apply Qlt_not_le].
Qed.

Lemma gt_false (x b : Q) : Evaluation.gt (Some x) b = false <-> (x <= b)%Q.
Proof.
  unfold Evaluation.gt. rewrite negb_false_iff, Qle_bool_iff. reflexivity.
Qed.

Lemma ge_true (x b : Q) : Evaluation.ge (Some x) b = true <-> (b <= x)%Q.
Proof. unfold Evaluation.ge. apply Qle_bool_iff. Qed.

Lemma ge_false (x b : Q) : Evaluation.ge (Some x) b = false <-> (x < b)%Q.
Proof.
  unfold Evaluation.ge. rewrite <- not_true_iff_false, Qle_bool_iff.
  split; [apply Qnot_le_lt|apply Qlt_not_le].
Qed.

(** Case analysis on the comparisons of a score with the thresholds. *)
Ltac thresholds :=
  repeat match goal with
    | |- context [Evaluation.gt (Some ?x) ?b] =>
        let E := fresh "E" in
        destruct (Evaluation.gt (Some x) b) eqn:E;
        [apply gt_true in E|apply gt_false in E]
    | |- context [Evaluation.ge (Some ?x) ?b] =>
        let E := fresh "E" in
        destruct (Evaluation.ge (Some x) b) eqn:E;
        [apply ge_true in E|apply ge_false in E]
    end;
  cbn; try lia; try lra.

(** X11.  The level read from a score never goes down when the score goes
    up; it is one of the six levels from A1 to C2, C2 exactly above 9 and
    A1 exactly up to 2. *)
Theorem perceivedLevel_is_monotone (x y : Q) :
  (x <= y)%Q ->
  Evaluation.levelRank (Evaluation.perceivedLevel (Some x))
  <= Evaluation.levelRank (Evaluation.perceivedLevel (Some y))
  /\ 1 <= Evaluation.levelRank (Evaluation.perceivedLevel (Some x)) <= 6
  /\ (Evaluation.perceivedLevel (Some x) = "C2" <-> (9 < x)%Q)
  /\ (Evaluation.perceivedLevel (Some x) = "A1" <-> (x <= 2)%Q).
Proof.
  intros Hxy. unfold Evaluation.perceivedLevel. split; [|split; [|split]].
  - thresholds.
  - thresholds.
  - thresholds; split; intros H; try reflexivity; try discriminate H; try lra.
  - thresholds; split; intros H; try reflexivity; try discriminate H; try lra.
Qed.

Lemma perceivedLevel_witness :
  Evaluation.levelRank (Evaluation.perceivedLevel (Some 6.1%Q))
  <= Evaluation.levelRank (Evaluation.perceivedLevel (Some 8.5%Q))
  /\ 1 <= Evaluation.levelRank (Evaluation.perceivedLevel (Some 6.1%Q)) <= 6
  /\ (Evaluation.perceivedLevel (Some 6.1%Q) = "C2" <-> (9 < 6.1)%Q)
  /\ (Evaluation.perceivedLevel (Some 6.1%Q) = "A1" <-> (6.1 <= 2)%Q).
Proof.
  apply (perceivedLevel_is_monotone 6.1%Q 8.5%Q). unfold Qle. cbn. lia.
Defined.

(** X12.  The stars of the certificate never go down when the score goes
    up and are between one and five; a score whose level is C1 or C2 gets
    at least four stars, and five stars go to a level of C1 or C2 only. *)
Theorem getGradeInfo_stars (x y : Q) :
  (x <= y)%Q ->
  Evaluation.stars (Evaluation.getGradeInfo (Some x))
  <= Evaluation.stars (Evaluation.getGradeInfo (Some y))
  /\ 1 <= Evaluation.stars (Evaluation.getGradeInfo (Some x)) <= 5
  /\ (5 <= Evaluation.levelRank (Evaluation.perceivedLevel (Some x)) ->
        4 <= Evaluation.stars (Evaluation.getGradeInfo (Some x)))
  /\ (Evaluation.stars (Evaluation.getGradeInfo (Some x)) = 5 ->
        5 <= Evaluation.levelRank (Evaluation.perceivedLevel (Some x))).
Proof.
  intros Hxy. unfold Evaluation.getGradeInfo, Evaluation.perceivedLevel.
  split; [|split; [|split]].
  - thresholds.
  - thresholds.
  - thresholds; intros H; try lia; try lra.
  - thresholds; intros H; try lia; try lra.
Qed.

Lemma getGradeInfo_witness :
  Evaluation.stars (Evaluation.getGradeInfo (Some 7%Q))
  <= Evaluation.stars (Evaluation.getGradeInfo (Some 9%Q))
  /\ 1 <= Evaluation.stars (Evaluation.getGradeInfo (Some 7%Q)) <= 5
  /\ (5 <= Evaluation.levelRank (Evaluation.perceivedLevel (Some 7%Q)) ->
        4 <= Evaluation.stars (Evaluation.getGradeInfo (Some 7%Q)))
  /\ (Evaluation.stars (Evaluation.getGradeInfo (Some 7%Q)) = 5 ->
        5 <= Evaluation.levelRank (Evaluation.perceivedLevel (Some 7%Q))).
Proof.
  apply (getGradeInfo_stars 7%Q 9%Q). unfold Qle. cbn. lia.
Defined.

(** ** The stored configuration *)

Section ConfigFacts.
Import ApiConfig.

Lemma config_items_differ : API_KEY_ITEM <> SELECTED_MODEL_ITEM.
Proof. discriminate. Qed.

Lemma orElse_truthy (x : option string) (dflt : string) :
  orElse x dflt = if truthy x then orElse x "" else dflt.
Proof. destruct x as [[|c s]|]; reflexivity. Qed.

(** X13.  After [saveApiConfig(apiKey, model)], [getApiKey] gives the saved
    key, also when it is empty, and [getSelectedModel] gives the saved
    model, or the default model when the saved one is empty.  No other item
    of the storage changes, and an [initializeGeminiChat] with the same
    arguments, as the shell calls it next, changes nothing more. *)
Theorem saveApiConfig_is_read_back
    (apiKey model : string) (storage : gmap string string) :
  let storage' := saveApiConfig apiKey model storage in
  getApiKey storage' = apiKey
  /\ getSelectedModel storage'
     = (if String.eqb model "" then TEXT_MODEL_PRIMARY else model)
  /\ (forall item, item <> API_KEY_ITEM -> item <> SELECTED_MODEL_ITEM ->
        storage' !! item = storage !! item)
  /\ initializeGeminiChat (Some apiKey) (Some model) storage' = storage'.
Proof.
  cbv zeta. unfold saveApiConfig, getApiKey, getSelectedModel.
  split; [|split; [|split]].
  - rewrite lookup_insert_ne by (symmetry; exact config_items_differ).
    rewrite lookup_insert_eq. destruct apiKey; reflexivity.
  - rewrite lookup_insert_eq. destruct model; reflexivity.
  - intros item Hk Hm. rewrite !lookup_insert_ne by congruence. reflexivity.
  - unfold initializeGeminiChat.
    assert (forall s : gmap string string,
              (if truthy (Some apiKey) then <[API_KEY_ITEM := orElse (Some apiKey) ""]> s else s)
              = <[API_KEY_ITEM := apiKey]> s
              \/ (if truthy (Some apiKey) then <[API_KEY_ITEM := orElse (Some apiKey) ""]> s else s)
                 = s) as Hkey
      by (intros s; destruct apiKey; [right|left]; reflexivity).
    assert (forall s : gmap string string,
              (if truthy (Some model) then <[SELECTED_MODEL_ITEM := orElse (Some model) ""]> s else s)
              = <[SELECTED_MODEL_ITEM := model]> s
              \/ (if truthy (Some model) then <[SELECTED_MODEL_ITEM := orElse (Some model) ""]> s else s)
                 = s) as Hmodel
      by (intros s; destruct model; [right|left]; reflexivity).
    assert (<[API_KEY_ITEM := apiKey]>
              (<[SELECTED_MODEL_ITEM := model]> (<[API_KEY_ITEM := apiKey]> storage))
            = <[SELECTED_MODEL_ITEM := model]> (<[API_KEY_ITEM := apiKey]> storage))
      as Hsame.
    { apply insert_id. rewrite lookup_insert_ne by (symmetry; exact config_items_differ).
      apply lookup_insert_eq. }
    destruct (Hkey (<[SELECTED_MODEL_ITEM := model]> (<[API_KEY_ITEM := apiKey]> storage)))
      as [-> | ->]; rewrite ?Hsame;
      destruct (Hmodel (<[SELECTED_MODEL_ITEM := model]> (<[API_KEY_ITEM := apiKey]> storage)))
        as [-> | ->]; rewrite ?insert_insert_eq; reflexivity.
Qed.

(** X14.  [initializeGeminiChat] stores the arguments that are given and not
    empty, and leaves the stored value of the others: an absent or empty
    key does not erase the stored key, and likewise for the model.  No
    other item of the storage changes. *)
Theorem initializeGeminiChat_keeps_what_is_not_given
    (apiKey model : option string) (storage : gmap string string) :
  let storage' := initializeGeminiChat apiKey model storage in
  getApiKey storage' = orElse apiKey (getApiKey storage)
  /\ getSelectedModel storage' = orElse model (getSelectedModel storage)
  /\ (truthy apiKey = false -> truthy model = false -> storage' = storage)
  /\ (forall item, item <> API_KEY_ITEM -> item <> SELECTED_MODEL_ITEM ->
        storage' !! item = storage !! item).
Proof.
  cbv zeta. unfold initializeGeminiChat, getApiKey, getSelectedModel.
  pose proof config_items_differ as Hd.
  split; [|split; [|split]].
  - destruct apiKey as [[|c k]|], model as [[|c' m]|]; cbn [truthy orElse];
      rewrite ?(lookup_insert_ne _ SELECTED_MODEL_ITEM API_KEY_ITEM) by congruence;
      rewrite ?lookup_insert_eq; reflexivity.
  - destruct apiKey as [[|c k]|], model as [[|c' m]|]; cbn [truthy orElse];
      rewrite ?lookup_insert_eq;
      rewrite ?(lookup_insert_ne _ API_KEY_ITEM SELECTED_MODEL_ITEM) by congruence;
      reflexivity.
  - intros -> ->. reflexivity.
  - intros item Hk Hm.
    destruct (truthy apiKey), (truthy model);
      rewrite ?lookup_insert_ne by congruence; reflexivity.
Qed.

End ConfigFacts.

(** ** Reading back what was written to the lesson history *)

Lemma filter_all {A} (f : A -> bool) (l : list A) :
  Forall (fun x => f x = true) l -> List.filter f l = l.
Proof.
  induction 1 as [|x l Hx _ IH]; cbn [List.filter]; [reflexivity|].
  rewrite Hx, IH. reflexivity.
Qed.

Lemma filter_kept {A} (f : A -> bool) (l : list A) :
  Forall (fun x => f x = true) (List.filter f l).
Proof. apply List.Forall_forall. intros x Hx. apply filter_In in Hx. tauto. Qed.

Section HistoryWritesFacts.
Import HistoryService HistoryWrites.
Variable host : Host.

(** The records that a read returns are not expired at the time of the
    read. *)
Lemma getLessonHistory_kept (now : Z) (store : Storage) :
  Forall (fun r => notExpired host now r = true) (getLessonHistory host now store).1.
Proof.
  unfold getLessonHistory.
  destruct (store !! STORAGE_KEY) as [[|c data]|]; cbn [fst]; try constructor.
  destruct (JSON_parse host _) as [[records|]|]; cbn [fst]; try constructor.
  destruct (negb _); cbn [fst]; apply filter_kept.
Qed.

(** A read changes no other item of the storage. *)
Lemma getLessonHistory_other_items (now : Z) (store : Storage) (item : string) :
  item <> STORAGE_KEY ->
  (getLessonHistory host now store).2 !! item = store !! item.
Proof.
  intros Hne. unfold getLessonHistory.
  destruct (store !! STORAGE_KEY) as [[|c data]|]; cbn [snd]; try reflexivity.
  destruct (JSON_parse host _) as [[records|]|]; cbn [snd]; try reflexivity.
  destruct (negb _); cbn [snd]; [|reflexivity].
  apply lookup_insert_ne. congruence.
Qed.

(** A read of the storage in which the array [l] was just written. *)
Lemma getLessonHistory_written (now : Z) (store : Storage) (l : list LessonRecord) :
  readsBack host l ->
  (getLessonHistory host now (<[STORAGE_KEY := JSON_stringify host l]> store)).1
  = List.filter (notExpired host now) l
  /\ (Forall (fun r => notExpired host now r = true) l ->
        getLessonHistory host now (<[STORAGE_KEY := JSON_stringify host l]> store)
        = (l, <[STORAGE_KEY := JSON_stringify host l]> store)).
Proof.
  intros [Hne Hparse].
  rewrite (getLessonHistory_records host now _ (JSON_stringify host l) l
             (lookup_insert_eq _ _ _) Hne Hparse).
  split; [reflexivity|]. intros Hall.
  rewrite (filter_all _ _ Hall), Nat.eqb_refl. reflexivity.
Qed.

(** X15.  A lesson saved with [saveLessonRecord] is read back: a read at
    the time of the read that the save made gives the lessons that the
    save found, in their order, followed by the new one, and writes
    nothing; a read up to seven days after the date of the new lesson
    still ends with it.  The save changes no other item of the storage.
    The host's [JSON] is assumed to give back the array it wrote, and
    [saved] to be the time of the date text of the new lesson. *)
Theorem saveLessonRecord_is_read_back
    (now idNow saved : Z) (isoNow randomSuffix theme level childName : string)
    (evaluation : EvaluationResult) (duration : Q) (store : Storage) :
  let history := (getLessonHistory host now store).1 in
  let result := saveLessonRecord host now idNow isoNow randomSuffix theme level
                  childName evaluation duration store in
  Date_getTime host isoNow = Some saved ->
  readsBack host (history ++ [result.1]) ->
  (now - saved <= 7 * MS_PER_DAY ->
     getLessonHistory host now result.2 = (history ++ [result.1], result.2))
  /\ (forall later,
        later - saved <= 7 * MS_PER_DAY ->
        (getLessonHistory host later result.2).1
        = List.filter (notExpired host later) history ++ [result.1])
  /\ (forall item, item <> STORAGE_KEY -> result.2 !! item = store !! item).
Proof.
  cbv zeta. unfold saveLessonRecord.
  pose proof (getLessonHistory_kept now store) as Hkept.
  pose proof (getLessonHistory_other_items now store) as Hother.
  destruct (getLessonHistory host now store) as [history store1].
  cbn [fst snd] in *. intros Hdate Hback.
  set (record := newRecord idNow isoNow randomSuffix theme level childName
                   evaluation duration) in *.
  assert (forall later, later - saved <= 7 * MS_PER_DAY ->
            notExpired host later record = true) as Hfresh.
  { intros later Hlater. apply notExpired_iff. exists saved.
    split; [exact Hdate|exact Hlater]. }
  destruct (getLessonHistory_written now store1 _ Hback) as [_ Hsame].
  split; [|split].
  - intros Hnow. apply Hsame. apply Forall_app. split; [exact Hkept|].
    constructor; [|constructor]. apply Hfresh, Hnow.
  - intros later Hlater.
    destruct (getLessonHistory_written later store1 _ Hback) as [-> _].
    rewrite List.filter_app. cbn [List.filter]. rewrite (Hfresh later Hlater). reflexivity.
  - intros item Hne. rewrite lookup_insert_ne by congruence. apply Hother, Hne.
Qed.

End HistoryWritesFacts.

Lemma saveLessonRecord_witness :
  let store := ExampleHost.storeOf [ExampleHost.yesterday; ExampleHost.today] in
  let result := HistoryWrites.saveLessonRecord HistoryExamples.host
                  (ExampleHost.now + 2) (ExampleHost.now + 1)
                  HistoryExamples.isoNow "k3x9q2m1z" "Animals" "A1" "Mai"
                  HistoryExamples.evaluation 90 store in
  HistoryService.getLessonHistory HistoryExamples.host (ExampleHost.now + 2) result.2
  = ([ExampleHost.yesterday; ExampleHost.today; HistoryExamples.saved], result.2).
Proof.
  intros store result.
  refine (proj1 (saveLessonRecord_is_read_back HistoryExamples.host
                   (ExampleHost.now + 2) (ExampleHost.now + 1) ExampleHost.now
                   HistoryExamples.isoNow "k3x9q2m1z" "Animals" "A1" "Mai"
                   HistoryExamples.evaluation 90 store _ _) _).
  - reflexivity.
  - split; [discriminate|reflexivity].
  - unfold HistoryService.MS_PER_DAY. lia.
Defined.

(** X16.  After [deleteLessonRecord(id)] a read gives the lessons that the
    deletion found, in their order, without those of that identifier, and
    writes nothing; when no lesson found has the identifier the lessons are
    the same.  The host's [JSON] is assumed to give back the array it
    wrote. *)
Theorem deleteLessonRecord_removes_the_lesson
    (host : HistoryService.Host) (now : Z) (target : string)
    (store : gmap string string) :
  let history := (HistoryService.getLessonHistory host now store).1 in
  let remaining :=
    List.filter (fun l => negb (String.eqb (HistoryService.id l) target)) history in
  let store' := HistoryWrites.deleteLessonRecord host now target store in
  HistoryWrites.readsBack host remaining ->
  HistoryService.getLessonHistory host now store' = (remaining, store')
  /\ Forall (fun l => HistoryService.id l <> target) remaining
  /\ (forall l, In l history -> HistoryService.id l <> target -> In l remaining)
  /\ (Forall (fun l => HistoryService.id l <> target) history -> remaining = history)
  /\ (forall item, item <> HistoryService.STORAGE_KEY -> store' !! item = store !! item).
Proof.
  cbv zeta. unfold HistoryWrites.deleteLessonRecord.
  pose proof (getLessonHistory_kept host now store) as Hkept.
  pose proof (getLessonHistory_other_items host now store) as Hother.
  destruct (HistoryService.getLessonHistory host now store) as [history store1].
  cbn [fst snd] in *. intros Hback.
  destruct (getLessonHistory_written host now store1 _ Hback) as [_ Hsame].
  split; [|split; [|split; [|split]]].
  - apply Hsame. apply List.Forall_forall. intros r Hr. apply filter_In in Hr as [Hr _].
    rewrite List.Forall_forall in Hkept. apply Hkept, Hr.
  - apply List.Forall_forall. intros r Hr. apply filter_In in Hr as [_ Hr].
    apply negb_true_iff, String.eqb_neq in Hr. exact Hr.
  - intros l Hl Hid. apply filter_In. split; [exact Hl|].
    apply negb_true_iff, String.eqb_neq. exact Hid.
  - intros Hall. apply filter_all. eapply Forall_impl; [exact Hall|].
    intros l Hid. apply negb_true_iff, String.eqb_neq. exact Hid.
  - intros item Hne. rewrite lookup_insert_ne by congruence. apply Hother, Hne.
Qed.

Lemma deleteLessonRecord_witness :
  let store := ExampleHost.storeOf [ExampleHost.yesterday; ExampleHost.today] in
  let store' := HistoryWrites.deleteLessonRecord ExampleHost.host ExampleHost.now
                  "yesterday" store in
  HistoryService.getLessonHistory ExampleHost.host ExampleHost.now store'
  = ([ExampleHost.today], store').
Proof.
  intros store store'.
  refine (proj1 (deleteLessonRecord_removes_the_lesson ExampleHost.host ExampleHost.now
                   "yesterday" store _)).
  split; [discriminate|reflexivity].
Defined.

(** X17.  After [clearHistory] a read gives no lesson and writes nothing,
    and the streak is zero; the other items of the storage, the stored key
    among them, are as before.  A lesson saved next is the only one in the
    written array, whatever the history held before. *)
Theorem clearHistory_forgets_every_lesson
    (host : HistoryService.Host) (now : Z) (store : gmap string string) :
  let store' := HistoryWrites.clearHistory store in
  HistoryService.getLessonHistory host now store' = ([], store')
  /\ HistoryService.getDailyStreak host now store' = (0, store')
  /\ (forall item, item <> HistoryService.STORAGE_KEY -> store' !! item = store !! item)
  /\ ApiConfig.getApiKey store' = ApiConfig.getApiKey store
  /\ (forall idNow isoNow randomSuffix theme level childName evaluation duration,
        (HistoryWrites.saveLessonRecord host now idNow isoNow randomSuffix theme level
           childName evaluation duration store').2
        = <[HistoryService.STORAGE_KEY
              := HistoryService.JSON_stringify host
                   [HistoryWrites.newRecord idNow isoNow randomSuffix theme level
                      childName evaluation duration]]> store).
Proof.
  cbv zeta. unfold HistoryWrites.clearHistory.
  assert (HistoryService.getLessonHistory host now (delete HistoryService.STORAGE_KEY store)
          = ([], delete HistoryService.STORAGE_KEY store)) as Hread.
  { apply getLessonHistory_unreadable. left. apply lookup_delete_eq. }
  split; [exact Hread|]. split; [|split; [|split]].
  - unfold HistoryService.getDailyStreak, HistoryService.getLessonsGroupedByDay.
    rewrite Hread. cbn [fold_left]. f_equal.
    apply streakOf_none.
    eapply Forall_impl; [apply toDayGroup_no_lessons, lastSevenDays_no_lessons|].
    intros g [Hg _]. exact Hg.
  - intros item Hne. apply lookup_delete_ne. congruence.
  - unfold ApiConfig.getApiKey. rewrite lookup_delete_ne by discriminate. reflexivity.
  - intros. unfold HistoryWrites.saveLessonRecord. rewrite Hread.
    cbn [fst snd app]. apply insert_delete_eq.
Qed.

(** ** The views of the lesson history *)

Section GroupingFacts.
Import HistoryService HistoryWrites.
Context {V : Type}.

Lemma mapSet_keys (m : list (string * V)) (k : string) (v : V) :
  map fst (mapSet m k v)
  = if existsb (String.eqb k) (map fst m) then map fst m else map fst m ++ [k].
Proof.
  induction m as [|[k' v'] m IH]; cbn [mapSet map fst existsb]; [reflexivity|].
  destruct (String.eqb k k') eqn:E; cbn [orb map fst].
  - apply String.eqb_eq in E. subst k'. reflexivity.
  - rewrite IH. destruct (existsb _ _); reflexivity.
Qed.

Lemma existsb_eqb_In (k : string) (ks : list string) :
  existsb (String.eqb k) ks = true <-> In k ks.
Proof.
  rewrite existsb_exists. split.
  - intros (x & Hx & E). apply String.eqb_eq in E. subst x. exact Hx.
  - intros Hk. exists k. split; [exact Hk|apply String.eqb_refl].
Qed.

Lemma mapSet_NoDup (m : list (string * V)) (k : string) (v : V) :
  List.NoDup (map fst m) -> List.NoDup (map fst (mapSet m k v)).
Proof.
  intros Hnd. rewrite mapSet_keys.
  destruct (existsb _ _) eqn:E; [exact Hnd|].
  apply List.NoDup_app; [exact Hnd|repeat constructor; intros []|].
  intros x Hx [<-|[]]. apply existsb_eqb_In in Hx. congruence.
Qed.

Lemma mapSet_length (m : list (string * V)) (k : string) (v : V) :
  (length m <= length (mapSet m k v) <= S (length m))%nat.
Proof.
  rewrite <- !(length_map fst), mapSet_keys.
  destruct (existsb _ _); rewrite ?length_app; cbn [length]; lia.
Qed.

(** A key that the map does not have is added at the end. *)
Lemma mapSet_fresh (m : list (string * V)) (k : string) (v : V) :
  ~ In k (map fst m) -> mapSet m k v = m ++ [(k, v)].
Proof.
  induction m as [|[k' v'] m IH]; cbn [mapSet map fst app]; [reflexivity|].
  intros Hk. destruct (String.eqb k k') eqn:E.
  - apply String.eqb_eq in E. subst k'. exfalso. apply Hk. left. reflexivity.
  - rewrite IH; [reflexivity|]. intros Hin. apply Hk. right. exact Hin.
Qed.

End GroupingFacts.

Section GroupedFacts.
Import HistoryService HistoryWrites.

Lemma mapPush_keys (m : list (string * list LessonRecord)) (k : string) (x : LessonRecord) :
  map fst (mapPush m k x) = map fst m.
Proof.
  induction m as [|[k' v'] m IH]; cbn [mapPush map fst]; [reflexivity|].
  destruct (String.eqb k k'); cbn [map fst]; [reflexivity|]. rewrite IH. reflexivity.
Qed.

(** With distinct keys, a push adds the lesson to the day of its key and to
    no other. *)
Lemma mapPush_spec (m : list (string * list LessonRecord)) (k : string) (x : LessonRecord) :
  List.NoDup (map fst m) ->
  mapPush m k x
  = map (fun e => (e.1, if String.eqb k e.1 then e.2 ++ [x] else e.2)) m.
Proof.
  induction m as [|[k' v'] m IH]; cbn [mapPush map fst snd]; [reflexivity|].
  intros Hnd. inversion_clear Hnd as [|? ? Hk Hm].
  destruct (String.eqb k k') eqn:E.
  - f_equal. apply String.eqb_eq in E. subst k'.
    transitivity (map (fun e : string * list LessonRecord => e) m);
      [symmetry; apply List.map_id|].
    apply map_ext_in. intros [k2 v2] Hin. cbn [fst snd].
    destruct (String.eqb k k2) eqn:E2; [|reflexivity].
    apply String.eqb_eq in E2. subst k2. exfalso. apply Hk.
    apply in_map_iff. exists (k, v2). split; [reflexivity|exact Hin].
  - f_equal. apply IH, Hm.
Qed.

Lemma fold_mapPush (key : LessonRecord -> string) (history : list LessonRecord) :
  forall m : list (string * list LessonRecord),
    List.NoDup (map fst m) ->
    fold_left (fun grouped lesson => mapPush grouped (key lesson) lesson) history m
    = map (fun e => (e.1, e.2 ++ List.filter (fun l => String.eqb (key l) e.1) history)) m.
Proof.
  induction history as [|x history IH]; intros m Hnd; cbn [fold_left List.filter].
  - transitivity (map (fun e : string * list LessonRecord => e) m);
      [symmetry; apply List.map_id|].
    apply map_ext. intros [k v]. cbn [fst snd]. rewrite app_nil_r. reflexivity.
  - rewrite IH by (rewrite mapPush_keys; exact Hnd).
    rewrite (mapPush_spec m _ _ Hnd), map_map. apply map_ext. intros [k v].
    cbn [fst snd]. destruct (String.eqb (key x) k); [rewrite <- app_assoc|]; reflexivity.
Qed.

Lemma fold_mapSet_length {V} (f : Z -> string) (v : V) (l : list Z) :
  forall m : list (string * V),
    (length m <= length (fold_left (fun g i => mapSet g (f i) v) l m)
     <= length m + length l)%nat.
Proof.
  induction l as [|i l IH]; intros m; cbn [fold_left length]; [lia|].
  specialize (IH (mapSet m (f i) v)). pose proof (mapSet_length m (f i) v). lia.
Qed.

Lemma fold_mapSet_NoDup {V} (f : Z -> string) (v : V) (l : list Z) :
  forall m : list (string * V),
    List.NoDup (map fst m) ->
    List.NoDup (map fst (fold_left (fun g i => mapSet g (f i) v) l m)).
Proof.
  induction l as [|i l IH]; intros m Hnd; cbn [fold_left]; [exact Hnd|].
  apply IH, mapSet_NoDup, Hnd.
Qed.

Lemma fold_mapSet_fresh {V} (f : Z -> string) (v : V) (l : list Z) :
  forall m : list (string * V),
    List.NoDup (map fst m ++ map f l) ->
    fold_left (fun g i => mapSet g (f i) v) l m = m ++ map (fun i => (f i, v)) l.
Proof.
  induction l as [|i l IH]; intros m Hnd; cbn [fold_left map].
  - rewrite app_nil_r. reflexivity.
  - cbn [map] in Hnd. rewrite mapSet_fresh.
    + rewrite IH.
      * rewrite <- app_assoc. reflexivity.
      * rewrite map_app, <- app_assoc. exact Hnd.
    + intros Hin. apply List.NoDup_remove_2 in Hnd. apply Hnd.
      apply in_or_app. left. exact Hin.
Qed.

Variable host : Host.
Variable now : Z.

Lemma lastSevenDays_keys :
  List.NoDup (map fst (lastSevenDays host now))
  /\ (1 <= length (lastSevenDays host now) <= 7)%nat.
Proof.
  unfold lastSevenDays. split.
  - apply fold_mapSet_NoDup. constructor.
  - exact (fold_mapSet_length (Date_dayKey host now) ([] : list LessonRecord)
             [5; 4; 3; 2; 1; 0] [(Date_dayKey host now 6, [])]).
Qed.

(** The grouped view, from the lessons that the read returns. *)
Lemma getLessonsGroupedByDay_spec (store : Storage) :
  (getLessonsGroupedByDay host now store).1
  = map (fun e => toDayGroup (e.1, List.filter (onDay e.1) (getLessonHistory host now store).1))
        (lastSevenDays host now).
Proof.
  unfold getLessonsGroupedByDay.
  destruct (getLessonHistory host now store) as [history store']. cbn [fst].
  rewrite (fold_mapPush (fun l => beforeT (date l)) history _ (proj1 lastSevenDays_keys)).
  rewrite map_map. apply map_ext_in. intros [k v] Hin. cbn [fst snd].
  pose proof (lastSevenDays_no_lessons host now) as Hnone.
  rewrite List.Forall_forall in Hnone. specialize (Hnone _ Hin). cbn [snd] in Hnone.
  subst v. reflexivity.
Qed.

End GroupedFacts.

(** X18.  The grouped view has one group for each distinct key of the last
    seven days, at least one and at most seven, in the order in which the
    keys are first computed, from six days back to today; seven groups
    when the seven keys differ.  A group lists, in the order of the
    history, exactly the lessons read whose date text before its first [T]
    is the key of the group; the lessons of other days are in no group. *)
Theorem getLessonsGroupedByDay_groups_by_day
    (host : HistoryService.Host) (now : Z) (store : gmap string string) :
  let history := (HistoryService.getLessonHistory host now store).1 in
  let groups := (HistoryService.getLessonsGroupedByDay host now store).1 in
  map HistoryService.dayDate groups = map fst (HistoryService.lastSevenDays host now)
  /\ List.NoDup (map HistoryService.dayDate groups)
  /\ (1 <= length groups <= 7)%nat
  /\ Forall (fun g => HistoryService.lessons g
                      = List.filter (HistoryWrites.onDay (HistoryService.dayDate g)) history)
            groups
  /\ (List.NoDup (map (HistoryService.Date_dayKey host now) [6; 5; 4; 3; 2; 1; 0]) ->
        map HistoryService.dayDate groups
        = map (HistoryService.Date_dayKey host now) [6; 5; 4; 3; 2; 1; 0]).
Proof.
  cbv zeta. rewrite getLessonsGroupedByDay_spec.
  destruct (lastSevenDays_keys host now) as [Hnd Hlen].
  assert (map HistoryService.dayDate
            (map (fun e => HistoryService.toDayGroup
                             (e.1, List.filter (HistoryWrites.onDay e.1)
                                     (HistoryService.getLessonHistory host now store).1))
                 (HistoryService.lastSevenDays host now))
          = map fst (HistoryService.lastSevenDays host now)) as Hkeys.
  { rewrite map_map. apply map_ext. intros [k v]. reflexivity. }
  rewrite Hkeys. split; [reflexivity|]. split; [exact Hnd|].
  split; [rewrite length_map; exact Hlen|]. split.
  - apply List.Forall_forall. intros g Hg. apply in_map_iff in Hg as ([k v] & <- & _).
    reflexivity.
  - intros Hdistinct. unfold HistoryService.lastSevenDays.
    rewrite fold_mapSet_fresh by exact Hdistinct.
    cbn [app]. rewrite map_map. reflexivity.
Qed.

Section StreakBounds.
Import HistoryService HistoryWrites.

Lemma activeRun_le (days : list DayGroup) :
  activeRun days <= Z.of_nat (length (List.filter hasLessons days)).
Proof.
  induction days as [|g days IH]; cbn [activeRun List.filter]; [lia|].
  destruct (hasLessons g); cbn [length]; lia.
Qed.

Lemma filter_rev_length {A} (f : A -> bool) (l : list A) :
  length (List.filter f (rev l)) = length (List.filter f l).
Proof.
  induction l as [|x l IH]; [reflexivity|].
  cbn [rev List.filter]. rewrite List.filter_app, length_app, IH. cbn [List.filter].
  destruct (f x); cbn [length]; lia.
Qed.

(** The streak counts days with lessons. *)
Lemma streakOf_le (grouped : list DayGroup) :
  0 <= streakOf grouped <= Z.of_nat (length (List.filter hasLessons grouped)).
Proof.
  destruct grouped as [|today older _] using rev_ind; [cbn; lia|].
  rewrite streakOf_snoc, List.filter_app, length_app.
  pose proof (activeRun_nonneg (rev older)).
  pose proof (activeRun_le (rev older)) as Hle. rewrite filter_rev_length in Hle.
  cbn [List.filter]. destruct (hasLessons today); cbn [length]; lia.
Qed.

Lemma hasLessons_le (groups : list DayGroup) :
  (length (List.filter hasLessons groups) <= length groups)%nat
  /\ (length (List.filter hasLessons groups) <= length (lessonsOf groups))%nat.
Proof.
  unfold lessonsOf.
  induction groups as [|g groups [IH1 IH2]]; cbn [List.filter map concat length]; [lia|].
  rewrite length_app.
  destruct (hasLessons g) eqn:E; cbn [length].
  - unfold hasLessons in E. apply Nat.ltb_lt in E. lia.
  - lia.
Qed.

(** Each lesson is in at most one of the groups of distinct keys. *)
Lemma grouped_lessons_le (history : list LessonRecord) (keys : list string) :
  List.NoDup keys ->
  (length (concat (map (fun k => List.filter (onDay k) history) keys))
   <= length history)%nat.
Proof.
  intros Hnd. induction history as [|x history IH].
  - induction keys as [|k keys IHk]; [reflexivity|].
    cbn [map concat List.filter app]. apply IHk. inversion Hnd; assumption.
  - transitivity (length (List.filter (fun k => onDay k x) keys)
                  + length (concat (map (fun k => List.filter (onDay k) history) keys)))%nat.
    + clear IH Hnd. induction keys as [|k keys IHk]; [reflexivity|].
      cbn [map concat]. rewrite !length_app.
      change (List.filter (fun k0 => onDay k0 x) (k :: keys))
        with (if onDay k x then k :: List.filter (fun k0 => onDay k0 x) keys
              else List.filter (fun k0 => onDay k0 x) keys).
      change (List.filter (onDay k) (x :: history))
        with (if onDay k x then x :: List.filter (onDay k) history
              else List.filter (onDay k) history).
      destruct (onDay k x); cbn [length]; lia.
    + assert (length (List.filter (fun k => onDay k x) keys) <= 1)%nat as Hone.
      { clear IH. induction Hnd as [|k keys Hk Hnd IHk]; cbn [List.filter length]; [lia|].
        unfold onDay at 1. destruct (String.eqb _ k) eqn:E; [|exact IHk].
        apply String.eqb_eq in E. cbn [length].
        replace (List.filter (fun k0 => onDay k0 x) keys) with (@nil string);
          [cbn; lia|].
        symmetry. clear IHk Hnd. induction keys as [|k' keys IHk]; [reflexivity|].
        cbn [List.filter]. unfold onDay at 1. rewrite E.
        destruct (String.eqb k k') eqn:E'.
        - apply String.eqb_eq in E'. subst k'. exfalso. apply Hk. left. reflexivity.
        - apply IHk. intros Hin. apply Hk. right. exact Hin. }
      cbn [length]. lia.
Qed.

End StreakBounds.

(** X19.  The streak is between 0 and 7, and never more than the number of
    lessons that the read returns; computing it changes the storage as a
    read does. *)
Theorem getDailyStreak_bounds
    (host : HistoryService.Host) (now : Z) (store : gmap string string) :
  let streak := (HistoryService.getDailyStreak host now store).1 in
  0 <= streak <= 7
  /\ streak <= Z.of_nat (length (HistoryService.getLessonHistory host now store).1)
  /\ (HistoryService.getDailyStreak host now store).2
     = (HistoryService.getLessonHistory host now store).2.
Proof.
  cbv zeta.
  assert ((HistoryService.getDailyStreak host now store).1
          = HistoryService.streakOf (HistoryService.getLessonsGroupedByDay host now store).1
          /\ (HistoryService.getDailyStreak host now store).2
             = (HistoryService.getLessonHistory host now store).2) as [-> ->].
  { unfold HistoryService.getDailyStreak, HistoryService.getLessonsGroupedByDay.
    destruct (HistoryService.getLessonHistory host now store). split; reflexivity. }
  pose proof (streakOf_le (HistoryService.getLessonsGroupedByDay host now store).1) as Hs.
  pose proof (hasLessons_le (HistoryService.getLessonsGroupedByDay host now store).1)
    as [Hn Hl].
  destruct (lastSevenDays_keys host now) as [Hnd Hlen].
  rewrite getLessonsGroupedByDay_spec in *.
  rewrite length_map in Hn.
  assert (HistoryWrites.lessonsOf
            (map (fun e => HistoryService.toDayGroup
                             (e.1, List.filter (HistoryWrites.onDay e.1)
                                     (HistoryService.getLessonHistory host now store).1))
                 (HistoryService.lastSevenDays host now))
          = concat (map (fun k => List.filter (HistoryWrites.onDay k)
                                    (HistoryService.getLessonHistory host now store).1)
                        (map fst (HistoryService.lastSevenDays host now)))) as Hof.
  { unfold HistoryWrites.lessonsOf. rewrite !map_map. reflexivity. }
  rewrite Hof in Hl.
  pose proof (grouped_lessons_le (HistoryService.getLessonHistory host now store).1
                _ Hnd) as Hh.
  split; [lia|]. split; [lia|reflexivity].
Qed.

(** X20.  [getRecentLessons(limit)] gives the lessons read, the last stored
    first: at most [limit] of them when [limit] is positive, and all of
    them when [limit] is 0; a negative [limit] leaves out the first
    [-limit] stored lessons. *)
Theorem getRecentLessons_most_recent_first
    (host : HistoryService.Host) (now : Z) (limit : Z) (store : gmap string string) :
  let history := (HistoryService.getLessonHistory host now store).1 in
  let recent := (HistoryService.getRecentLessons host now limit store).1 in
  recent = (if 0 <? limit then take (Z.to_nat limit) (rev history)
            else rev (drop (Z.to_nat (- limit)) history))
  /\ (limit = 0 -> recent = rev history)
  /\ (0 < limit -> Z.of_nat (length recent) = Z.min limit (Z.of_nat (length history))).
Proof.
  cbv zeta. unfold HistoryService.getRecentLessons.
  destruct (HistoryService.getLessonHistory host now store) as [history store'].
  cbn [fst]. unfold HistoryService.sliceFrom.
  assert (rev (drop (Z.to_nat (if - limit <? 0
                               then Z.max (Z.of_nat (length history) + - limit) 0
                               else Z.min (- limit) (Z.of_nat (length history))))
                 history)
          = if 0 <? limit then take (Z.to_nat limit) (rev history)
            else rev (drop (Z.to_nat (- limit)) history)) as Heq.
  { destruct (0 <? limit) eqn:E.
    - apply Z.ltb_lt in E.
      replace (- limit <? 0) with true by (symmetry; apply Z.ltb_lt; lia).
      rewrite List.firstn_rev. do 2 f_equal. lia.
    - apply Z.ltb_ge in E.
      replace (- limit <? 0) with false by (symmetry; apply Z.ltb_ge; lia).
      f_equal.
      destruct (Z.le_gt_cases (- limit) (Z.of_nat (length history))) as [Hle|Hgt].
      + rewrite Z.min_l by exact Hle. reflexivity.
      + rewrite Z.min_r by lia. rewrite Nat2Z.id.
        rewrite !drop_ge by lia. reflexivity. }
  rewrite Heq. split; [reflexivity|]. split.
  - intros ->. reflexivity.
  - intros Hpos. replace (0 <? limit) with true by (symmetry; apply Z.ltb_lt; lia).
    rewrite length_take, length_rev. lia.
Qed.

Section AverageFacts.
Import HistoryService HistoryWrites.

Lemma Math_round_between (lo hi : Z) (x : Q) :
  (inject_Z lo <= x <= inject_Z hi)%Q -> lo <= Math_round x <= hi.
Proof.
  intros [Hlo Hhi]. unfold Math_round. split.
  - rewrite <- (Qfloor_Z lo). apply Qfloor_resp_le. lra.
  - pose proof (Qfloor_le (x + (1 # 2))) as Hf.
    assert (inject_Z (Qfloor (x + (1 # 2))) < inject_Z (hi + 1))%Q as Hlt.
    { rewrite inject_Z_plus. change (inject_Z 1) with 1%Q. lra. }
    rewrite <- Zlt_Qlt in Hlt. lia.
Qed.

(** Rounding to one decimal keeps a number between two integers. *)
Lemma round1_between (lo hi : Z) (x : Q) :
  (inject_Z lo <= x <= inject_Z hi)%Q -> (inject_Z lo <= round1 x <= inject_Z hi)%Q.
Proof.
  intros [Hlo Hhi]. unfold round1. rewrite Qred_correct.
  destruct (Math_round_between (10 * lo) (10 * hi) (x * 10)) as [H1 H2].
  { rewrite !inject_Z_mult. change (inject_Z 10) with 10%Q. lra. }
  rewrite Zle_Qle in H1, H2. rewrite inject_Z_mult in H1, H2.
  change (inject_Z 10) with 10%Q in H1, H2.
  split.
  - apply Qle_shift_div_l; lra.
  - apply Qle_shift_div_r; lra.
Qed.

Lemma sumOf_between (f : LessonRecord -> Q) (lo hi : Q) (ls : list LessonRecord) :
  Forall (fun l => lo <= f l <= hi)%Q ls ->
  (inject_Z (Z.of_nat (length ls)) * lo <= sumOf f ls
   <= inject_Z (Z.of_nat (length ls)) * hi)%Q.
Proof.
  intros Hall. unfold sumOf.
  assert (forall acc,
            (acc + inject_Z (Z.of_nat (length ls)) * lo
             <= fold_left (fun acc l => acc + f l) ls acc
             <= acc + inject_Z (Z.of_nat (length ls)) * hi)%Q) as H.
  { induction Hall as [|l ls [Hl1 Hl2] _ IH]; intros acc.
    - cbn [fold_left length]. change (inject_Z (Z.of_nat 0)) with 0%Q. lra.
    - cbn [fold_left length]. specialize (IH (acc + f l)%Q).
      rewrite Nat2Z.inj_succ, <- Z.add_1_r, inject_Z_plus.
      change (inject_Z 1) with 1%Q. lra. }
  specialize (H 0%Q). lra.
Qed.

Lemma average_between (f : LessonRecord -> Q) (lo hi : Z) (ls : list LessonRecord) :
  ls <> [] ->
  Forall (fun l => inject_Z lo <= f l <= inject_Z hi)%Q ls ->
  (inject_Z lo
   <= round1 (sumOf f ls / inject_Z (Z.of_nat (length ls)))
   <= inject_Z hi)%Q.
Proof.
  intros Hne Hall. apply round1_between.
  pose proof (sumOf_between f _ _ ls Hall) as [H1 H2].
  assert (0 < inject_Z (Z.of_nat (length ls)))%Q as Hpos.
  { apply inject_Z_pos. destruct ls; [congruence|cbn [length]; lia]. }
  split.
  - apply Qle_shift_div_l; [exact Hpos|]. lra.
  - apply Qle_shift_div_r; [exact Hpos|]. lra.
Qed.

End AverageFacts.

(** X21.  When every skill score of every lesson read lies between two
    integers [lo <= 0 <= hi], so does every weekly average; the number of
    lessons is the number of lessons read, and the total time the sum of
    their durations.  In particular averages of scores from 0 to 10 are
    from 0 to 10. *)
Theorem getWeeklySkillAverages_within_scale
    (host : HistoryService.Host) (now : Z) (store : gmap string string) (lo hi : Z) :
  let history := (HistoryService.getLessonHistory host now store).1 in
  let averages := (HistoryService.getWeeklySkillAverages host now store).1 in
  lo <= 0 <= hi ->
  Forall (fun l => Forall (fun skill => inject_Z lo <= skill l <= inject_Z hi)%Q
                          HistoryWrites.skills) history ->
  Forall (fun a => inject_Z lo <= a <= inject_Z hi)%Q (HistoryWrites.averagesOf averages)
  /\ HistoryService.totalLessons averages = Z.of_nat (length history)
  /\ HistoryService.totalTime averages
     = HistoryService.sumOf HistoryService.duration history.
Proof.
  cbv zeta. unfold HistoryService.getWeeklySkillAverages.
  destruct (HistoryService.getLessonHistory host now store) as [history store'].
  cbn [fst]. intros Hscale Hall.
  destruct history as [|l history].
  - cbn [length Nat.eqb fst HistoryWrites.averagesOf HistoryService.avgPronunciation
         HistoryService.avgFluency HistoryService.avgIntonation
         HistoryService.avgVocabulary HistoryService.avgGrammar
         HistoryService.avgTaskFulfillment HistoryService.totalLessons
         HistoryService.totalTime].
    assert (inject_Z lo <= 0 <= inject_Z hi)%Q as H0.
    { change 0%Q with (inject_Z 0). rewrite <- !Zle_Qle. exact Hscale. }
    split; [repeat constructor; apply H0|]. split; reflexivity.
  - set (ls := l :: history) in *.
    replace (length ls =? 0)%nat with false by reflexivity.
    cbn [fst HistoryWrites.averagesOf HistoryService.avgPronunciation
         HistoryService.avgFluency HistoryService.avgIntonation
         HistoryService.avgVocabulary HistoryService.avgGrammar
         HistoryService.avgTaskFulfillment HistoryService.totalLessons
         HistoryService.totalTime].
    assert (forall skill, In skill HistoryWrites.skills ->
              (inject_Z lo
               <= HistoryService.round1
                    (HistoryService.sumOf skill ls / inject_Z (Z.of_nat (length ls)))
               <= inject_Z hi)%Q) as Havg.
    { intros skill Hin. apply average_between; [discriminate|].
      eapply Forall_impl; [exact Hall|]. intros r Hr.
      rewrite List.Forall_forall in Hr. apply Hr, Hin. }
    split; [|split; reflexivity].
    repeat constructor; apply Havg; unfold HistoryWrites.skills; cbn [In]; tauto.
Qed.

Lemma getWeeklySkillAverages_witness :
  let store := ExampleHost.storeOf [ExampleHost.yesterday; ExampleHost.today] in
  Forall (fun a => 0 <= a <= 10)%Q
         (HistoryWrites.averagesOf
            (HistoryService.getWeeklySkillAverages ExampleHost.host ExampleHost.now store).1).
Proof.
  intros store.
  refine (proj1 (getWeeklySkillAverages_within_scale ExampleHost.host ExampleHost.now
                   store 0 10 _ _)).
  - lia.
  - vm_compute. repeat constructor; discriminate.
Defined.

(** ** The samples of the microphone *)

Section QuantiseFacts.
Import App.

Lemma toInt16_range (q : Q) : -32768 <= toInt16 q < 32768.
Proof.
  unfold toInt16. pose proof (Z.mod_pos_bound (Qtrunc q) 65536 ltac:(lia)).
  destruct (_ <? 32768) eqn:E; [apply Z.ltb_lt in E|apply Z.ltb_ge in E]; lia.
Qed.

(** A number whose integer part is a signed 16-bit integer is converted to
    its integer part. *)
Lemma toInt16_small (q : Q) : -32768 <= Qtrunc q < 32768 -> toInt16 q = Qtrunc q.
Proof.
  intros H. unfold toInt16.
  destruct (_ <? 32768) eqn:E; [apply Z.ltb_lt in E|apply Z.ltb_ge in E];
    revert E; Z.to_euclidean_division_equations; lia.
Qed.

(** The integer part is between the number and zero, less than one away
    from the number. *)
Lemma Qtrunc_bounds (x : Q) :
  ((0 <= x -> inject_Z (Qtrunc x) <= x /\ x < inject_Z (Qtrunc x) + 1)
   /\ (x <= 0 -> x <= inject_Z (Qtrunc x) /\ inject_Z (Qtrunc x) < x + 1))%Q.
Proof.
  unfold Qtrunc.
  pose proof (Qfloor_le x) as Hf1. pose proof (Qlt_floor x) as Hf2.
  pose proof (Qle_ceiling x) as Hc1. pose proof (Qceiling_lt x) as Hc2.
  rewrite inject_Z_plus in Hf2. unfold Z.sub in Hc2. rewrite inject_Z_plus in Hc2.
  change (inject_Z 1) with 1%Q in Hf2. change (inject_Z (- (1))) with (-1)%Q in Hc2.
  destruct (Qle_bool 0 x) eqn:E.
  - apply Qle_bool_iff in E. split; [intros _; split; lra|].
    intros Hx.
    assert (Qfloor x = 0) as H0.
    { assert (inject_Z (Qfloor x) <= inject_Z 0)%Q as H1
        by (change (inject_Z 0) with 0%Q; lra).
      assert (inject_Z (-1) < inject_Z (Qfloor x))%Q as H2
        by (change (inject_Z (-1)) with (-1)%Q; lra).
      rewrite <- Zle_Qle in H1. rewrite <- Zlt_Qlt in H2. lia. }
    rewrite H0. change (inject_Z 0) with 0%Q. split; lra.
  - assert (x < 0)%Q as Hneg.
    { apply Qnot_le_lt. intros Hle. apply Qle_bool_iff in Hle. congruence. }
    split; [intros Hx; lra|]. intros _. split; lra.
Qed.

Lemma byteOfZ_to_N (z : Z) : Z.of_N (Byte.to_N (byteOfZ z)) = z mod 256.
Proof.
  unfold byteOfZ. pose proof (Z.mod_pos_bound z 256 ltac:(lia)) as Hm.
  destruct (Byte.of_N (Z.to_N (z mod 256))) as [b|] eqn:E.
  - apply Byte.to_of_N in E. rewrite E. lia.
  - apply Byte.of_N_None_iff in E. lia.
Qed.

(** The two bytes of a signed 16-bit integer give it back. *)
Lemma int16_int16Bytes (v : Z) :
  -32768 <= v < 32768 -> int16 (byteOfZ v) (byteOfZ (v / 256)) = v.
Proof.
  intros Hv. unfold int16. rewrite !byteOfZ_to_N.
  destruct (_ <? 32768) eqn:E; [apply Z.ltb_lt in E|apply Z.ltb_ge in E];
    revert E; Z.to_euclidean_division_equations; lia.
Qed.

Lemma int16Elements_int16Bytes (vs : list Z) :
  Forall (fun v => -32768 <= v < 32768) vs ->
  int16Elements (concat (map int16Bytes vs)) = vs
  /\ length (concat (map int16Bytes vs)) = (2 * length vs)%nat.
Proof.
  induction 1 as [|v vs Hv _ [IH1 IH2]]; [split; reflexivity|].
  cbn [map concat int16Bytes app int16Elements length].
  rewrite IH1, IH2, (int16_int16Bytes v Hv). split; [reflexivity|lia].
Qed.

End QuantiseFacts.

(** X22.  A sample [q] of the microphone with [-1 <= q < 1] is stored as
    the integer part of [q * 32768], a signed 16-bit integer; divided by
    32768 again it lies between [q] and zero, less than [1 / 32768] away
    from [q].  A sample from 1 up to 2 does not fit: it is stored as a
    negative element. *)
Theorem quantise_keeps_the_sample (q : Q) :
  (-1 <= q < 1)%Q ->
  App.quantise (Num q) = Qtrunc (q * 32768)
  /\ -32768 <= App.quantise (Num q) < 32768
  /\ (0 <= q -> q - (1 # 32768) < App.quantise (Num q) # 32768
                /\ App.quantise (Num q) # 32768 <= q)%Q
  /\ (q <= 0 -> q <= App.quantise (Num q) # 32768
                /\ App.quantise (Num q) # 32768 < q + (1 # 32768))%Q
  /\ (forall p, (1 <= p < 2)%Q ->
        App.quantise (Num p) = Qfloor (p * 32768) - 65536
        /\ App.quantise (Num p) < 0).
Proof.
  intros [Hlo Hhi].
  destruct (Qtrunc_bounds (q * 32768)) as [Hpos Hneg].
  assert (-32768 <= Qtrunc (q * 32768) < 32768) as Hrange.
  { destruct (Qlt_le_dec q 0) as [Hq|Hq].
    - destruct Hneg as [H1 H2]; [lra|].
      assert (inject_Z (-32768) <= inject_Z (Qtrunc (q * 32768)))%Q as H3
        by (change (inject_Z (-32768)) with (-32768)%Q; lra).
      assert (inject_Z (Qtrunc (q * 32768)) < inject_Z 1)%Q as H4
        by (change (inject_Z 1) with 1%Q; lra).
      rewrite <- Zle_Qle in H3. rewrite <- Zlt_Qlt in H4. lia.
    - destruct Hpos as [H1 H2]; [lra|].
      assert (inject_Z (-1) < inject_Z (Qtrunc (q * 32768)))%Q as H3
        by (change (inject_Z (-1)) with (-1)%Q; lra).
      assert (inject_Z (Qtrunc (q * 32768)) < inject_Z 32768)%Q as H4
        by (change (inject_Z 32768) with 32768%Q; lra).
      rewrite <- Zlt_Qlt in H3, H4. lia. }
  assert (App.quantise (Num q) = Qtrunc (q * 32768)) as Hq
    by (apply toInt16_small, Hrange).
  rewrite Hq. split; [reflexivity|]. split; [exact Hrange|].
  pose proof (Qmake_Qdiv (Qtrunc (q * 32768)) 32768) as Hdiv.
  change (inject_Z 32768) with 32768%Q in Hdiv.
  assert (Qtrunc (q * 32768) # 32768 == inject_Z (Qtrunc (q * 32768)) * (1 # 32768))%Q
    as Hr by (rewrite Hdiv; field).
  split; [|split].
  - intros H0. destruct Hpos as [H1 H2]; [lra|]. rewrite Hr. split; lra.
  - intros H0. destruct Hneg as [H1 H2]; [lra|]. rewrite Hr. split; lra.
  - intros p [Hp1 Hp2]. unfold App.quantise, App.toInt16, Qtrunc.
    replace (Qle_bool 0 (p * 32768)) with true
      by (symmetry; apply Qle_bool_iff; lra).
    pose proof (Qfloor_le (p * 32768)) as Hf1. pose proof (Qlt_floor (p * 32768)) as Hf2.
    rewrite inject_Z_plus in Hf2. change (inject_Z 1) with 1%Q in Hf2.
    assert (32768 <= Qfloor (p * 32768) < 65536) as Hfl.
    { assert (inject_Z 32767 < inject_Z (Qfloor (p * 32768)))%Q as H3
        by (change (inject_Z 32767) with 32767%Q; lra).
      assert (inject_Z (Qfloor (p * 32768)) < inject_Z 65536)%Q as H4
        by (change (inject_Z 65536) with 65536%Q; lra).
      rewrite <- Zlt_Qlt in H3, H4. lia. }
    rewrite Z.mod_small by lia.
    replace (Qfloor (p * 32768) <? 32768) with false
      by (symmetry; apply Z.ltb_ge; lia).
    lia.
Qed.

Lemma quantise_witness :
  App.quantise (Num (-1 # 3)) = Qtrunc ((-1 # 3) * 32768)
  /\ -32768 <= App.quantise (Num (-1 # 3)) < 32768
  /\ (0 <= -1 # 3 -> (-1 # 3) - (1 # 32768) < App.quantise (Num (-1 # 3)) # 32768
                     /\ App.quantise (Num (-1 # 3)) # 32768 <= -1 # 3)%Q
  /\ (-1 # 3 <= 0 -> -1 # 3 <= App.quantise (Num (-1 # 3)) # 32768
                     /\ App.quantise (Num (-1 # 3)) # 32768 < (-1 # 3) + (1 # 32768))%Q
  /\ (forall p, (1 <= p < 2)%Q ->
        App.quantise (Num p) = Qfloor (p * 32768) - 65536
        /\ App.quantise (Num p) < 0).
Proof.
  apply (quantise_keeps_the_sample (-1 # 3)). split; [discriminate|reflexivity].
Defined.

(** Decoding the base64 text of a byte sequence gives the byte sequence. *)
Lemma decode_encode_ofBytes (bs : list byte) :
  AudioCodec.decode (AudioCodec.encode (ofBytes bs)) = Ok (ofBytes bs).
Proof.
  rewrite encode_elements by (unfold wellFormed; cbn; lia).
  rewrite (decode_atob _ _ (Base64Facts.atob_btoa _)).
  rewrite list_ascii_of_string_of_list_ascii, map_map.
  unfold elements. cbn [ofBytes byteLength byteOffset buffer drop].
  rewrite firstn_all. do 2 f_equal.
  transitivity (map (fun b : byte => b) bs); [|apply List.map_id].
  apply map_ext. intros x. apply byte_of_ascii_of_byte.
Qed.

(** One channel: the frames are the samples, in their order. *)
Lemma fillChannel_mono (dataInt16 : list Z) :
  AudioCodec.fillChannel dataInt16 1 0
    (inject_Z (Z.of_nat (length dataInt16)) / inject_Z 1)
    (replicate (length dataInt16) (Num 0))
  = map (fun v => Num (v # 32768)) dataInt16.
Proof.
  set (frameCount := (inject_Z (Z.of_nat (length dataInt16)) / inject_Z 1)%Q).
  assert (Qceiling frameCount = Z.of_nat (length dataInt16)) as Hc.
  { unfold frameCount. rewrite Qceiling_quotient by lia. rewrite Z.div_1_r. lia. }
  destruct (fillChannel_facts dataInt16 1 frameCount ltac:(lia) 0
              (replicate (length dataInt16) (Num 0))) as [Hlen Hget].
  cbv zeta in Hlen, Hget. rewrite length_replicate in Hlen, Hget.
  apply list_eq. intros j.
  change (map ?f ?l) with (f <$> l). rewrite list_lookup_fmap.
  destruct (decide (j < length dataInt16)%nat) as [Hj|Hj].
  - rewrite Hget by lia. unfold AudioCodec.getInt16.
    replace (Z.of_nat j * 1 + 0 <? 0) with false by (symmetry; apply Z.ltb_ge; lia).
    replace (Z.to_nat (Z.of_nat j * 1 + 0)) with j by lia.
    destruct (lookup_lt_is_Some_2 dataInt16 j Hj) as [v Hv]. rewrite Hv. reflexivity.
  - rewrite (lookup_ge_None_2 dataInt16) by lia.
    apply lookup_ge_None_2. lia.
Qed.

(** [decodeAudioData] on one channel. *)
Lemma decodeAudioData_mono (bs : list byte) (ctx : AudioContext) (rate : Q) :
  (length bs mod 2 = 0)%nat ->
  Z.of_nat (length bs / 2) < 2 ^ 32 ->
  AudioCodec.decodeAudioData (ofBytes bs) ctx rate 1
  = if supported ctx 1 (Z.of_nat (length bs / 2)) rate
    then Ok (mkAudioBuffer 1 (Z.of_nat (length bs / 2)) rate
               [map (fun v => Num (v # 32768)) (int16Elements bs)])
    else Err NotSupportedError.
Proof.
  intros Heven Hsize.
  destruct (int16Elements_facts bs) as [Hlen _].
  unfold AudioCodec.decodeAudioData, newInt16Array, Ok. cbn [buffer ofBytes].
  apply Nat.eqb_eq in Heven as Hb. rewrite Hb.
  set (dataInt16 := int16Elements bs) in *.
  unfold createBuffer, Ok.
  rewrite (toUint32_small 1) by lia.
  rewrite (toUint32_quotient (Z.of_nat (length dataInt16)) 1) by (rewrite ?Z.div_1_r; lia).
  rewrite Z.div_1_r, Hlen.
  destruct (supported ctx 1 (Z.of_nat (length bs / 2)) rate); [|reflexivity].
  rewrite <- Hlen.
  change (fold_left ?f (seqZ 0 1) ?a) with (fold_left f [0] a).
  cbn [fold_left]. unfold AudioCodec.getChannelData, AudioCodec.setChannelData.
  cbn [channelData numberOfChannels bufferLength sampleRate].
  rewrite Nat2Z.id.
  change (0 <? 0) with false. change (Z.to_nat 0) with 0%nat. change (Z.to_nat 1) with 1%nat.
  cbn [replicate lookup list_lookup]. unfold Ok. cbn [list_insert insert].
  rewrite fillChannel_mono. reflexivity.
Qed.

(** X23.  The text that the handler of the microphone sends for a block of
    samples decodes, with [decode] and then [decodeAudioData] on one
    channel, to a buffer with one frame for each sample of the block, in
    the order of the block: the stored element of the sample divided by
    32768.  The host is assumed to accept the size given to
    [createBuffer]. *)
Theorem microphone_block_round_trip
    (input : list F32) (ctx : AudioContext) (rate : Q) :
  Z.of_nat (length input) < 2 ^ 32 ->
  supported ctx 1 (Z.of_nat (length input)) rate = true ->
  exists bytes,
    AudioCodec.decode (App.encodeBlock input) = Ok bytes
    /\ length (elements bytes) = (2 * length input)%nat
    /\ AudioCodec.decodeAudioData bytes ctx rate 1
       = Ok (mkAudioBuffer 1 (Z.of_nat (length input)) rate
               [map (fun x => Num (App.quantise x # 32768)) input]).
Proof.
  intros Hsize Hsup. unfold App.encodeBlock.
  set (bs := concat (map (fun x => App.int16Bytes (App.quantise x)) input)).
  assert (Forall (fun v => -32768 <= v < 32768) (map App.quantise input)) as Hrange.
  { apply Forall_map. apply List.Forall_forall. intros x _.
    destruct x as [q|]; [apply toInt16_range|cbn; lia]. }
  destruct (int16Elements_int16Bytes _ Hrange) as [Hel Hlen].
  rewrite map_map in Hel, Hlen. fold bs in Hel, Hlen. rewrite length_map in Hlen.
  exists (ofBytes bs). split; [apply decode_encode_ofBytes|]. split.
  - unfold elements. cbn [ofBytes byteLength byteOffset buffer drop].
    rewrite firstn_all. exact Hlen.
  - assert (length bs / 2 = length input)%nat as Hhalf by (rewrite Hlen; divmod).
    rewrite decodeAudioData_mono; [|rewrite Hlen; divmod|rewrite Hhalf; lia].
    rewrite Hhalf, Hsup, Hel, map_map. reflexivity.
Qed.

Lemma microphone_block_witness :
  exists bytes,
    AudioCodec.decode (App.encodeBlock [Num (1 # 2); Num (-1 # 3); NaN]) = Ok bytes
    /\ length (elements bytes) = 6%nat
    /\ AudioCodec.decodeAudioData bytes webAudio 16000 1
       = Ok (mkAudioBuffer 1 3 16000
               [[Num (16384 # 32768); Num (-10922 # 32768); Num (0 # 32768)]]).
Proof.
  apply (microphone_block_round_trip [Num (1 # 2); Num (-1 # 3); NaN] webAudio 16000).
  - cbn. lia.
  - reflexivity.
Defined.

(** ** Speech and pictures in the revised service *)

(** What [decodeAudioData] builds on one channel. *)
Lemma decodeAudioData_one_channel
    (data : Uint8Array) (ctx : AudioContext) (rate : Q) (out : AudioBuffer) :
  AudioCodec.decodeAudioData data ctx rate 1 = Ok out ->
  numberOfChannels out = 1 /\ sampleRate out = rate
  /\ length (channelData out) = 1%nat
  /\ (length (buffer data) mod 2 = 0)%nat.
Proof.
  unfold AudioCodec.decodeAudioData, newInt16Array, Ok.
  destruct (length (buffer data) mod 2 =? 0)%nat eqn:Heven; [|discriminate].
  apply Nat.eqb_eq in Heven.
  unfold createBuffer, Ok. rewrite (toUint32_small 1) by lia.
  destruct (supported ctx 1 _ rate); [|discriminate].
  change (fold_left ?f (seqZ 0 1) ?a) with (fold_left f [0] a).
  cbn [fold_left]. unfold AudioCodec.getChannelData, AudioCodec.setChannelData.
  cbn [channelData numberOfChannels bufferLength sampleRate].
  change (0 <? 0) with false. change (Z.to_nat 0) with 0%nat. change (Z.to_nat 1) with 1%nat.
  cbn [replicate lookup list_lookup]. unfold Ok. cbn [list_insert insert].
  intros [= <-]. cbn [numberOfChannels sampleRate channelData length]. auto.
Qed.

Section VoiceFacts.
Import ApiConfig Part000Media.
Context {W : Type}.
Variable generateAudio : string -> string -> string -> W -> Settled (option string) Error * W.
Variable newAudioContext : W -> option AudioContext * W.

(** A turn of the loop returns a buffer exactly when the call of the model
    answers with audio that is not empty, the audio context is made and
    the audio decodes. *)
Lemma voiceAttempt_Some (apiKey text model : string) (s s' : W) (out : AudioBuffer) :
  voiceAttempt generateAudio newAudioContext apiKey text model s = (Some out, s')
  <-> exists base64Audio s1 ctx bytes,
        generateAudio apiKey model (voicePrompt text) s
        = (Fulfilled (Some base64Audio), s1)
        /\ base64Audio <> ""
        /\ newAudioContext s1 = (Some ctx, s')
        /\ AudioCodec.decode base64Audio = Ok bytes
        /\ AudioCodec.decodeAudioData bytes ctx 24000 1 = Ok out.
Proof.
  unfold voiceAttempt, decodeVoice, Ok. split.
  - destruct (generateAudio apiKey model (voicePrompt text) s)
      as [[[[|c b]|]|err] s1]; cbn [truthy orElse]; try discriminate.
    destruct (newAudioContext s1) as [[ctx|] s2] eqn:Ec; [|discriminate].
    destruct (AudioCodec.decode (String c b)) as [e|bytes] eqn:Ed; [discriminate|].
    destruct (AudioCodec.decodeAudioData bytes ctx 24000 1) as [e|buffer] eqn:Ea;
      [discriminate|].
    intros [= <- <-]. exists (String c b), s1, ctx, bytes.
    split; [reflexivity|]. split; [discriminate|]. split; [exact Ec|].
    split; assumption.
  - intros (b & s1 & ctx & bytes & Hg & Hne & Hc & Hd & Ha). rewrite Hg.
    destruct b as [|c b]; [congruence|]. cbn [truthy orElse].
    rewrite Hc, Hd, Ha. reflexivity.
Qed.

Lemma voiceAttempt_one_channel (apiKey text model : string) (s s' : W) (out : AudioBuffer) :
  voiceAttempt generateAudio newAudioContext apiKey text model s = (Some out, s') ->
  numberOfChannels out = 1 /\ sampleRate out = 24000%Q
  /\ length (channelData out) = 1%nat.
Proof.
  intros H. apply voiceAttempt_Some in H as (b & s1 & ctx & bytes & _ & _ & _ & _ & Ha).
  destruct (decodeAudioData_one_channel _ _ _ _ Ha) as (H1 & H2 & H3 & _). auto.
Qed.

(** The loop over the speech models: the models are called in order; every
    turn before the last one returned nothing, and the last turn decides
    the result. *)
Lemma tryVoices_run (apiKey text : string) (models : list string) :
  forall w,
    let attempt := voiceAttempt generateAudio newAudioContext apiKey text in
    let run := tryVoices generateAudio newAudioContext apiKey text models w in
    exists n,
      (n <= length models)%nat
      /\ called run = take n models
      /\ (forall i model, models !! i = Some model -> (S i < n)%nat ->
            (attempt model (backendAfter attempt (take i models) w)).1 = None)
      /\ match n with
         | O => models = []
         | S k =>
             forall model, models !! k = Some model ->
               match attempt model (backendAfter attempt (take k models) w) with
               | (Some out, s') => outcome run = Fulfilled out /\ backend run = s'
               | (None, s') =>
                   n = length models
                   /\ outcome run = Rejected (NewError TTS_FALLBACK)
                   /\ backend run = s'
               end
         end.
Proof.
  induction models as [|model rest IH]; intros w; cbv zeta.
  - exists 0%nat. cbn [tryVoices called length]. repeat split; try reflexivity.
    intros i m Hi. discriminate Hi.
  - cbn [tryVoices].
    destruct (voiceAttempt generateAudio newAudioContext apiKey text model w)
      as [[out|] w1] eqn:E.
    + exists 1%nat. cbn [andThen called outcome backend length].
      split; [lia|]. split; [reflexivity|]. split; [intros i m _ Hi; lia|].
      intros m [= <-]. cbn [take backendAfter fold_left]. rewrite E. auto.
    + destruct (IH w1) as (n & Hn & Hc & Hbefore & Hlast). cbv zeta in Hc, Hbefore, Hlast.
      exists (S n). cbn [andThen called outcome backend length].
      split; [lia|]. split; [cbn [take]; rewrite Hc; reflexivity|]. split.
      * intros [|i] m Hm Hi.
        -- injection Hm as <-. cbn [take backendAfter fold_left]. rewrite E. reflexivity.
        -- change ((model :: rest) !! S i) with (rest !! i) in Hm.
           cbn [take backendAfter fold_left]. rewrite E. cbn [snd].
           apply (Hbefore i m Hm). lia.
      * destruct n as [|k].
        -- subst rest. intros m [= <-]. cbn [take backendAfter fold_left]. rewrite E.
           cbn [tryVoices outcome backend length]. auto.
        -- intros m Hm. change ((model :: rest) !! S k) with (rest !! k) in Hm.
           cbn [take backendAfter fold_left]. rewrite E. cbn [snd].
           specialize (Hlast m Hm). unfold backendAfter in Hlast.
           destruct (voiceAttempt generateAudio newAudioContext apiKey text m _)
             as [[out|] s']; [exact Hlast|].
           destruct Hlast as (Hlen & Ho & Hb). repeat split; [lia|exact Ho|exact Hb].
Qed.

End VoiceFacts.

(** X24.  With a stored key, [generateTeacherVoice] calls the speech models
    in their order, each one on the state that the turns before it left
    and only when every turn before it returned nothing, and it stops at
    the first turn that returns a buffer: a turn returns a buffer exactly
    when the call of its model answers with audio that is not empty, the
    audio context is made and the audio decodes, and the result of the
    call is then that buffer, of one channel at 24000 Hz.  What a call or
    a decoding raises goes no further: the call raises only when the turn
    of the third model has returned nothing as well, and then it raises
    [TTS_FALLBACK_TO_WEB_SPEECH].  Without a stored key no model is
    called. *)
Theorem generateTeacherVoice_falls_back
    {W : Type}
    (generateAudio : string -> string -> string -> W -> Settled (option string) Error * W)
    (newAudioContext : W -> option AudioContext * W)
    (storage : gmap string string) (text : string) (w : W) :
  ApiConfig.getApiKey storage <> "" ->
  let run := Part000Media.generateTeacherVoice generateAudio newAudioContext
               storage text w in
  let attempt := Part000Media.voiceAttempt generateAudio newAudioContext
                   (ApiConfig.getApiKey storage) text in
  let stateBefore i :=
    Part000Media.backendAfter attempt (take i Part000Media.ttsModels) w in
  (exists n,
     (1 <= n <= 3)%nat
     /\ Part000Media.called run = take n Part000Media.ttsModels
     /\ (forall i model,
           Part000Media.ttsModels !! i = Some model -> (S i < n)%nat ->
           (attempt model (stateBefore i)).1 = None)
     /\ (forall model,
           Part000Media.ttsModels !! (n - 1)%nat = Some model ->
           match attempt model (stateBefore (n - 1)%nat) with
           | (Some out, s') =>
               Part000Media.outcome run = Fulfilled out
               /\ Part000Media.backend run = s'
               /\ numberOfChannels out = 1 /\ sampleRate out = 24000%Q
               /\ length (channelData out) = 1%nat
           | (None, s') =>
               n = 3%nat
               /\ Part000Media.outcome run
                  = Rejected (NewError Part000Media.TTS_FALLBACK)
               /\ Part000Media.backend run = s'
           end))
  /\ (forall model s out s',
        attempt model s = (Some out, s')
        <-> exists base64Audio s1 ctx bytes,
              generateAudio (ApiConfig.getApiKey storage) model
                (Part000Media.voicePrompt text) s
              = (Fulfilled (Some base64Audio), s1)
              /\ base64Audio <> ""
              /\ newAudioContext s1 = (Some ctx, s')
              /\ AudioCodec.decode base64Audio = Ok bytes
              /\ AudioCodec.decodeAudioData bytes ctx 24000 1 = Ok out)
  /\ (forall model s,
        (attempt model s).2
        = match generateAudio (ApiConfig.getApiKey storage) model
                  (Part000Media.voicePrompt text) s with
          | (Fulfilled (Some (String _ _)), s1) => (newAudioContext s1).2
          | (_, s1) => s1
          end)
  /\ (forall storage0,
        ApiConfig.getApiKey storage0 = "" ->
        Part000Media.generateTeacherVoice generateAudio newAudioContext storage0 text w
        = Part000Media.mkTried (Rejected (NewError ApiConfig.API_KEY_MISSING)) [] w).
Proof.
  intros Hkey. cbv zeta. split; [|split; [|split]].
  - unfold Part000Media.generateTeacherVoice.
    destruct (ApiConfig.getApiKey storage) as [|c apiKey] eqn:E; [congruence|].
    destruct (tryVoices_run generateAudio newAudioContext (String c apiKey) text
                Part000Media.ttsModels w) as (n & Hn & Hc & Hbefore & Hlast).
    cbv zeta in Hc, Hbefore, Hlast. cbn [length Part000Media.ttsModels] in Hn.
    destruct n as [|k]; [discriminate Hlast|].
    exists (S k). split; [lia|]. split; [exact Hc|]. split; [exact Hbefore|].
    replace (S k - 1)%nat with k by lia.
    intros model Hmodel. specialize (Hlast model Hmodel).
    destruct (Part000Media.voiceAttempt generateAudio newAudioContext (String c apiKey)
                text model _) as [[out|] s'] eqn:Ea.
    + destruct Hlast as [Ho Hb]. split; [exact Ho|]. split; [exact Hb|].
      eapply voiceAttempt_one_channel. exact Ea.
    + exact Hlast.
  - intros model s out s'. apply voiceAttempt_Some.
  - intros model s. unfold Part000Media.voiceAttempt, Part000Media.decodeVoice.
    destruct (generateAudio _ model _ s) as [[[[|c b]|]|err] s1];
      cbn [ApiConfig.truthy orElse snd]; try reflexivity.
    destruct (newAudioContext s1) as [[ctx|] s2]; [|reflexivity].
    destruct (AudioCodec.decode (String c b)) as [e|bytes]; [reflexivity|].
    destruct (AudioCodec.decodeAudioData bytes ctx 24000 1); reflexivity.
  - intros storage0 Hno. unfold Part000Media.generateTeacherVoice. rewrite Hno.
    reflexivity.
Qed.

Lemma generateTeacherVoice_witness :
  let run := Part000Media.generateTeacherVoice MediaExamples.generateAudio
               MediaExamples.newAudioContext WordExamples.withKey "Hello" 0%nat in
  Part000Media.called run = Part000Media.ttsModels
  /\ Part000Media.outcome run
     = Fulfilled (mkAudioBuffer 1 2 24000 [[Num (-32768 # 32768); Num (-16384 # 32768)]])
  /\ exists n, (1 <= n <= 3)%nat
               /\ Part000Media.called run = take n Part000Media.ttsModels.
Proof.
  intros run. split; [reflexivity|]. split; [reflexivity|].
  destruct (generateTeacherVoice_falls_back MediaExamples.generateAudio
              MediaExamples.newAudioContext WordExamples.withKey "Hello" 0%nat)
    as [(n & Hn & Hc & _) _]; [discriminate|].
  exists n. split; [exact Hn|exact Hc].
Defined.

Section IllustrationFacts.
Import ApiConfig Part000Media.
Context {W : Type}.
Variable generateImage : string -> string -> string -> W -> Settled (list (option string)) Error * W.
Variable fetchPlaceholder : W -> Fetched * W.

(** The picture of an answer is the PNG data URL of its first part that
    has a picture. *)
Lemma firstPicture_Some (parts : list (option string)) (uri : string) :
  firstPicture parts = Some uri
  <-> exists before data rest,
        parts = before ++ Some data :: rest
        /\ Forall (fun part => part = None) before
        /\ uri = "data:image/png;base64," +:+ data.
Proof.
  induction parts as [|[data|] parts IH]; cbn [firstPicture].
  - split; [discriminate|]. intros (before & data & rest & H & _).
    destruct before; discriminate H.
  - split.
    + intros [= <-]. exists [], data, parts. repeat split. constructor.
    + intros (before & data' & rest & H & Hnone & ->).
      destruct before as [|p before].
      * injection H as -> _. reflexivity.
      * inversion_clear Hnone as [|? ? Hp _]. subst p. discriminate H.
  - rewrite IH. split.
    + intros (before & data & rest & -> & Hnone & ->).
      exists (None :: before), data, rest. repeat split. constructor; [reflexivity|exact Hnone].
    + intros (before & data & rest & H & Hnone & ->).
      destruct before as [|p before]; [discriminate H|].
      injection H as _ ->. inversion_clear Hnone as [|? ? _ Hrest].
      exists before, data, rest. repeat split. exact Hrest.
Qed.

(** A turn of the loop returns a picture exactly when the call of the
    model answers with one. *)
Lemma imageAttempt_Some (apiKey theme model : string) (s s' : W) (uri : string) :
  imageAttempt generateImage apiKey theme model s = (Some uri, s')
  <-> exists parts,
        generateImage apiKey model (imagePrompt theme) s = (Fulfilled parts, s')
        /\ firstPicture parts = Some uri.
Proof.
  unfold imageAttempt. split.
  - destruct (generateImage apiKey model (imagePrompt theme) s) as [[parts|err] s1];
      [|discriminate].
    intros [= Hp <-]. exists parts. split; [reflexivity|exact Hp].
  - intros (parts & Hg & Hp). rewrite Hg, Hp. reflexivity.
Qed.

(** The loop over the picture models: the models are called in order;
    every turn before the last one returned nothing, and the last turn
    decides between its picture and the last resort. *)
Lemma tryImages_run (apiKey theme : string) (models : list string) :
  forall w,
    let attempt := imageAttempt generateImage apiKey theme in
    let run := tryImages generateImage fetchPlaceholder apiKey theme models w in
    exists n,
      (n <= length models)%nat
      /\ called run = take n models
      /\ (forall i model, models !! i = Some model -> (S i < n)%nat ->
            (attempt model (backendAfter attempt (take i models) w)).1 = None)
      /\ match n with
         | O => models = []
         | S k =>
             forall model, models !! k = Some model ->
               match attempt model (backendAfter attempt (take k models) w) with
               | (Some uri, s') => outcome run = Fulfilled uri /\ backend run = s'
               | (None, s') =>
                   n = length models
                   /\ outcome run = outcome (lastResort fetchPlaceholder s')
                   /\ backend run = backend (lastResort fetchPlaceholder s')
               end
         end.
Proof.
  induction models as [|model rest IH]; intros w; cbv zeta.
  - exists 0%nat. cbn [tryImages called length]. split; [lia|].
    split; [|split; [|reflexivity]].
    + unfold lastResort. destruct (fetchPlaceholder w) as [[| |dataUrl| |err] w1];
        reflexivity.
    + intros i m Hi. discriminate Hi.
  - cbn [tryImages].
    destruct (imageAttempt generateImage apiKey theme model w) as [[uri|] w1] eqn:E.
    + exists 1%nat. cbn [andThen called outcome backend length].
      split; [lia|]. split; [reflexivity|]. split; [intros i m _ Hi; lia|].
      intros m [= <-]. cbn [take backendAfter fold_left]. rewrite E. auto.
    + destruct (IH w1) as (n & Hn & Hc & Hbefore & Hlast). cbv zeta in Hc, Hbefore, Hlast.
      exists (S n). cbn [andThen called outcome backend length].
      split; [lia|]. split; [cbn [take]; rewrite Hc; reflexivity|]. split.
      * intros [|i] m Hm Hi.
        -- injection Hm as <-. cbn [take backendAfter fold_left]. rewrite E. reflexivity.
        -- change ((model :: rest) !! S i) with (rest !! i) in Hm.
           cbn [take backendAfter fold_left]. rewrite E. cbn [snd].
           apply (Hbefore i m Hm). lia.
      * destruct n as [|k].
        -- subst rest. intros m [= <-]. cbn [take backendAfter fold_left]. rewrite E.
           cbn [tryImages length]. auto.
        -- intros m Hm. change ((model :: rest) !! S k) with (rest !! k) in Hm.
           cbn [take backendAfter fold_left]. rewrite E. cbn [snd].
           specialize (Hlast m Hm). unfold backendAfter in Hlast.
           destruct (imageAttempt generateImage apiKey theme m _)
             as [[uri|] s']; [exact Hlast|].
           destruct Hlast as (Hlen & Ho & Hb). repeat split; [lia|exact Ho|exact Hb].
Qed.

End IllustrationFacts.

(** X25.  With a stored key, [generateIllustration] calls the picture
    models in their order, each one on the state that the turns before it
    left and only when every turn before it returned nothing, and it stops
    at the first turn that returns a picture: a turn returns a picture
    exactly when the call of its model answers with parts of which one has
    a picture, and the result of the call is then the PNG data URL of the
    first such part.  What a call raises goes no further.  When the turn
    of the fourth model has returned nothing as well, the placeholder is
    downloaded, on the state that this turn left: the result is the data
    URL that the reader ends with when the download is read, the error of
    the reader when making or starting it raises, and the static picture
    in every other case.  Without a stored key no model is called. *)
Theorem generateIllustration_falls_back
    {W : Type}
    (generateImage : string -> string -> string -> W
                     -> Settled (list (option string)) Error * W)
    (fetchPlaceholder : W -> Part000Media.Fetched * W)
    (storage : gmap string string) (theme : string) (w : W) :
  ApiConfig.getApiKey storage <> "" ->
  let run := Part000Media.generateIllustration generateImage fetchPlaceholder
               storage theme w in
  let attempt := Part000Media.imageAttempt generateImage
                   (ApiConfig.getApiKey storage) theme in
  let stateBefore i :=
    Part000Media.backendAfter attempt (take i Part000Media.imageModels) w in
  (exists n,
     (1 <= n <= 4)%nat
     /\ Part000Media.called run = take n Part000Media.imageModels
     /\ (forall i model,
           Part000Media.imageModels !! i = Some model -> (S i < n)%nat ->
           (attempt model (stateBefore i)).1 = None)
     /\ (forall model,
           Part000Media.imageModels !! (n - 1)%nat = Some model ->
           match attempt model (stateBefore (n - 1)%nat) with
           | (Some uri, s') =>
               Part000Media.outcome run = Fulfilled uri
               /\ Part000Media.backend run = s'
           | (None, s') =>
               n = 4%nat
               /\ match fetchPlaceholder s' with
                  | (Part000Media.FetchRead dataUrl, s'') =>
                      Part000Media.outcome run = Fulfilled dataUrl
                      /\ Part000Media.backend run = s''
                  | (Part000Media.ReaderRaises err, s'') =>
                      Part000Media.outcome run = Rejected (Rethrown err)
                      /\ Part000Media.backend run = s''
                  | (_, s'') =>
                      Part000Media.outcome run
                      = Fulfilled Part000Media.FALLBACK_IMAGE_BASE64
                      /\ Part000Media.backend run = s''
                  end
           end))
  /\ (forall model s uri s',
        attempt model s = (Some uri, s')
        <-> exists parts before data rest,
              generateImage (ApiConfig.getApiKey storage) model
                (Part000Media.imagePrompt theme) s
              = (Fulfilled parts, s')
              /\ parts = before ++ Some data :: rest
              /\ Forall (fun part => part = None) before
              /\ uri = "data:image/png;base64," +:+ data)
  /\ (forall model s,
        (attempt model s).2
        = (generateImage (ApiConfig.getApiKey storage) model
             (Part000Media.imagePrompt theme) s).2)
  /\ (forall storage0,
        ApiConfig.getApiKey storage0 = "" ->
        Part000Media.generateIllustration generateImage fetchPlaceholder storage0 theme w
        = Part000Media.mkTried (Rejected (NewError ApiConfig.API_KEY_MISSING)) [] w).
Proof.
  intros Hkey. cbv zeta. split; [|split; [|split]].
  - unfold Part000Media.generateIllustration.
    destruct (ApiConfig.getApiKey storage) as [|c apiKey] eqn:E; [congruence|].
    destruct (tryImages_run generateImage fetchPlaceholder (String c apiKey) theme
                Part000Media.imageModels w) as (n & Hn & Hc & Hbefore & Hlast).
    cbv zeta in Hc, Hbefore, Hlast. cbn [length Part000Media.imageModels] in Hn.
    destruct n as [|k]; [discriminate Hlast|].
    exists (S k). split; [lia|]. split; [exact Hc|]. split; [exact Hbefore|].
    replace (S k - 1)%nat with k by lia.
    intros model Hmodel. specialize (Hlast model Hmodel).
    destruct (Part000Media.imageAttempt generateImage (String c apiKey) theme model _)
      as [[uri|] s']; [exact Hlast|].
    destruct Hlast as (Hlen & Ho & Hb). split; [exact Hlen|].
    unfold Part000Media.lastResort in Ho, Hb.
    destruct (fetchPlaceholder s') as [[| |dataUrl| |err] s'']; split; assumption.
  - intros model s uri s'. rewrite imageAttempt_Some. split.
    + intros (parts & Hg & Hp). apply firstPicture_Some in Hp
        as (before & data & rest & Hparts & Hnone & Huri).
      exists parts, before, data, rest. auto.
    + intros (parts & before & data & rest & Hg & Hparts & Hnone & Huri).
      exists parts. split; [exact Hg|]. apply firstPicture_Some.
      exists before, data, rest. auto.
  - intros model s. unfold Part000Media.imageAttempt.
    destruct (generateImage _ model _ s) as [[parts|err] s1]; reflexivity.
  - intros storage0 Hno. unfold Part000Media.generateIllustration. rewrite Hno.
    reflexivity.
Qed.

Lemma generateIllustration_witness :
  let run := Part000Media.generateIllustration MediaExamples.generateImage
               MediaExamples.fetchPlaceholder WordExamples.withKey "a farm" 0%nat in
  Part000Media.called run = take 3 Part000Media.imageModels
  /\ Part000Media.outcome run = Fulfilled "data:image/png;base64,iVBORw0KGgo="
  /\ exists n, (1 <= n <= 4)%nat
               /\ Part000Media.called run = take n Part000Media.imageModels.
Proof.
  intros run. split; [reflexivity|]. split; [reflexivity|].
  destruct (generateIllustration_falls_back MediaExamples.generateImage
              MediaExamples.fetchPlaceholder WordExamples.withKey "a farm" 0%nat)
    as [(n & Hn & Hc & _) _]; [discriminate|].
  exists n. split; [exact Hn|exact Hc].
Defined.

(** When no model answers with a picture and the download is refused, the
    result is the static picture. *)
Example generateIllustration_static_picture :
  let run := Part000Media.generateIllustration MediaExamples.noPicture
               MediaExamples.fetchPlaceholder WordExamples.withKey "a farm" 0%nat in
  Part000Media.called run = Part000Media.imageModels
  /\ Part000Media.outcome run = Fulfilled Part000Media.FALLBACK_IMAGE_BASE64.
Proof. split; reflexivity. Qed.

(** ** Durations on the screen *)

Section FormatFacts.
Import Format.

Lemma toString_parses (n : Z) :
  DecimalString.NilZero.int_of_string (toString n) = Some (Z.to_int n).
Proof.
  unfold toString. apply DecimalString.NilZero.isi.
  - destruct n as [|p|p]; cbn; try discriminate.
    intros [= H]. exact (DecimalPos.Unsigned.to_uint_nonnil p H).
  - destruct n as [|p|p]; cbn; try discriminate.
    intros [= H]. exact (DecimalPos.Unsigned.to_uint_nonnil p H).
Qed.

(** Different integers are written differently. *)
Lemma toString_inj (n n' : Z) : toString n = toString n' -> n = n'.
Proof.
  intros H. apply DecimalZ.to_int_inj.
  pose proof (toString_parses n) as H1. rewrite H, toString_parses in H1.
  congruence.
Qed.

(** The seconds of a minute are written with two characters, differently
    for different seconds. *)
Lemma padStart2_seconds (r r' : Z) :
  0 <= r < 60 -> 0 <= r' < 60 ->
  String.length (padStart2 (toString r)) = 2%nat
  /\ (padStart2 (toString r) = padStart2 (toString r') -> r = r').
Proof.
  intros Hr Hr'.
  assert (forallb (fun a =>
            (String.length (padStart2 (toString a)) =? 2)%nat
            && forallb (fun b =>
                 implb (String.eqb (padStart2 (toString a)) (padStart2 (toString b)))
                       (a =? b))
                 (seqZ 0 60))
            (seqZ 0 60) = true) as Hall by (vm_compute; reflexivity).
  rewrite forallb_forall in Hall.
  assert (forall a, 0 <= a < 60 -> In a (seqZ 0 60)) as Hin.
  { intros a Ha. apply list_elem_of_In, elem_of_seqZ. lia. }
  specialize (Hall r (Hin r Hr)). apply andb_true_iff in Hall as [Hlen Hinj].
  split; [apply Nat.eqb_eq, Hlen|].
  intros Heq. rewrite forallb_forall in Hinj. specialize (Hinj r' (Hin r' Hr')).
  rewrite Heq, String.eqb_refl in Hinj. apply Z.eqb_eq, Hinj.
Qed.

Lemma string_app_length (a b : string) :
  String.length (a +:+ b) = (String.length a + String.length b)%nat.
Proof.
  induction a as [|c a IH]; [reflexivity|].
  change (String c a +:+ b) with (String c (a +:+ b)).
  cbn [String.length Nat.add]. rewrite IH. reflexivity.
Qed.

(** Two texts with ends of the same length are equal part by part. *)
Lemma string_app_inj (a a' b b' : string) :
  String.length b = String.length b' ->
  a +:+ b = a' +:+ b' -> a = a' /\ b = b'.
Proof.
  revert a'. induction a as [|c a IH]; intros [|c' a'] Hlen Heq.
  - split; [reflexivity|exact Heq].
  - exfalso. apply (f_equal String.length) in Heq.
    rewrite !string_app_length in Heq. cbn [String.length] in Heq. lia.
  - exfalso. apply (f_equal String.length) in Heq.
    rewrite !string_app_length in Heq. cbn [String.length] in Heq. lia.
  - change (String c (a +:+ b) = String c' (a' +:+ b')) in Heq.
    injection Heq as -> Heq. destruct (IH a' Hlen Heq) as [-> ->]. split; reflexivity.
Qed.

End FormatFacts.

(** X26.  For a whole number of seconds that is not negative, and below
    2^53 as the integers of JavaScript are, [formatDuration] writes the
    minutes, a colon and the seconds of the minute with exactly two
    characters; two different durations are written differently.
    [formatTime] of the shell writes the same text. *)
Theorem formatDuration_minutes_and_seconds (seconds seconds' : Z) :
  0 <= seconds < 2 ^ 53 -> 0 <= seconds' < 2 ^ 53 ->
  (exists ss,
     Format.formatDuration seconds = Format.toString (seconds / 60) +:+ ":" +:+ ss
     /\ ss = Format.padStart2 (Format.toString (seconds mod 60))
     /\ String.length ss = 2%nat)
  /\ (Format.formatDuration seconds' = Format.formatDuration seconds -> seconds' = seconds)
  /\ Format.formatTime seconds = Format.formatDuration seconds.
Proof.
  intros [Hs _] [Hs' _]. unfold Format.formatDuration, Format.formatTime. cbv zeta.
  rewrite !Z.rem_mod_nonneg by lia.
  pose proof (Z.mod_pos_bound seconds 60 ltac:(lia)) as Hr.
  pose proof (Z.mod_pos_bound seconds' 60 ltac:(lia)) as Hr'.
  destruct (padStart2_seconds (seconds mod 60) (seconds' mod 60) Hr Hr') as [Hlen Hinj].
  destruct (padStart2_seconds (seconds' mod 60) (seconds mod 60) Hr' Hr) as [Hlen' _].
  split; [|split; [|reflexivity]].
  - eexists. split; [reflexivity|]. split; [reflexivity|exact Hlen].
  - intros Heq.
    apply string_app_inj in Heq as [Hm Hsec];
      [|rewrite !string_app_length, Hlen, Hlen'; reflexivity].
    apply toString_inj in Hm.
    change (String ":" (Format.padStart2 (Format.toString (seconds' mod 60)))
            = String ":" (Format.padStart2 (Format.toString (seconds mod 60)))) in Hsec.
    injection Hsec as Hsec. symmetry in Hsec. apply Hinj in Hsec.
    rewrite (Z.div_mod seconds 60), (Z.div_mod seconds' 60) by lia. lia.
Qed.

Lemma formatDuration_witness :
  Format.formatDuration 65 = "1:05"
  /\ (Format.formatDuration 3600 = Format.formatDuration 65 -> 3600 = 65).
Proof.
  split; [reflexivity|].
  refine (proj1 (proj2 (formatDuration_minutes_and_seconds 65 3600 _ _))); lia.
Defined.
